(** * scapy.arch.windows: interface registry, wireless capability cache and
      route table builder

    A shallow embedding of [scapy/arch/windows/__init__.py].  Python objects
    live in an object store and are referred to by location, the interface
    registry [IFACES] is an insertion-ordered dictionary, and every function
    that raises, logs, reads the operating system or mutates an object is a
    computation in a state-and-exception monad over [World]. *)

From Stdlib Require Import ZArith List String Ascii Bool Lia.
From Stdlib Require Import Strings.Byte.
From Stdlib Require Import DecimalString DecimalZ.
Import ListNotations.

Local Open Scope string_scope.
Local Open Scope Z_scope.

(** ** Python built-ins on (byte) strings *)

Module Py.

(** [s.endswith(suf)] *)
Definition endswith (s suf : string) : bool :=
  (String.length suf <=? String.length s)%nat
  && String.eqb
       (substring (String.length s - String.length suf)%nat (String.length suf) s)
       suf.

(** [sub in s] *)
Fixpoint contains (sub s : string) : bool :=
  prefix sub s
  || match s with
     | EmptyString => false
     | String _ s' => contains sub s'
     end.

Definition is_upper (c : ascii) : bool :=
  let n := nat_of_ascii c in ((65 <=? n) && (n <=? 90))%nat.

Definition is_lower (c : ascii) : bool :=
  let n := nat_of_ascii c in ((97 <=? n) && (n <=? 122))%nat.

Definition lower_char (c : ascii) : ascii :=
  if is_upper c then ascii_of_nat (nat_of_ascii c + 32)%nat else c.

Definition upper_char (c : ascii) : ascii :=
  if is_lower c then ascii_of_nat (nat_of_ascii c - 32)%nat else c.

Fixpoint map_chars (f : ascii -> ascii) (s : string) : string :=
  match s with
  | EmptyString => EmptyString
  | String c s' => String (f c) (map_chars f s')
  end.

(** [s.lower()] and [s.upper()], on the ASCII letters. *)
Definition lower : string -> string := map_chars lower_char.
Definition upper : string -> string := map_chars upper_char.

(** Characters removed by [s.strip()]: space, TAB, LF, VT, FF, CR. *)
Definition is_space (c : ascii) : bool :=
  let n := nat_of_ascii c in ((n =? 32) || ((9 <=? n) && (n <=? 13)))%nat.

Fixpoint lstrip (s : string) : string :=
  match s with
  | EmptyString => EmptyString
  | String c s' => if is_space c then lstrip s' else s
  end.

(** [rstrip] keeps a character when it is not a space or when something
    is kept after it. *)
Fixpoint rstrip (s : string) : string :=
  match s with
  | EmptyString => EmptyString
  | String c s' =>
      match rstrip s' with
      | EmptyString => if is_space c then EmptyString else String c EmptyString
      | r => String c r
      end
  end.

Definition strip (s : string) : string := rstrip (lstrip s).

(** [s.replace(old, new)] for a non-empty [old]: occurrences are replaced
    from left to right and do not overlap; [skip] counts the characters of
    a matched occurrence that are still to be dropped. *)
Fixpoint replace_from (skip : nat) (old new s : string) : string :=
  match s with
  | EmptyString => EmptyString
  | String c s' =>
      match skip with
      | S k => replace_from k old new s'
      | O =>
          if prefix old s
          then (new ++ replace_from (String.length old - 1) old new s')%string
          else String c (replace_from O old new s')
      end
  end.

Definition replace (s old new : string) : string := replace_from O old new s.

(** [s[1:-1]] *)
Definition slice_1_m1 (s : string) : string :=
  substring 1 (String.length s - 2)%nat s.

(** [sep.join(l)] *)
Definition join (sep : string) (l : list string) : string := concat sep l.

(** [str(i)] for an integer. *)
Definition str (i : Z) : string := NilZero.string_of_int (Z.to_int i).

(** [next(x for x in l if p(x))]: the first element that satisfies [p],
    [None] standing for [StopIteration]. *)
Definition next_such {A : Type} (p : A -> bool) (l : list A) : option A :=
  find p l.

End Py.

(** ** Exceptions and log records *)

Inductive exn_class : Type :=
| OSError
| Scapy_Exception
| ValueError
| TypeError
| AttributeError
| EOFError
| OtherException.

(** The exceptions the module raises itself carry what their message is built
    from; [External] is any exception coming out of a collaborator. *)
Inductive exn : Type :=
| RequiresNpcap
    (* OSError("This operation requires Npcap.") *)
| NoRaw80211
    (* Scapy_Exception("This interface does not support raw 802.11") *)
| UnknownInterface (name : string)
    (* ValueError("Unknown network interface %r" % name) *)
| UnknownPcapInterface (pcap_name : option string)
    (* ValueError("Unknown pypcap network interface %r" % pcap_name) *)
| UnknownInterfaceIndex (if_index : Z)
    (* ValueError("Unknown network interface index %r" % if_index) *)
| NoneOperand
    (* TypeError: an attribute that is still None used as a number, a string
       argument or a sequence *)
| NoneAttribute
    (* AttributeError: a method called on an attribute that is still None *)
| EndOfInput
    (* EOFError raised by input() *)
| External (c : exn_class) (msg : string).

Definition class_of (e : exn) : exn_class :=
  match e with
  | RequiresNpcap => OSError
  | NoRaw80211 => Scapy_Exception
  | UnknownInterface _ => ValueError
  | UnknownPcapInterface _ => ValueError
  | UnknownInterfaceIndex _ => ValueError
  | NoneOperand => TypeError
  | NoneAttribute => AttributeError
  | EndOfInput => EOFError
  | External c _ => c
  end.

Definition exn_class_eqb (a b : exn_class) : bool :=
  match a, b with
  | OSError, OSError | Scapy_Exception, Scapy_Exception
  | ValueError, ValueError | TypeError, TypeError
  | AttributeError, AttributeError
  | EOFError, EOFError | OtherException, OtherException => true
  | _, _ => false
  end.

(** [except C:] catches [e] when [isinstance e C]; none of the classes above
    derives from another one of them. *)
Definition isinstance_exn (e : exn) (c : exn_class) : bool :=
  exn_class_eqb (class_of e) c.

Inductive log_record : Type :=
| Warn_pcap_service_not_running
    (* "Scapy has detected that your pcap service is not running !" *)
| Warn_no_match (could_not_start : bool)
    (* _error_msg + "You probably won't be able to send packets. ..." where
       _error_msg is "Could not start the pcap service ! " or
       "No match between your pcap and windows network interfaces found. " *)
| Info_pcap_service_started
    (* "Pcap service started !" *)
| Error_wlanhelper
    (* "Npcap WlanHelper returned with an error code !" *)
| Warn_error_building (ipv6 : bool) (e : exn)
    (* "Error building scapy IPv4 routing table : %s" (resp. IPv6) *)
| Warn_no_default_ipv4_routes.
    (* "No default IPv4 routes found. Your Windows release may no be
       supported and you have to enter your routes manually" *)

(** ** Adapter records and their normalisation *)

Inductive family : Type := AF_INET | AF_INET6.

(** One item of an adapter's unicast, anycast or multicast address list:
    [ip['address']['address'].contents]. *)
Record SockAddr : Type := {
  si_family : family;
  Ipv4_sin_addr : list byte;
  Ipv6_sin6_addr : list byte
}.

(** A record yielded by [GetAdaptersAddresses()].  An address list that the
    binding did not turn into a Python list is [None]. *)
Record RawAdapter : Type := {
  friendly_name : string;
  interface_index : Z;
  raw_description : string;
  adapter_name : string;
  physical_address_length : Z;
  physical_address : list byte;
  raw_ipv4_metric : Z;
  raw_ipv6_metric : Z;
  first_unicast_address : option (list SockAddr);
  first_anycast_address : option (list SockAddr);
  first_multicast_address : option (list SockAddr)
}.

(** The dictionary handed to [NetworkInterface.update].  The keys ['netid']
    and ['invalid'] are optional; the others are always present in the
    dictionaries this module builds. *)
Record IfData : Type := {
  d_netid : option string;
  d_name : string;
  d_description : string;
  d_win_index : Z;
  d_guid : string;
  d_invalid : option bool;
  d_mac : string;
  d_ipv4_metric : Z;
  d_ipv6_metric : Z;
  d_ips : list string
}.

Definition hexdigit (n : N) : ascii :=
  match n with
  | 0%N => "0" | 1%N => "1" | 2%N => "2" | 3%N => "3"
  | 4%N => "4" | 5%N => "5" | 6%N => "6" | 7%N => "7"
  | 8%N => "8" | 9%N => "9" | 10%N => "a" | 11%N => "b"
  | 12%N => "c" | 13%N => "d" | 14%N => "e" | _ => "f"
  end%char.

(** ["%02x" % b] *)
Definition hex2 (b : byte) : string :=
  let n := Byte.to_N b in
  String (hexdigit (n / 16)) (String (hexdigit (n mod 16)) EmptyString).

(** Modelled from the spec: [scapy.utils.str2mac] is imported by the module
    and not part of it; the spec calls its result the canonical colon-hex
    string of the address bytes, that is the bytes printed as two lower-case
    hexadecimal digits each and joined by colons. *)
Definition str2mac (s : list byte) : string := Py.join ":" (map hex2 s).

(** [get_windows_if_list._get_mac] *)
Definition _get_mac (x : RawAdapter) : string :=
  let size := physical_address_length x in
  if negb (size =? 6) then EmptyString
  else
    let data := physical_address x in
    str2mac (firstn (Z.to_nat size) data).

(** ** Records of the forwarding tables *)

(** A row of [GetIpForwardTable()]. *)
Record ForwardRow : Type := {
  ForwardIfIndex : Z;
  ForwardDest : Z;
  ForwardMask : Z;
  ForwardNextHop : Z;
  ForwardMetric1 : Z
}.

(** A row of [GetIpForwardTable2(af)]; the two addresses are the byte arrays
    found under the socket-address member of the requested family. *)
Record ForwardRow2 : Type := {
  InterfaceIndex : Z;
  DestinationPrefix_Prefix : list byte;
  NextHop : list byte;
  Metric : Z
}.

(** ** Objects *)

(** Objects are referred to by their location in the store; two references
    are the same object when the locations are equal. *)
Definition loc : Type := nat.

(** The attributes of a [NetworkInterface] object.  [__init__] sets the first
    eleven ([None], or [False] for [invalid]); [data], [win_index] and [guid]
    only exist once [update] has run. *)
Record NetworkInterface : Type := {
  name : option string;
  ip : option string;
  mac : option string;
  pcap_name : option string;
  description : option string;
  invalid : bool;
  raw80211 : option bool;
  cache_mode : option bool;
  ipv4_metric : option Z;
  ipv6_metric : option Z;
  ips : option (list string);
  data : option IfData;
  win_index : option Z;
  guid : option string
}.

(** The object [NetworkInterface()] before any [update]. *)
Definition NetworkInterface_init : NetworkInterface :=
  {| name := None; ip := None; mac := None; pcap_name := None;
     description := None; invalid := false; raw80211 := None;
     cache_mode := None; ipv4_metric := None; ipv6_metric := None;
     ips := None; data := None; win_index := None; guid := None |}.

Definition set_ip (v : option string) (o : NetworkInterface) :=
  {| name := name o; ip := v; mac := mac o; pcap_name := pcap_name o;
     description := description o; invalid := invalid o;
     raw80211 := raw80211 o; cache_mode := cache_mode o;
     ipv4_metric := ipv4_metric o; ipv6_metric := ipv6_metric o;
     ips := ips o; data := data o; win_index := win_index o;
     guid := guid o |}.

Definition set_mac (v : option string) (o : NetworkInterface) :=
  {| name := name o; ip := ip o; mac := v; pcap_name := pcap_name o;
     description := description o; invalid := invalid o;
     raw80211 := raw80211 o; cache_mode := cache_mode o;
     ipv4_metric := ipv4_metric o; ipv6_metric := ipv6_metric o;
     ips := ips o; data := data o; win_index := win_index o;
     guid := guid o |}.

Definition set_pcap_name (v : option string) (o : NetworkInterface) :=
  {| name := name o; ip := ip o; mac := mac o; pcap_name := v;
     description := description o; invalid := invalid o;
     raw80211 := raw80211 o; cache_mode := cache_mode o;
     ipv4_metric := ipv4_metric o; ipv6_metric := ipv6_metric o;
     ips := ips o; data := data o; win_index := win_index o;
     guid := guid o |}.

Definition set_invalid (v : bool) (o : NetworkInterface) :=
  {| name := name o; ip := ip o; mac := mac o; pcap_name := pcap_name o;
     description := description o; invalid := v;
     raw80211 := raw80211 o; cache_mode := cache_mode o;
     ipv4_metric := ipv4_metric o; ipv6_metric := ipv6_metric o;
     ips := ips o; data := data o; win_index := win_index o;
     guid := guid o |}.

Definition set_raw80211 (v : option bool) (o : NetworkInterface) :=
  {| name := name o; ip := ip o; mac := mac o; pcap_name := pcap_name o;
     description := description o; invalid := invalid o;
     raw80211 := v; cache_mode := cache_mode o;
     ipv4_metric := ipv4_metric o; ipv6_metric := ipv6_metric o;
     ips := ips o; data := data o; win_index := win_index o;
     guid := guid o |}.

Definition set_cache_mode (v : option bool) (o : NetworkInterface) :=
  {| name := name o; ip := ip o; mac := mac o; pcap_name := pcap_name o;
     description := description o; invalid := invalid o;
     raw80211 := raw80211 o; cache_mode := v;
     ipv4_metric := ipv4_metric o; ipv6_metric := ipv6_metric o;
     ips := ips o; data := data o; win_index := win_index o;
     guid := guid o |}.

(** ** Configuration, operating system and module state *)

(** What the module reads from [conf], [scapy.consts], [six] and
    [scapy.arch.pcapdnet]. *)
Record Conf : Type := {
  use_npcap : bool;
  use_pcap : bool;
  use_winpcapy : bool;
  interactive : bool;
  prog_os_access : bool;
  prog_powershell : option string;
  cache_iflist : list (string * (string * list string));
  WINDOWS_XP : bool;
  PY2 : bool;
  LOOPBACK_NAME : string;
  NPCAP_PATH : string
}.

Inductive result (A : Type) : Type :=
| Ret (a : A)
| Raise (e : exn).
Arguments Ret {A} a.
Arguments Raise {A} e.

(** What the operating system answers: the adapter enumeration, the device
    names of the capture subsystem ([pcapdnet.get_if_list()]), the
    [Dot11Adapters] value of the Npcap registry key (what
    [_get_npcap_dot11_adapters()] returns) and the two forwarding tables,
    taken as they are when the module runs; a collaborator that fails gives
    [Raise].  [Popen n cmd] is the exit code and the standard output of the
    [n]-th command this process runs. *)
Record OS : Type := {
  GetAdaptersAddresses : result (list RawAdapter);
  get_if_list : list string;
  Dot11Adapters : option string;
  GetIpForwardTable : result (list ForwardRow);
  GetIpForwardTable2 : family -> result (list ForwardRow2);
  Popen : nat -> string -> Z * string
}.

(** The state of the module: the lines still to come on the terminal, the
    object store with the next free location, the registry [IFACES.data]
    with its attribute [restarted_adapter] ([None] before it is first
    assigned), [scapy.consts.LOOPBACK_INTERFACE], and the commands run and
    records logged so far.  A [LOOPBACK_INTERFACE] that is not a
    [NetworkInterface] object ([None], or still the name of the adapter) is
    [None] here: it fails the [isinstance] test of [dev_from_index] and is
    equal to no interface of the registry. *)
Record World : Type := {
  conf : Conf;
  os : OS;
  stdin : list string;
  heap : loc -> NetworkInterface;
  next_loc : loc;
  IFACES : list (string * loc);
  restarted_adapter : option bool;
  LOOPBACK_INTERFACE : option loc;
  executed : list string;
  logged : list log_record
}.

Definition set_stdin (v : list string) (w : World) : World :=
  {| conf := conf w; os := os w; stdin := v; heap := heap w;
     next_loc := next_loc w; IFACES := IFACES w;
     restarted_adapter := restarted_adapter w;
     LOOPBACK_INTERFACE := LOOPBACK_INTERFACE w;
     executed := executed w; logged := logged w |}.

Definition set_heap (h : loc -> NetworkInterface) (n : loc) (w : World) : World :=
  {| conf := conf w; os := os w; stdin := stdin w; heap := h;
     next_loc := n; IFACES := IFACES w;
     restarted_adapter := restarted_adapter w;
     LOOPBACK_INTERFACE := LOOPBACK_INTERFACE w;
     executed := executed w; logged := logged w |}.

Definition set_IFACES (v : list (string * loc)) (w : World) : World :=
  {| conf := conf w; os := os w; stdin := stdin w; heap := heap w;
     next_loc := next_loc w; IFACES := v;
     restarted_adapter := restarted_adapter w;
     LOOPBACK_INTERFACE := LOOPBACK_INTERFACE w;
     executed := executed w; logged := logged w |}.

Definition set_restarted_adapter (v : option bool) (w : World) : World :=
  {| conf := conf w; os := os w; stdin := stdin w; heap := heap w;
     next_loc := next_loc w; IFACES := IFACES w;
     restarted_adapter := v;
     LOOPBACK_INTERFACE := LOOPBACK_INTERFACE w;
     executed := executed w; logged := logged w |}.

Definition set_LOOPBACK_INTERFACE (v : option loc) (w : World) : World :=
  {| conf := conf w; os := os w; stdin := stdin w; heap := heap w;
     next_loc := next_loc w; IFACES := IFACES w;
     restarted_adapter := restarted_adapter w;
     LOOPBACK_INTERFACE := v;
     executed := executed w; logged := logged w |}.

Definition set_executed (v : list string) (w : World) : World :=
  {| conf := conf w; os := os w; stdin := stdin w; heap := heap w;
     next_loc := next_loc w; IFACES := IFACES w;
     restarted_adapter := restarted_adapter w;
     LOOPBACK_INTERFACE := LOOPBACK_INTERFACE w;
     executed := v; logged := logged w |}.

Definition set_logged (v : list log_record) (w : World) : World :=
  {| conf := conf w; os := os w; stdin := stdin w; heap := heap w;
     next_loc := next_loc w; IFACES := IFACES w;
     restarted_adapter := restarted_adapter w;
     LOOPBACK_INTERFACE := LOOPBACK_INTERFACE w;
     executed := executed w; logged := v |}.

(** ** The monad of Python computations *)

(** A computation runs in a world and gives a value or an exception, and
    the world it leaves. *)
Definition M (A : Type) : Type := World -> result A * World.

Definition ret {A} (a : A) : M A := fun w => (Ret a, w).
Definition raise {A} (e : exn) : M A := fun w => (Raise e, w).

(** [m] and then [k]; an exception of [m] ends the computation. *)
Definition bind {A B} (m : M A) (k : A -> M B) : M B :=
  fun w =>
    match m w with
    | (Ret a, w') => k a w'
    | (Raise e, w') => (Raise e, w')
    end.

(** [try: m  except C: h]; what [m] did to the world before raising stays. *)
Definition try_except {A} (m : M A) (c : exn_class) (h : exn -> M A) : M A :=
  fun w =>
    match m w with
    | (Ret a, w') => (Ret a, w')
    | (Raise e, w') => if isinstance_exn e c then h e w' else (Raise e, w')
    end.

(** [try: m  except Exception as e: h] *)
Definition try_except_Exception {A} (m : M A) (h : exn -> M A) : M A :=
  fun w =>
    match m w with
    | (Ret a, w') => (Ret a, w')
    | (Raise e, w') => h e w'
    end.

(** Reading and changing the world. *)
Definition gets {A} (f : World -> A) : M A := fun w => (Ret (f w), w).
Definition modify (f : World -> World) : M unit := fun w => (Ret tt, f w).

Declare Scope py_scope.
Delimit Scope py_scope with py.
Notation "x <- m ;; k" := (bind m (fun x => k))
  (at level 61, m at next level, right associativity) : py_scope.
Notation "m ;; k" := (bind m (fun _ => k))
  (at level 61, right associativity) : py_scope.
Local Open Scope py_scope.

(** Attribute access on the object at [self]. *)
Definition getobj (self : loc) : M NetworkInterface :=
  gets (fun w => heap w self).

(** The store [h] with [o] at [l]. *)
Definition upd (h : loc -> NetworkInterface) (l : loc) (o : NetworkInterface)
  : loc -> NetworkInterface :=
  fun l' => if Nat.eqb l' l then o else h l'.

(** Attribute assignment on the object at [self]. *)
Definition setobj (self : loc) (f : NetworkInterface -> NetworkInterface)
  : M unit :=
  modify (fun w => set_heap (upd (heap w) self (f (heap w self))) (next_loc w) w).

(** A new object. *)
Definition alloc (o : NetworkInterface) : M loc :=
  fun w => (Ret (next_loc w),
            set_heap (upd (heap w) (next_loc w) o) (S (next_loc w)) w).

(** [warning(...)], [log_runtime.error(...)], [log_loading.info(...)] *)
Definition log (r : log_record) : M unit :=
  modify (fun w => set_logged (logged w ++ [r]) w).

(** Truth value of an optional string: [None] and the empty string are
    false. *)
Definition truthy (s : option string) : bool :=
  match s with
  | Some (String _ _) => true
  | _ => false
  end.

(** [a == b] for an attribute that may still be [None] and a string. *)
Definition opt_eqb (a : option string) (b : string) : bool :=
  match a with
  | Some s => String.eqb s b
  | None => false
  end.

(** ** Imported helpers

    Pure functions of other scapy modules, known here by their interface
    only: [scapy.pton_ntop.inet_ntop], [scapy.utils.atol], [scapy.utils.itom],
    [scapy.utils6.in6_getscope] and
    [scapy.utils6.construct_source_candidate_set]. *)
Class Imports : Type := {
  inet_ntop : family -> list byte -> string;
  atol : string -> Z;
  itom : Z -> Z;
  in6_getscope : string -> Z;
  construct_source_candidate_set :
    string -> Z -> list (string * Z * loc) -> list string
}.

Section Windows.

Context `{Imports}.

(** *** Adapter Record Normalizer *)

(** [get_windows_if_list._get_ips._resolve_ips] *)
Definition _resolve_ips (y : option (list SockAddr)) : list string :=
  match y with
  | None => []
  | Some l =>
      flat_map
        (fun addr =>
           let data :=
             match si_family addr with
             | AF_INET6 => Ipv6_sin6_addr addr
             | AF_INET => Ipv4_sin_addr addr
             end in
           match data with
           | [] => []
           | _ :: _ => [inet_ntop (si_family addr) data]
           end)
        l
  end.

(** [get_windows_if_list._get_ips] *)
Definition _get_ips (extended : bool) (x : RawAdapter) : list string :=
  _resolve_ips (first_unicast_address x)
  ++ (if extended
      then _resolve_ips (first_anycast_address x)
           ++ _resolve_ips (first_multicast_address x)
      else []).

(** [get_windows_if_list]; the strings of the model are byte strings
    already, so that [_str_decode] leaves them as they are. *)
Definition get_windows_if_list (extended : bool) : M (list IfData) :=
  c <- gets conf ;;
  adapters <- (fun w => (GetAdaptersAddresses (os w), w)) ;;
  ret (map
         (fun x =>
            {| d_netid := None;
               d_name := friendly_name x;
               d_description := raw_description x;
               d_win_index := interface_index x;
               d_guid := adapter_name x;
               d_invalid := None;
               d_mac := _get_mac x;
               d_ipv4_metric := if WINDOWS_XP c then 0 else raw_ipv4_metric x;
               d_ipv6_metric := if WINDOWS_XP c then 0 else raw_ipv6_metric x;
               d_ips := _get_ips extended x |})
         adapters).

(** *** NetworkInterface *)

(** [NetworkInterface.is_invalid] *)
Definition is_invalid (self : loc) : M bool :=
  o <- getobj self ;; ret (invalid o).

(** [NetworkInterface._update_pcapdata] *)
Definition _update_pcapdata (self : loc) : M unit :=
  inv <- is_invalid self ;;
  if inv then ret tt
  else
    o <- getobj self ;;
    l <- gets (fun w => get_if_list (os w)) ;;
    match l, guid o with
    | _ :: _, None => raise NoneOperand
    | _, Some g =>
        match Py.next_such (fun i => Py.endswith i g) l with
        | Some i => setobj self (set_pcap_name (Some i))
        | None => setobj self (set_invalid true)
        end
    | [], None => setobj self (set_invalid true)
    end.

(** The attribute assignments that open [NetworkInterface.update], up to the
    call of [_update_pcapdata]. *)
Definition assign_from_data (c : Conf) (d : IfData) (o : NetworkInterface)
  : NetworkInterface :=
  {| data := Some d;
     name := if opt_eqb (d_netid d) (LOOPBACK_NAME c)
             then Some (LOOPBACK_NAME c)
             else Some (d_name d);
     description := Some (d_description d);
     win_index := Some (d_win_index d);
     guid := Some (d_guid d);
     mac := Some (d_mac d);
     ipv4_metric := Some (d_ipv4_metric d);
     ipv6_metric := Some (d_ipv6_metric d);
     ips := Some (d_ips d);
     invalid := match d_invalid d with
                | Some b => b
                | None => invalid o
                end;
     ip := ip o;
     pcap_name := pcap_name o;
     raw80211 := raw80211 o;
     cache_mode := cache_mode o |}.

(** [NetworkInterface.update].  Nothing in the three [try] blocks of the
    source can raise one of the exceptions they name once the attributes have
    been assigned, so the handlers do not appear. *)
Definition update (self : loc) (d : IfData) : M unit :=
  c <- gets conf ;;
  setobj self (assign_from_data c d) ;;
  _update_pcapdata self ;;
  o <- getobj self ;;
  if opt_eqb (name o) (LOOPBACK_NAME c) && use_npcap c then
    setobj self (set_mac (Some "00:00:00:00:00:00")) ;;
    setobj self (set_ip (Some "127.0.0.1"))
  else
    match ips o with
    | None => raise NoneOperand
    | Some l =>
        match Py.next_such (fun x => negb (Py.contains ":" x)) l with
        | Some x => setobj self (set_ip (Some x))
        | None => ret tt
        end
    end ;;
    o <- getobj self ;;
    if negb (truthy (ip o)) && opt_eqb (name o) (LOOPBACK_NAME c)
    then setobj self (set_ip (Some "127.0.0.1"))
    else ret tt.

(** [NetworkInterface(data)] *)
Definition new_NetworkInterface (d : option IfData) : M loc :=
  self <- alloc NetworkInterface_init ;;
  match d with
  | Some d => update self d ;; ret self
  | None => ret self
  end.

(** *** Wireless capability *)

(** The double quote character. *)
Definition dquote : string := String (ascii_of_nat 34) EmptyString.

(** [_encapsulate_admin] *)
Definition _encapsulate_admin (cmd : string) : string :=
  ("powershell /command " ++ dquote ++ "Start-Process cmd "
   ++ "-windowstyle hidden -Wait -PassThru -Verb RunAs "
   ++ "-ArgumentList '/c " ++ cmd ++ "'" ++ dquote)%string.

(** [_exec_cmd] *)
Definition _exec_cmd (command : string) : M string :=
  fun w =>
    let '(returncode, res) := Popen (os w) (List.length (executed w)) command in
    (Ret (if negb (returncode =? 0) then "error" else res),
     set_executed (executed w ++ [command]) w).

(** [_WlanHelper = NPCAP_PATH + "\WlanHelper.exe"] *)
Definition _WlanHelper (c : Conf) : string :=
  (NPCAP_PATH c ++ "\WlanHelper.exe")%string.

(** [NetworkInterface._check_npcap_requirement] *)
Definition _check_npcap_requirement (self : loc) : M unit :=
  c <- gets conf ;;
  if negb (use_npcap c) then raise RequiresNpcap
  else
    o <- getobj self ;;
    match raw80211 o with
    | Some _ => ret tt
    | None =>
        dot11adapters <- gets (fun w => Dot11Adapters (os w)) ;;
        match dot11adapters, guid o with
        | None, _ => setobj self (set_raw80211 (Some false))
        | Some _, None => raise NoneAttribute
        | Some a, Some g =>
            setobj self
              (set_raw80211 (Some (Py.contains (Py.lower g) (Py.lower a))))
        end
    end ;;
    o <- getobj self ;;
    match raw80211 o with
    | Some true => ret tt
    | _ => raise NoRaw80211
    end.

(** [self.guid[1:-1]], the identifier without its braces. *)
Definition guid_slice (o : NetworkInterface) : M string :=
  match guid o with
  | Some g => ret (Py.slice_1_m1 g)
  | None => raise NoneOperand
  end.

(** [NetworkInterface._npcap_set]: the command succeeded when it printed
    nothing. *)
Definition _npcap_set (self : loc) (key val : string) : M bool :=
  c <- gets conf ;;
  o <- getobj self ;;
  g <- guid_slice o ;;
  out <- _exec_cmd
           (_encapsulate_admin (Py.join " " [_WlanHelper c; g; key; val])) ;;
  ret (negb (truthy (Some out))).

(** [NetworkInterface._npcap_get] *)
Definition _npcap_get (self : loc) (key : string) : M string :=
  c <- gets conf ;;
  o <- getobj self ;;
  g <- guid_slice o ;;
  data <- _exec_cmd (Py.join " " [_WlanHelper c; g; key]) ;;
  ret (Py.strip data).

(** [NetworkInterface.mode] *)
Definition mode (self : loc) : M string :=
  _check_npcap_requirement self ;;
  _npcap_get self "mode".

(** The output of the helper is a byte string; compared with a text
    literal it is equal to it under Python 2 only. *)
Definition bytes_eq_str (c : Conf) (b s : string) : bool :=
  PY2 c && String.eqb b s.

(** [NetworkInterface.ismonitor] *)
Definition ismonitor (self : loc) : M bool :=
  c <- gets conf ;;
  o <- getobj self ;;
  match cache_mode o with
  | Some b => ret b
  | None =>
      try_except
        (m <- mode self ;;
         let res := bytes_eq_str c m "monitor" in
         setobj self (set_cache_mode (Some res)) ;;
         ret res)
        Scapy_Exception
        (fun _ => ret false)
  end.

(** The argument of [setmode]: an integer or the name of the mode. *)
Inductive int_or_str : Type :=
| PyInt (i : Z)
| PyStr (s : string).

(** The table [_modes] of [setmode]. *)
Definition _modes (i : Z) : option string :=
  match i with
  | 0 => Some "managed"
  | 1 => Some "monitor"
  | 2 => Some "master"
  | 3 => Some "wfd_device"
  | 4 => Some "wfd_owner"
  | 5 => Some "wfd_client"
  | _ => None
  end.

(** [NetworkInterface.setmode] *)
Definition setmode (self : loc) (mode : int_or_str) : M bool :=
  _check_npcap_requirement self ;;
  let m :=
    match mode with
    | PyInt i => match _modes i with Some s => s | None => "unknown" end
    | PyStr s => s
    end in
  _npcap_set self "mode" m.

(** [NetworkInterface.setmonitor] *)
Definition setmonitor (self : loc) (enable : bool) : M bool :=
  res <- (if enable then
            res <- setmode self (PyStr "monitor") ;;
            setobj self (set_cache_mode (Some res)) ;;
            ret res
          else
            res <- setmode self (PyStr "managed") ;;
            setobj self (set_cache_mode (Some (negb res))) ;;
            ret res) ;;
  (if negb res then log Error_wlanhelper else ret tt) ;;
  ret res.

(** *** Insertion-ordered dictionaries

    The registry and [conf.cache_iflist] are dictionaries that the source
    iterates over; they are lists of items in the order of insertion, which
    is the order of iteration. *)

(** [d[k] = v]: the value of an existing key is replaced where it stands, a
    new key goes last. *)
Fixpoint dict_set {K V : Type} (eqb : K -> K -> bool) (k : K) (v : V)
    (d : list (K * V)) : list (K * V) :=
  match d with
  | [] => [(k, v)]
  | (k', v') :: d' =>
      if eqb k' k then (k', v) :: d' else (k', v') :: dict_set eqb k v d'
  end.

(** [k in d] *)
Definition dict_mem {K V : Type} (eqb : K -> K -> bool) (k : K)
    (d : list (K * V)) : bool :=
  existsb (fun kv => eqb (fst kv) k) d.

(** [d.get(k)] *)
Definition dict_get {K V : Type} (eqb : K -> K -> bool) (k : K)
    (d : list (K * V)) : option V :=
  option_map snd (find (fun kv => eqb (fst kv) k) d).

(** [not d] *)
Definition dict_is_empty {K V : Type} (d : list (K * V)) : bool :=
  match d with
  | [] => true
  | _ :: _ => false
  end.

(** [six.itervalues(d)] *)
Definition itervalues {K V : Type} (d : list (K * V)) : list V := map snd d.

(** [for x in l: body(x)], an exception ending the loop. *)
Fixpoint for_each {A : Type} (body : A -> M unit) (l : list A) : M unit :=
  match l with
  | [] => ret tt
  | x :: l' => body x ;; for_each body l'
  end.

(** *** Capture service *)

(** [pcap_service_name] *)
Definition pcap_service_name (c : Conf) : string :=
  if use_npcap c then "npcap" else "npf".

(** [pcap_service_status] *)
Definition pcap_service_status : M bool :=
  c <- gets conf ;;
  outp <- _exec_cmd
            ("sc query " ++ pcap_service_name c ++ " | findstr STATE")%string ;;
  ret (Py.contains "running" (Py.lower outp)).

(** [_pcap_service_control] *)
Definition _pcap_service_control (action : string) (askadmin : bool) : M bool :=
  c <- gets conf ;;
  if negb (truthy (prog_powershell c)) then ret false
  else
    let command := (action ++ " " ++ pcap_service_name c)%string in
    stdout <- _exec_cmd
                (if askadmin then _encapsulate_admin command else command) ;;
    ret (negb (Py.contains "error" (Py.lower stdout))).

(** [pcap_service_start] *)
Definition pcap_service_start (askadmin : bool) : M bool :=
  _pcap_service_control "sc start" askadmin.

(** *** Interface Registry *)

(** [NetworkInterfaceDict.dev_from_name] *)
Definition dev_from_name (nm : string) : M loc :=
  w <- gets (fun w => w) ;;
  match Py.next_such
          (fun iface =>
             opt_eqb (name (heap w iface)) nm
             || opt_eqb (description (heap w iface)) nm)
          (itervalues (IFACES w)) with
  | Some iface => ret iface
  | None => raise (UnknownInterface nm)
  end.

(** [a == b] for two values that are a string or [None]. *)
Definition opt_string_eqb (a b : option string) : bool :=
  match a, b with
  | Some x, Some y => String.eqb x y
  | None, None => true
  | _, _ => false
  end.

(** [NetworkInterfaceDict.dev_from_pcapname] *)
Definition dev_from_pcapname (pn : option string) : M loc :=
  w <- gets (fun w => w) ;;
  match Py.next_such
          (fun iface => opt_string_eqb (pcap_name (heap w iface)) pn)
          (itervalues (IFACES w)) with
  | Some iface => ret iface
  | None => raise (UnknownPcapInterface pn)
  end.

(** [a == b] for an attribute that may still be [None] and an integer. *)
Definition opt_Z_eqb (a : option Z) (b : Z) : bool :=
  match a with
  | Some x => x =? b
  | None => false
  end.

(** [NetworkInterfaceDict.dev_from_index], for an integer [if_index]. *)
Definition dev_from_index (if_index : Z) : M loc :=
  w <- gets (fun w => w) ;;
  match Py.next_such
          (fun iface => opt_Z_eqb (win_index (heap w iface)) if_index)
          (itervalues (IFACES w)) with
  | Some iface => ret iface
  | None =>
      if String.eqb (Py.str if_index) "1" then
        match LOOPBACK_INTERFACE w with
        | Some lo => ret lo
        | None => raise (UnknownInterfaceIndex if_index)
        end
      else raise (UnknownInterfaceIndex if_index)
  end.

(** What [input()] returns is a byte string under Python 2 and text under
    Python 3.  A line of text is the string of its code points, which the
    model has below 256, one character each.  [lower] and [strip] of text
    know more letters and more spaces than those of a byte string: the
    capital letters from U+00C0 to U+00DE but the sign U+00D7, and the
    separators from U+001C to U+001F, U+0085 and U+00A0. *)
Definition text_lower_char (c : ascii) : ascii :=
  let n := nat_of_ascii c in
  if (((65 <=? n) && (n <=? 90))
      || ((192 <=? n) && (n <=? 222) && negb (n =? 215)))%nat
  then ascii_of_nat (n + 32)%nat
  else c.

Definition text_is_space (c : ascii) : bool :=
  let n := nat_of_ascii c in
  (((9 <=? n) && (n <=? 13)) || ((28 <=? n) && (n <=? 32))
   || (n =? 133) || (n =? 160))%nat.

Fixpoint text_lstrip (s : string) : string :=
  match s with
  | EmptyString => EmptyString
  | String c s' => if text_is_space c then text_lstrip s' else s
  end.

Fixpoint text_rstrip (s : string) : string :=
  match s with
  | EmptyString => EmptyString
  | String c s' =>
      match text_rstrip s' with
      | EmptyString =>
          if text_is_space c then EmptyString else String c EmptyString
      | r => String c r
      end
  end.

(** [line.lower().strip()] for a line that [input()] returned. *)
Definition input_lower_strip (c : Conf) (line : string) : string :=
  if PY2 c then Py.strip (Py.lower line)
  else text_rstrip (text_lstrip (Py.map_chars text_lower_char line)).

(** The loop of [load._ask_user] over the lines still to be read from the
    terminal; [input()] raises [EOFError] when there is none left. *)
Fixpoint ask_loop (c : Conf) (lines : list string)
  : result bool * list string :=
  match lines with
  | [] => (Raise EndOfInput, [])
  | line :: rest =>
      let _confir := input_lower_strip c line in
      if existsb (String.eqb _confir) ["yes"; "y"; EmptyString]
      then (Ret true, rest)
      else if existsb (String.eqb _confir) ["no"; "n"]
      then (Ret false, rest)
      else ask_loop c rest
  end.

(** [load._ask_user] *)
Definition _ask_user : M bool :=
  c <- gets conf ;;
  if negb (interactive c) then ret false
  else fun w =>
         let '(r, rest) := ask_loop c (stdin w) in (r, set_stdin rest w).

(** The guid of a cache entry as [load] normalises it. *)
Definition cache_guid (g : string) : string :=
  Py.replace (Py.upper g) "\DEVICE\NPF_" EmptyString.

(** The body of the first loop of [load], for one dictionary of
    [get_windows_if_list()].  The [KeyError] that the source catches here
    cannot be raised: the dictionary has every key [update] reads. *)
Definition register_adapter (i : IfData) : M unit :=
  interface <- new_NetworkInterface (Some i) ;;
  o <- getobj interface ;;
  match guid o with
  | Some g =>
      modify (fun w => set_IFACES (dict_set String.eqb g interface (IFACES w)) w)
  | None => raise NoneAttribute
  end.

(** The dictionary [dummy_data] that [load] builds for an item of
    [conf.cache_iflist]. *)
Definition dummy_data (nm g : string) (ips : list string) : IfData :=
  {| d_netid := None;
     d_name := nm;
     d_description := ("[Unknown] " ++ nm)%string;
     d_win_index := -1;
     d_guid := g;
     d_invalid := Some false;
     d_mac := "00:00:00:00:00:00";
     d_ipv4_metric := 0;
     d_ipv6_metric := 0;
     d_ips := ips |}.

(** The body of the last loop of [load], for one item of
    [conf.cache_iflist]: an interface that the registry does not know is
    made up from the cache. *)
Definition register_cached (entry : string * (string * list string))
  : M unit :=
  let '(nm, (g, ips)) := entry in
  let g := cache_guid g in
  d <- gets IFACES ;;
  if negb (dict_mem String.eqb g d) then
    iface <- new_NetworkInterface (Some (dummy_data nm g ips)) ;;
    modify (fun w => set_IFACES (dict_set String.eqb g iface (IFACES w)) w)
  else ret tt.

(** The last loop of [load]. *)
Definition load_cache_iflist : M unit :=
  c <- gets conf ;;
  for_each register_cached (cache_iflist c).

(** The body of [NetworkInterfaceDict.load], [recur] standing for the call
    [self.load()] it contains. *)
Definition load_body (recur : M unit) : M unit :=
  c <- gets conf ;;
  if negb (prog_os_access c) then ret tt
  else
    l <- get_windows_if_list false ;;
    for_each register_adapter l ;;
    d <- gets IFACES ;;
    let warn_and_finish (could_not_start : bool) :=
      log (Warn_no_match could_not_start) ;; load_cache_iflist in
    if dict_is_empty d && use_winpcapy c then
      _detect <- pcap_service_status ;;
      r <- gets restarted_adapter ;;
      if negb _detect
         && negb (match r with Some true => true | _ => false end)
      then
        log Warn_pcap_service_not_running ;;
        go <- (if negb (interactive c) then ret true else _ask_user) ;;
        if go then
          succeed <- pcap_service_start (interactive c) ;;
          modify (set_restarted_adapter (Some true)) ;;
          if succeed then log Info_pcap_service_started ;; recur
          else warn_and_finish true
        else warn_and_finish true
      else warn_and_finish false
    else
      try_except
        (lo <- dev_from_name (LOOPBACK_NAME c) ;;
         modify (set_LOOPBACK_INTERFACE (Some lo)))
        ValueError (fun _ => ret tt) ;;
      load_cache_iflist.

(** [NetworkInterfaceDict.load].  The call [self.load()] of the body is made
    once [restarted_adapter] is set, and a [load] that starts with it set
    does not reach that call again ([load_unfold] below): two copies of the
    body make the whole recursion. *)
Definition load : M unit := load_body (load_body (ret tt)).

(** The argument of [pcapname]: a [NetworkInterface] or a name. *)
Inductive iface_or_name : Type :=
| IsInterface (iface : loc)
| IsName (nm : string).

(** [pcapname] *)
Definition pcapname (dev : iface_or_name) : M (option string) :=
  match dev with
  | IsInterface iface =>
      inv <- is_invalid iface ;;
      if inv then ret None
      else o <- getobj iface ;; ret (pcap_name o)
  | IsName nm =>
      c <- gets conf ;;
      try_except
        (iface <- dev_from_name nm ;;
         o <- getobj iface ;;
         ret (pcap_name o))
        ValueError
        (fun e => if use_pcap c then ret None else raise e)
  end.

(** *** Route Table Builder *)

(** An entry of the IPv4 table,
    [(dest, netmask, nexthop, iface, ip, metric)], or of the IPv6 table,
    [(dpref, dp, nh, iface, cset, metric)]. *)
Inductive Route : Type :=
| Route4 (dest netmask : Z) (nexthop : string) (iface : loc)
    (src : option string) (metric : Z)
| Route6 (dpref : string) (dp : Z) (nh : string) (iface : loc)
    (cset : list string) (metric : Z).

Definition route_iface (r : Route) : loc :=
  match r with
  | Route4 _ _ _ iface _ _ => iface
  | Route6 _ _ _ iface _ _ => iface
  end.

Definition route_metric (r : Route) : Z :=
  match r with
  | Route4 _ _ _ _ _ metric => metric
  | Route6 _ _ _ _ _ metric => metric
  end.

(** [for x in l: ...] around a local variable that the loop body updates. *)
Fixpoint for_fold {A S : Type} (body : S -> A -> M S) (l : list A) (s : S)
  : M S :=
  match l with
  | [] => ret s
  | x :: l' => s' <- body s x ;; for_fold body l' s'
  end.

Definition byte_of_Z (z : Z) : byte :=
  match Byte.of_N (Z.to_N (z mod 256)) with
  | Some b => b
  | None => x00
  end.

(** [struct.pack("<I", obj)] for [obj] a 32-bit unsigned value. *)
Definition pack_le32 (obj : Z) : list byte :=
  [byte_of_Z obj; byte_of_Z (obj / 256); byte_of_Z (obj / 65536);
   byte_of_Z (obj / 16777216)].

(** [_read_routes_c_v1._extract_ip] *)
Definition _extract_ip (obj : Z) : string := inet_ntop AF_INET (pack_le32 obj).

(** The interface a row belongs to, as both builders look it up:
    [None] stands for [continue]. *)
Definition owning_interface (ifIndex : Z) : M (option loc) :=
  try_except
    (iface <- dev_from_index ifIndex ;;
     o <- getobj iface ;;
     if opt_eqb (ip o) "0.0.0.0" then ret None else ret (Some iface))
    ValueError
    (fun _ => ret None).

(** [metric + iface.ipv4_metric], [metric + getattr(iface, metric_name)] *)
Definition add_metric (metric : Z) (if_metric : option Z) : M Z :=
  match if_metric with
  | Some m => ret (metric + m)
  | None => raise NoneOperand
  end.

(** [_read_routes_c_v1] *)
Definition _read_routes_c_v1 : M (list Route) :=
  rows <- (fun w => (GetIpForwardTable (os w), w)) ;;
  for_fold
    (fun routes route =>
       let ifIndex := ForwardIfIndex route in
       let dest := ForwardDest route in
       let netmask := ForwardMask route in
       let nexthop := _extract_ip (ForwardNextHop route) in
       let metric := ForwardMetric1 route in
       found <- owning_interface ifIndex ;;
       match found with
       | None => ret routes
       | Some iface =>
           o <- getobj iface ;;
           metric <- add_metric metric (ipv4_metric o) ;;
           ret (routes ++ [Route4 dest netmask nexthop iface (ip o) metric])%list
       end)
    rows [].

(** [ip.rstrip(b"\x00")] *)
Fixpoint rstrip_zero (l : list byte) : list byte :=
  match l with
  | [] => []
  | b :: l' =>
      match rstrip_zero l' with
      | [] => if Byte.eqb b x00 then [] else [b]
      | r => b :: r
      end
  end.

(** [_read_routes_c._extract_ip_netmask] *)
Definition _extract_ip_netmask (ipv6 : bool) (ip : list byte) : string * Z :=
  let af := if ipv6 then AF_INET6 else AF_INET in
  let ip_len := if ipv6 then 16 else 4 in
  let netmask :=
    (ip_len
     - (Z.of_nat (List.length ip) - Z.of_nat (List.length (rstrip_zero ip))))
    * 8 in
  (inet_ntop af ip, netmask).

(** [get_ips]: the addresses of every interface of the registry, those with
    a colon when [v6] and those without otherwise. *)
Definition get_ips (v6 : bool) : M (list (loc * list string)) :=
  d <- gets IFACES ;;
  for_fold
    (fun res iface =>
       o <- getobj iface ;;
       match ips o with
       | None => raise NoneOperand
       | Some l =>
           let ips :=
             filter (fun ip => if v6 then Py.contains ":" ip
                               else negb (Py.contains ":" ip)) l in
           ret (dict_set Nat.eqb iface ips res)
       end)
    (itervalues d) [].

(** [in6_getifaddr] *)
Definition in6_getifaddr : M (list (string * Z * loc)) :=
  c <- gets conf ;;
  ip6s <- get_ips true ;;
  let ifaddrs :=
    flat_map
      (fun entry =>
         let '(iface, ips) := entry in
         map (fun ip => (ip, in6_getscope ip, iface)) ips)
      ip6s in
  lo <- gets LOOPBACK_INTERFACE ;;
  match lo with
  | Some lo => if use_npcap c then ret (ifaddrs ++ [("::1", 0, lo)])%list
               else ret ifaddrs
  | None => ret ifaddrs
  end.

(** [_append_route6]; the list it appends to is returned. *)
Definition _append_route6 (routes : list Route) (dpref : string) (dp : Z)
    (nh : string) (iface : loc) (lifaddr : list (string * Z * loc))
    (metric : Z) : M (list Route) :=
  c <- gets conf ;;
  o <- getobj iface ;;
  if opt_eqb (name o) (LOOPBACK_NAME c) then
    if String.eqb dpref "::" then ret routes
    else
      let cset := ["::1"] in
      ret (routes ++ [Route6 dpref dp nh iface cset metric])%list
  else
    let devaddrs := filter (fun x => Nat.eqb (snd x) iface) lifaddr in
    let cset := construct_source_candidate_set dpref dp devaddrs in
    match cset with
    | [] => ret routes
    | _ :: _ => ret (routes ++ [Route6 dpref dp nh iface cset metric])%list
    end.

(** [_read_routes_c] *)
Definition _read_routes_c (ipv6 : bool) : M (list Route) :=
  let af := if ipv6 then AF_INET6 else AF_INET in
  lifaddr <- (if ipv6 then in6_getifaddr else ret []) ;;
  rows <- (fun w => (GetIpForwardTable2 (os w) af, w)) ;;
  for_fold
    (fun routes route =>
       let ifIndex := InterfaceIndex route in
       let '(dest, netmask) :=
         _extract_ip_netmask ipv6 (DestinationPrefix_Prefix route) in
       let '(nexthop, _) := _extract_ip_netmask ipv6 (NextHop route) in
       let metric := Metric route in
       found <- owning_interface ifIndex ;;
       match found with
       | None => ret routes
       | Some iface =>
           o <- getobj iface ;;
           metric <- add_metric metric
                       (if ipv6 then ipv6_metric o else ipv4_metric o) ;;
           if ipv6 then
             _append_route6 routes dest netmask nexthop iface lifaddr metric
           else
             ret (routes
                  ++ [Route4 (atol dest) (itom netmask) nexthop iface (ip o)
                        metric])%list
       end)
    rows [].

(** [read_routes] *)
Definition read_routes : M (list Route) :=
  c <- gets conf ;;
  r <- try_except_Exception
         (routes <- (if WINDOWS_XP c then _read_routes_c_v1
                     else _read_routes_c false) ;;
          ret (Some routes))
         (fun e => log (Warn_error_building false e) ;; ret None) ;;
  match r with
  | None => ret []
  | Some routes =>
      match routes with
      | [] => log Warn_no_default_ipv4_routes
      | _ :: _ => ret tt
      end ;;
      ret routes
  end.

(** [read_routes6] *)
Definition read_routes6 : M (list Route) :=
  c <- gets conf ;;
  if WINDOWS_XP c then ret []
  else
    try_except_Exception
      (_read_routes_c true)
      (fun e => log (Warn_error_building true e) ;; ret []).

End Windows.

(** * The rest of the module

    The functions around the ones above: the other setters of the wireless
    capability layer, the service control, the address helpers, the
    capture-path adapter and the reload of the registry. *)

(** The table [_modus] of [setmodulation]. *)
Definition _modus (i : Z) : option string :=
  match i with
  | 0 => Some "dsss"
  | 1 => Some "fhss"
  | 2 => Some "irbaseband"
  | 3 => Some "ofdm"
  | 4 => Some "hrdss"
  | 5 => Some "erp"
  | 6 => Some "ht"
  | 7 => Some "vht"
  | 8 => Some "ihv"
  | 9 => Some "mimo-ofdm"
  | 10 => Some "mimo-ofdm"
  | _ => None
  end.

(** [NetworkInterface.setchannel], for an integer [channel]. *)
Definition setchannel (self : loc) (channel : Z) : M bool :=
  _check_npcap_requirement self ;;
  _npcap_set self "channel" (Py.str channel).

(** [NetworkInterface.setfrequence], for an integer [freq]. *)
Definition setfrequence (self : loc) (freq : Z) : M bool :=
  _check_npcap_requirement self ;;
  _npcap_set self "freq" (Py.str freq).

(** [NetworkInterface.modulation] *)
Definition modulation (self : loc) : M string :=
  _check_npcap_requirement self ;;
  _npcap_get self "modu".

(** [NetworkInterface.setmodulation]; [str(m)] of a string is the string. *)
Definition setmodulation (self : loc) (modu : int_or_str) : M bool :=
  _check_npcap_requirement self ;;
  let m :=
    match modu with
    | PyInt i => match _modus i with Some s => s | None => "unknown" end
    | PyStr s => s
    end in
  _npcap_set self "modu" m.

(** [pcap_service_stop] *)
Definition pcap_service_stop (askadmin : bool) : M bool :=
  _pcap_service_control "sc stop" askadmin.

(** The [IndexError] of an index into an empty list; no handler of the
    module names its class. *)
Definition IndexError_list_index : exn :=
  External OtherException "list index out of range".

(** [get_ip_from_name]: [get_ips(v6=v6).get(iface, [""])[0]] for the
    interface that [dev_from_name] finds. *)
Definition get_ip_from_name (ifname : string) (v6 : bool) : M string :=
  iface <- dev_from_name ifname ;;
  res <- get_ips v6 ;;
  match dict_get Nat.eqb iface res with
  | Some (ip :: _) => ret ip
  | Some [] => raise IndexError_list_index
  | None => ret EmptyString
  end.

(** [open_pcap(iface, monitor=...)].  The capture subsystem is not part of
    the module: the value is the pair of the device name and of the
    [monitor] option that [_orig_open_pcap] is called with. *)
Definition open_pcap (iface : iface_or_name) (monitor : option bool)
  : M (option string * option bool) :=
  c <- gets conf ;;
  iface_pcap_name <- pcapname iface ;;
  iface <- match iface, iface_pcap_name with
           | IsName nm, Some _ =>
               found <- dev_from_name nm ;; ret (IsInterface found)
           | _, _ => ret iface
           end ;;
  kargs_monitor <-
    match iface with
    | IsInterface self =>
        if use_npcap c then
          monitored <- ismonitor self ;;
          match monitor with
          | None => ret (Some monitored)
          | Some kw_monitor =>
              if negb (Bool.eqb kw_monitor monitored)
              then setmonitor self kw_monitor ;; ret monitor
              else ret monitor
          end
        else ret monitor
    | IsName _ => ret monitor
    end ;;
  ret (iface_pcap_name, kargs_monitor).

(** [x[1]] of a route. *)
Definition route_netmask (r : Route) : Z :=
  match r with
  | Route4 _ netmask _ _ _ _ => netmask
  | Route6 _ dp _ _ _ _ => dp
  end.

(** [min(l, key=lambda x: x[1])] for a list that starts with [r]: the first
    of the routes with the smallest [x[1]]. *)
Fixpoint min_by_netmask (r : Route) (l : list Route) : Route :=
  match l with
  | [] => r
  | x :: l' =>
      if route_netmask x <? route_netmask r then min_by_netmask x l'
      else min_by_netmask r l'
  end.

(** [get_working_if], given [conf.route.routes]; [min] of an empty list
    raises the [ValueError] that the source catches. *)
Definition get_working_if (routes : list Route) : M (option loc) :=
  match routes with
  | [] => gets LOOPBACK_INTERFACE
  | r :: l => ret (Some (route_iface (min_by_netmask r l)))
  end.

Section WindowsRest.

Context `{Imports}.

(** What [get_if_raw_hwaddr] imports: the constant [scapy.data.ARPHDR_ETHER]
    and [scapy.utils.mac2str], the bytes that an address names, or the
    exception that it raises on a value that is no address. *)
Variable ARPHDR_ETHER : Z.
Variable mac2str : option string -> result (list byte).

(** [get_if_raw_hwaddr] *)
Definition get_if_raw_hwaddr (iface : iface_or_name) : M (Z * list byte) :=
  pn <- pcapname iface ;;
  found <- dev_from_pcapname pn ;;
  o <- getobj found ;;
  match mac2str (mac o) with
  | Ret addr => ret (ARPHDR_ETHER, addr)
  | Raise e => raise e
  end.

(** [NetworkInterfaceDict.reload].  [load_winpcapy()] makes the capture
    subsystem list its devices again; [get_if_list] of the world is that
    list. *)
Definition reload : M unit :=
  modify (set_restarted_adapter (Some false)) ;;
  modify (set_IFACES []) ;;
  load.

End WindowsRest.

(** * Vocabulary of the properties *)

(** [returns m w Q]: run in [w], [m] returns a value and leaves a world
    that satisfy [Q]. *)
Definition returns {A : Type} (m : M A) (w : World)
    (Q : A -> World -> Prop) : Prop :=
  exists a w', m w = (Ret a, w') /\ Q a w'.

(** The parts of the world outside the object store. *)
Definition outside_heap (w : World) :=
  (conf w, os w, stdin w, IFACES w, restarted_adapter w,
   LOOPBACK_INTERFACE w, executed w, logged w).

(** From [w] to [w'] nothing changed but the object at [self]. *)
Definition frame (self : loc) (w w' : World) : Prop :=
  outside_heap w' = outside_heap w
  /\ next_loc w' = next_loc w
  /\ forall l, l <> self -> heap w' l = heap w l.

(** The first address without a colon. *)
Definition first_ipv4 (l : list string) : option string :=
  find (fun x => negb (Py.contains ":" x)) l.

(** The object that [_update_pcapdata] leaves, given the device names of
    the capture subsystem. *)
Definition pcapdata (devs : list string) (o : NetworkInterface)
  : NetworkInterface :=
  if invalid o then o
  else
    match guid o with
    | Some g =>
        match find (fun i => Py.endswith i g) devs with
        | Some i => set_pcap_name (Some i) o
        | None => set_invalid true o
        end
    | None => set_invalid true o
    end.

(** The object that [update] leaves ([update_returns] below). *)
Definition updated (c : Conf) (devs : list string) (d : IfData)
    (o : NetworkInterface) : NetworkInterface :=
  let o1 := pcapdata devs (assign_from_data c d o) in
  if opt_eqb (name o1) (LOOPBACK_NAME c) && use_npcap c then
    set_ip (Some "127.0.0.1") (set_mac (Some "00:00:00:00:00:00") o1)
  else
    let o2 := match first_ipv4 (d_ips d) with
              | Some x => set_ip (Some x) o1
              | None => o1
              end in
    if negb (truthy (ip o2)) && opt_eqb (name o2) (LOOPBACK_NAME c)
    then set_ip (Some "127.0.0.1") o2
    else o2.

(** What [_check_npcap_requirement] finds out about the interface at [self]
    when Npcap is in use. *)
Definition dot11_capable (w : World) (self : loc) : bool :=
  match raw80211 (heap w self) with
  | Some b => b
  | None =>
      match Dot11Adapters (os w), guid (heap w self) with
      | Some a, Some g => Py.contains (Py.lower g) (Py.lower a)
      | _, _ => false
      end
  end.

(** What [_exec_cmd command] returns in [w]. *)
Definition exec_output (w : World) (command : string) : string :=
  let '(returncode, res) := Popen (os w) (List.length (executed w)) command in
  if negb (returncode =? 0) then "error" else res.

(** A computation that leaves the world as it is, whatever its outcome. *)
Definition readonly {A : Type} (m : M A) : Prop := forall w, snd (m w) = w.

(** The rows of the forwarding tables that the builders read; none when
    the table cannot be read. *)
Definition forward_rows_v1 (w : World) : list ForwardRow :=
  match GetIpForwardTable (os w) with
  | Ret rows => rows
  | Raise _ => []
  end.

Definition forward_rows (w : World) (af : family) : list ForwardRow2 :=
  match GetIpForwardTable2 (os w) af with
  | Ret rows => rows
  | Raise _ => []
  end.

(** [routes] is made of [rows] in their order: every route comes from a row
    of its own, as [of_row] says, and the other rows are skipped. *)
Inductive table_of {Row : Type} (of_row : Row -> Route -> Prop)
  : list Row -> list Route -> Prop :=
| table_end : table_of of_row [] []
| table_skip (row : Row) (rows : list Row) (routes : list Route) :
    table_of of_row rows routes -> table_of of_row (row :: rows) routes
| table_keep (row : Row) (rows : list Row) (r : Route)
    (routes : list Route) :
    of_row row r -> table_of of_row rows routes ->
    table_of of_row (row :: rows) (r :: routes).

(** The metric of an interface for a family. *)
Definition family_metric (ipv6 : bool) (o : NetworkInterface) : option Z :=
  if ipv6 then ipv6_metric o else ipv4_metric o.

(** The test of [_append_route6] for the loopback interface. *)
Definition is_loopback (w : World) (iface : loc) : bool :=
  opt_eqb (name (heap w iface)) (LOOPBACK_NAME (conf w)).

(** The registry of [w] holds, under the identifier [gk], the interface that
    [load] makes up for the cache entry named [nm]. *)
Definition synthesized (w : World) (gk nm : string) (iface : loc) : Prop :=
  dict_get String.eqb gk (IFACES w) = Some iface
  /\ (iface < next_loc w)%nat
  /\ name (heap w iface) = Some nm
  /\ description (heap w iface) = Some ("[Unknown] " ++ nm)%string
  /\ win_index (heap w iface) = Some (-1)
  /\ guid (heap w iface) = Some gk.

(** The identifiers of the adapters that the operating system enumerates. *)
Definition enumerated (w : World) : list string :=
  match GetAdaptersAddresses (os w) with
  | Ret l => map adapter_name l
  | Raise _ => []
  end.

(** From [w] to [w0] the configuration and the operating system are the
    same, and the registry got no other keys than identifiers of enumerated
    adapters. *)
Definition reg_below (w w0 : World) : Prop :=
  conf w0 = conf w
  /\ os w0 = os w
  /\ forall k, dict_mem String.eqb k (IFACES w0) = true ->
               dict_mem String.eqb k (IFACES w) = true \/ In k (enumerated w).

(** What leaves the configuration, the operating system, the registry and
    the restart flag as they are. *)
Definition same_registry (w w1 : World) : Prop :=
  conf w1 = conf w /\ os w1 = os w /\ IFACES w1 = IFACES w
  /\ restarted_adapter w1 = restarted_adapter w.

Section Vocabulary.

Context `{Imports}.

(** The candidate source addresses of an entry of the IPv6 table. *)
Definition route6_sources (w : World) (lifaddr : list (string * Z * loc))
    (r : Route) : Prop :=
  match r with
  | Route4 _ _ _ _ _ _ => False
  | Route6 dpref dp nh iface cset metric =>
      if is_loopback w iface then dpref <> "::" /\ cset = ["::1"]
      else
        cset = construct_source_candidate_set dpref dp
                 (filter (fun x => Nat.eqb (snd x) iface) lifaddr)
        /\ cset <> []
  end.

(** Route [r] is made of [row], a row of [GetIpForwardTable]: destination,
    netmask and next hop are those of the row, the interface is the one
    that the index of the row resolves to, the source is the address of this
    interface, and the metric is the raw metric of the row plus the IPv4
    metric of this interface. *)
Definition route_of_row_v1 (w : World) (row : ForwardRow) (r : Route)
  : Prop :=
  exists iface m,
    dev_from_index (ForwardIfIndex row) w = (Ret iface, w)
    /\ ipv4_metric (heap w iface) = Some m
    /\ r = Route4 (ForwardDest row) (ForwardMask row)
             (_extract_ip (ForwardNextHop row)) iface (ip (heap w iface))
             (ForwardMetric1 row + m).

(** The same for a row of [GetIpForwardTable2] and the family of the table:
    the metric is the raw metric of the row plus the metric that the
    interface has for the family. *)
Definition route_of_row (w : World) (ipv6 : bool) (row : ForwardRow2)
    (r : Route) : Prop :=
  let dest := fst (_extract_ip_netmask ipv6 (DestinationPrefix_Prefix row)) in
  let netmask :=
    snd (_extract_ip_netmask ipv6 (DestinationPrefix_Prefix row)) in
  let nexthop := fst (_extract_ip_netmask ipv6 (NextHop row)) in
  exists iface m,
    dev_from_index (InterfaceIndex row) w = (Ret iface, w)
    /\ family_metric ipv6 (heap w iface) = Some m
    /\ if ipv6 then
         exists cset,
           r = Route6 dest netmask nexthop iface cset (Metric row + m)
       else
         r = Route4 (atol dest) (itom netmask) nexthop iface
               (ip (heap w iface)) (Metric row + m).

(** The builder [read_routes] calls. *)
Definition ipv4_builder (w : World) : M (list Route) :=
  if WINDOWS_XP (conf w) then _read_routes_c_v1 else _read_routes_c false.

End Vocabulary.

(** ** Vocabulary for the rest of the module *)

(** What [m] leaves of the world, seen through [f], is what it found. *)
Definition keeps {T A : Type} (f : World -> T) (m : M A) : Prop :=
  forall w, f (snd (m w)) = f w.




(** [m] raises [e], and has run no command and logged nothing. *)
Definition refused {A : Type} (m : M A) (w : World) (e : exn) : Prop :=
  exists w1,
    m w = (Raise e, w1) /\ executed w1 = executed w /\ logged w1 = logged w.


(** Every operation of the wireless layer that asks for the raw 802.11
    capability is refused with [e]. *)
Definition wireless_refused (self : loc) (w : World) (e : exn) : Prop :=
  refused (mode self) w e
  /\ refused (modulation self) w e
  /\ (forall m, refused (setmode self m) w e)
  /\ (forall channel, refused (setchannel self channel) w e)
  /\ (forall freq, refused (setfrequence self freq) w e)
  /\ (forall modu, refused (setmodulation self modu) w e)
  /\ (forall enable, refused (setmonitor self enable) w e).

(** What [get_if_raw_hwaddr] makes of interface [o]: the link type with the
    bytes of its MAC, or the exception of [mac2str]. *)
Definition hwaddr_of (ARPHDR_ETHER : Z)
    (mac2str : option string -> result (list byte)) (o : NetworkInterface)
  : result (Z * list byte) :=
  match mac2str (mac o) with
  | Ret addr => Ret (ARPHDR_ETHER, addr)
  | Raise e => Raise e
  end.

(** The command of [_pcap_service_control]. *)
Definition service_command (c : Conf) (action : string) (askadmin : bool)
  : string :=
  let command := (action ++ " " ++ pcap_service_name c)%string in
  if askadmin then _encapsulate_admin command else command.

(** [control] runs the service command for [action] and nothing else; it
    returns whether the command exits with code 0 and does not print
    [error], in any case of the letters. *)
Definition controls_service (control : M bool) (w : World) (action : string)
    (askadmin : bool) : Prop :=
  let run := service_command (conf w) action askadmin in
  let '(returncode, stdout) := Popen (os w) (List.length (executed w)) run in
  control w
  = (Ret ((returncode =? 0) && negb (Py.contains "error" (Py.lower stdout))),
     set_executed (executed w ++ [run]) w).

(** The interface of route [r] is one [dev_from_index] can return, its
    primary address is not 0.0.0.0, and an entry of the IPv4 table has that
    address as its source. *)
Definition route_of_interface (w : World) (r : Route) : Prop :=
  (In (route_iface r) (itervalues (IFACES w))
   \/ LOOPBACK_INTERFACE w = Some (route_iface r))
  /\ ip (heap w (route_iface r)) <> Some "0.0.0.0"
  /\ match r with
     | Route4 _ _ _ iface src _ => src = ip (heap w iface)
     | Route6 _ _ _ _ _ _ => True
     end.

(** The addresses [get_ips] keeps for a family. *)
Definition of_family (v6 : bool) (l : list string) : list string :=
  filter (fun ip => if v6 then Py.contains ":" ip
                    else negb (Py.contains ":" ip)) l.

(** From [w] to [w'] the configuration, the operating system, the object
    store and the registry are the same. *)
Definition same_store (w w' : World) : Prop :=
  conf w' = conf w /\ os w' = os w /\ heap w' = heap w
  /\ next_loc w' = next_loc w /\ IFACES w' = IFACES w.

(** A property of the world that only looks at what [same_store] keeps. *)
Definition store_property (I : World -> Prop) : Prop :=
  forall w w', I w -> same_store w w' -> I w'.

(** Started where [Pre] holds, [m] ends where [Post] holds, whatever its
    outcome. *)
Definition leads {A : Type} (Pre : World -> Prop) (m : M A)
    (Post : World -> Prop) : Prop :=
  forall w r w', Pre w -> m w = (r, w') -> Post w'.

(** [m] keeps [J] and raises nothing but exceptions in [P]. *)
Definition raises_only {A : Type} (P : exn -> Prop) (J : World -> Prop)
    (m : M A) : Prop :=
  forall w r w',
    J w -> m w = (r, w') ->
    J w' /\ match r with
            | Raise e => P e
            | Ret _ => True
            end.

(** The keys of the registry are the identifiers of its interfaces, which
    are objects of the store. *)
Definition keyed_by_guid (w : World) : Prop :=
  forall k l,
    dict_get String.eqb k (IFACES w) = Some l ->
    (l < next_loc w)%nat /\ guid (heap w l) = Some k.

(** The identifiers under which [load] can register an interface: those of
    the enumerated adapters and the normalised ones of the cache. *)
Definition loadable (w : World) (k : string) : Prop :=
  In k (enumerated w)
  \/ In k (map (fun e => cache_guid (fst (snd e))) (cache_iflist (conf w))).

(** The interface [o] has the identity that the operating system reports
    for an adapter whose identifier is [k]. *)
Definition from_adapter (w : World) (k : string) (o : NetworkInterface)
  : Prop :=
  exists adapters x,
    GetAdaptersAddresses (os w) = Ret adapters
    /\ In x adapters
    /\ adapter_name x = k
    /\ name o = Some (friendly_name x)
    /\ description o = Some (raw_description x)
    /\ win_index o = Some (interface_index x)
    /\ guid o = Some k.



(** [m] asks the helper for [key] and runs no other command, logs nothing,
    and returns what the helper printed, stripped. *)
Definition asks_helper (m : M string) (w : World) (g key : string) : Prop :=
  let cmd := Py.join " " [_WlanHelper (conf w); Py.slice_1_m1 g; key] in
  exists w1,
    m w = (Ret (Py.strip (exec_output w cmd)), w1)
    /\ executed w1 = (executed w ++ [cmd])%list
    /\ logged w1 = logged w.

(** What [load] leaves alone when it has an interface to register. *)
Definition quiet (w w' : World) : Prop :=
  conf w' = conf w /\ executed w' = executed w /\ stdin w' = stdin w
  /\ logged w' = logged w /\ restarted_adapter w' = restarted_adapter w.

(** * A sample host

    One Windows host with a wireless adapter and the Npcap loopback adapter,
    and the variations of it that the properties are tried on. *)

(** Stand-ins for the imported helpers: dotted decimal for IPv4 addresses,
    [::] or the bytes in hexadecimal for IPv6 addresses, every address of the
    interface as candidate source.  The sample IPv4 table only has the
    default route, whose destination is the integer 0. *)
Definition sample_inet_ntop (af : family) (b : list byte) : string :=
  match af with
  | AF_INET => Py.join "." (map (fun x => Py.str (Z.of_N (Byte.to_N x))) b)
  | AF_INET6 => if forallb (Byte.eqb x00) b then "::" else str2mac b
  end.

Definition sample_imports : Imports :=
  {| inet_ntop := sample_inet_ntop;
     atol := fun _ => 0;
     itom := fun x => Z.shiftl (2 ^ x - 1) (32 - x);
     in6_getscope := fun _ => 0;
     construct_source_candidate_set :=
       fun _ _ devaddrs => map (fun x => fst (fst x)) devaddrs |}.

Definition host_conf (npcap access : bool)
    (cache : list (string * (string * list string))) : Conf :=
  {| use_npcap := npcap;
     use_pcap := false;
     use_winpcapy := true;
     interactive := false;
     prog_os_access := access;
     prog_powershell := Some "C:\Windows\System32\WindowsPowerShell\v1.0\powershell.exe";
     cache_iflist := cache;
     WINDOWS_XP := false;
     PY2 := true;
     LOOPBACK_NAME := if npcap then "Npcap Loopback Adapter"
                      else "Microsoft KM-TEST Loopback Adapter";
     NPCAP_PATH := "C:\Windows\System32\Npcap" |}.

Definition sample_cache : list (string * (string * list string)) :=
  [("nt0", ("\Device\NPF_{c0ffee00-0000-4000-8000-00000000beef}", ["10.9.9.9"]))].

Definition wifi_adapter : RawAdapter :=
  {| friendly_name := "Wi-Fi";
     interface_index := 5;
     raw_description := "Intel(R) Dual Band Wireless-AC 8265";
     adapter_name := "{6A1B2C3D-0000-4000-8000-0000000000A1}";
     physical_address_length := 6;
     physical_address := [x00; x1a; x2b; x3c; x4d; x5e; x00; x00];
     raw_ipv4_metric := 10;
     raw_ipv6_metric := 20;
     first_unicast_address :=
       Some [ {| si_family := AF_INET6;
                 Ipv4_sin_addr := [];
                 Ipv6_sin6_addr := [xfe; x80; x00; x00; x00; x00; x00; x00;
                                    x00; x00; x00; x00; x00; x00; x00; x01] |};
              {| si_family := AF_INET;
                 Ipv4_sin_addr := [xc0; xa8; x01; x32];
                 Ipv6_sin6_addr := [] |} ];
     first_anycast_address := None;
     first_multicast_address := None |}.

Definition loopback_adapter : RawAdapter :=
  {| friendly_name := "Npcap Loopback Adapter";
     interface_index := 1;
     raw_description := "Npcap Loopback Adapter";
     adapter_name := "{7E5F0000-0000-4000-8000-0000000000B2}";
     physical_address_length := 6;
     physical_address := [x02; x00; x4c; x4f; x4f; x50; x00; x00];
     raw_ipv4_metric := 75;
     raw_ipv6_metric := 75;
     first_unicast_address := Some [];
     first_anycast_address := None;
     first_multicast_address := None |}.

Definition sample_rows (af : family) : list ForwardRow2 :=
  match af with
  | AF_INET =>
      [ {| InterfaceIndex := 5;
           DestinationPrefix_Prefix := [x00; x00; x00; x00];
           NextHop := [xc0; xa8; x01; x01];
           Metric := 256 |};
        {| InterfaceIndex := 99;
           DestinationPrefix_Prefix := [x0a; x00; x00; x00];
           NextHop := [x00; x00; x00; x00];
           Metric := 5 |} ]
  | AF_INET6 =>
      [ {| InterfaceIndex := 5;
           DestinationPrefix_Prefix := [xfe; x80; x00; x00; x00; x00; x00; x00;
                                        x00; x00; x00; x00; x00; x00; x00; x00];
           NextHop := [x00; x00; x00; x00; x00; x00; x00; x00;
                       x00; x00; x00; x00; x00; x00; x00; x00];
           Metric := 256 |};
        {| InterfaceIndex := 1;
           DestinationPrefix_Prefix := [x00; x00; x00; x00; x00; x00; x00; x00;
                                        x00; x00; x00; x00; x00; x00; x00; x00];
           NextHop := [x00; x00; x00; x00; x00; x00; x00; x00;
                       x00; x00; x00; x00; x00; x00; x00; x00];
           Metric := 331 |};
        {| InterfaceIndex := 1;
           DestinationPrefix_Prefix := [x00; x00; x00; x00; x00; x00; x00; x00;
                                        x00; x00; x00; x00; x00; x00; x00; x01];
           NextHop := [x00; x00; x00; x00; x00; x00; x00; x00;
                       x00; x00; x00; x00; x00; x00; x00; x00];
           Metric := 331 |} ]
  end.

(** [helper_exit] is the exit code of every command; a query of the mode
    prints [monitor] and a line end, the other commands print nothing.  With
    [tables_up] false the forwarding tables cannot be read. *)
Definition host_os (adapters : list RawAdapter) (helper_exit : Z)
    (tables_up : bool) : OS :=
  {| GetAdaptersAddresses := Ret adapters;
     get_if_list := ["\Device\NPF_{6A1B2C3D-0000-4000-8000-0000000000A1}";
                     "\Device\NPF_{7E5F0000-0000-4000-8000-0000000000B2}"];
     Dot11Adapters := Some "\Device\{6a1b2c3d-0000-4000-8000-0000000000a1}";
     GetIpForwardTable :=
       if tables_up then
         Ret [ {| ForwardIfIndex := 5; ForwardDest := 0; ForwardMask := 0;
                  ForwardNextHop := 16885952; ForwardMetric1 := 25 |} ]
       else Raise (External OSError "GetIpForwardTable failed");
     GetIpForwardTable2 :=
       fun af => if tables_up then Ret (sample_rows af)
                 else Raise (External OSError "GetIpForwardTable2 failed");
     Popen :=
       fun _ command =>
         (helper_exit,
          if Py.endswith command " mode"
          then String.append "monitor" (String (ascii_of_nat 10) EmptyString)
          else EmptyString) |}.

(** The module before [IFACES.load()]. *)
Definition boot (c : Conf) (o : OS) : World :=
  {| conf := c;
     os := o;
     stdin := [];
     heap := fun _ => NetworkInterface_init;
     next_loc := O;
     IFACES := [];
     restarted_adapter := None;
     LOOPBACK_INTERFACE := None;
     executed := [];
     logged := [] |}.

Definition sample_boot : World :=
  boot (host_conf true true sample_cache)
    (host_os [wifi_adapter; loopback_adapter] 0 true).

(** The sample host once [IFACES.load()] has run: the wireless adapter is
    object 0, the loopback adapter object 1 and the interface made up from
    the cache object 2. *)
Definition sample_world : World := snd (@load sample_imports sample_boot).

(** The same host when the helper process fails. *)
Definition failing_helper_world : World :=
  snd (@load sample_imports
         (boot (host_conf true true sample_cache)
            (host_os [wifi_adapter; loopback_adapter] 1 true))).

(** The same host when the forwarding tables cannot be read. *)
Definition no_tables_world : World :=
  snd (@load sample_imports
         (boot (host_conf true true sample_cache)
            (host_os [wifi_adapter; loopback_adapter] 0 false))).

(** A host with WinPcap instead of Npcap. *)
Definition winpcap_boot : World :=
  boot (host_conf false true sample_cache)
    (host_os [wifi_adapter; loopback_adapter] 0 true).

(** A host without powershell and cscript. *)
Definition no_access_boot : World :=
  boot (host_conf true false sample_cache)
    (host_os [wifi_adapter; loopback_adapter] 0 true).

(** A host whose cache names an interface like the wireless adapter. *)
Definition same_name_boot : World :=
  boot (host_conf true true
          [("Wi-Fi", ("\Device\NPF_{c0ffee00-0000-4000-8000-00000000beef}", []))])
    (host_os [wifi_adapter; loopback_adapter] 0 true).

(** What the operating system reports for a loopback adapter named [nm]
    that has an address of its own. *)
Definition loopback_data (nm : string) : IfData :=
  {| d_netid := None;
     d_name := nm;
     d_description := nm;
     d_win_index := 1;
     d_guid := "{7E5F0000-0000-4000-8000-0000000000B2}";
     d_invalid := None;
     d_mac := "02:00:4c:4f:4f:50";
     d_ipv4_metric := 75;
     d_ipv6_metric := 75;
     d_ips := ["169.254.7.7"] |}.

Definition adapter_with_mac (len : Z) (bytes : list byte) : RawAdapter :=
  {| friendly_name := "Ethernet";
     interface_index := 5;
     raw_description := "Intel(R) Ethernet Connection";
     adapter_name := "{4D36E972-E325-11CE-BFC1-08002BE10318}";
     physical_address_length := len;
     physical_address := bytes;
     raw_ipv4_metric := 10;
     raw_ipv6_metric := 20;
     first_unicast_address := None;
     first_anycast_address := None;
     first_multicast_address := None |}.

(** The host with WinPcap once [IFACES.load()] has run. *)
Definition winpcap_world : World := snd (@load sample_imports winpcap_boot).

(** The sample host once the mode of the wireless adapter has been asked
    for: the cache of object 0 holds it. *)
Definition monitoring_world : World := snd (ismonitor 0%nat sample_world).




(** A stand-in for [mac2str] that knows the address of the wireless adapter
    and raises the [ValueError] of [int] on anything else. *)
Definition sample_mac2str (m : option string) : result (list byte) :=
  if opt_eqb m "00:1a:2b:3c:4d:5e"
  then Ret [x00; x1a; x2b; x3c; x4d; x5e]
  else Raise (External ValueError "invalid literal for int() with base 16").

(** The sample host when the adapters cannot be enumerated. *)
Definition no_enumeration_boot : World :=
  boot (host_conf true true sample_cache)
    {| GetAdaptersAddresses :=
         Raise (External OSError "GetAdaptersAddresses failed");
       get_if_list := [];
       Dot11Adapters := None;
       GetIpForwardTable := Ret [];
       GetIpForwardTable2 := fun _ => Ret [];
       Popen := fun _ _ => (0, EmptyString) |}.

(** What the operating system reports for a wired adapter. *)
Definition ethernet_data : IfData :=
  {| d_netid := None;
     d_name := "Ethernet";
     d_description := "Intel(R) Ethernet Connection";
     d_win_index := 7;
     d_guid := "{4D36E972-E325-11CE-BFC1-08002BE10318}";
     d_invalid := None;
     d_mac := "00:1a:2b:3c:4d:6f";
     d_ipv4_metric := 25;
     d_ipv6_metric := 25;
     d_ips := ["fe80::1"; "10.0.0.7"] |}.

(** Two routes of a routing table: a network behind object 1 and the
    default route through object 0. *)
Definition two_routes : list Route :=
  [Route4 167772160 4294967040 "0.0.0.0" 1%nat (Some "10.0.0.7") 281;
   Route4 0 0 "192.168.1.1" 0%nat (Some "192.168.1.50") 266].

(** * Properties *)

(** ** Facts about the built-ins *)

Lemma str_eq_1 (i : Z) : Py.str i = "1" -> i = 1.
Proof.
  unfold Py.str. intros E.
  assert (E2 : NilZero.int_of_string (NilZero.string_of_int (Z.to_int i))
               = Some (Decimal.Pos (Decimal.D1 Decimal.Nil)))
    by (rewrite E; reflexivity).
  rewrite <- (DecimalZ.of_to i).
  destruct (Z.to_int i) as [d | d]; destruct d;
    try (simpl in E2; discriminate);
    rewrite NilZero.isi in E2 by discriminate;
    injection E2 as E2; try discriminate; rewrite E2; reflexivity.
Qed.

Lemma str_eqb_1 (i : Z) : String.eqb (Py.str i) "1" = (i =? 1).
Proof.
  destruct (String.eqb_spec (Py.str i) "1") as [E | NE].
  - apply str_eq_1 in E. subst. reflexivity.
  - symmetry. apply Z.eqb_neq. intros ->. apply NE. reflexivity.
Qed.

Lemma find_none_iff {A : Type} (p : A -> bool) (l : list A) :
  find p l = None <-> (forall x, In x l -> p x = false).
Proof.
  split.
  - intros E x Hx. exact (find_none p l E x Hx).
  - induction l as [| a l IH]; intros Hall; simpl.
    + reflexivity.
    + rewrite (Hall a (or_introl eq_refl)). apply IH.
      intros x Hx. apply Hall. right. exact Hx.
Qed.

Lemma find_exists {A : Type} (p : A -> bool) (l : list A) (x : A) :
  In x l -> p x = true -> exists y, find p l = Some y.
Proof.
  intros Hx Hp. destruct (find p l) as [y |] eqn:E.
  - exists y. reflexivity.
  - rewrite (find_none p l E x Hx) in Hp. discriminate.
Qed.

Lemma opt_eqb_true (a : option string) (b : string) :
  opt_eqb a b = true <-> a = Some b.
Proof.
  destruct a as [s |]; simpl.
  - rewrite String.eqb_eq. split; [intros -> | intros [= ->]]; reflexivity.
  - split; discriminate.
Qed.

Lemma opt_Z_eqb_true (a : option Z) (b : Z) :
  opt_Z_eqb a b = true <-> a = Some b.
Proof.
  destruct a as [x |]; simpl.
  - rewrite Z.eqb_eq. split; [intros -> | intros [= ->]]; reflexivity.
  - split; discriminate.
Qed.

(** ** Adapter Record Normalizer *)

Lemma str2mac_6 (b0 b1 b2 b3 b4 b5 : byte) :
  str2mac [b0; b1; b2; b3; b4; b5]
  = (hex2 b0 ++ ":" ++ hex2 b1 ++ ":" ++ hex2 b2 ++ ":" ++ hex2 b3 ++ ":"
     ++ hex2 b4 ++ ":" ++ hex2 b5)%string.
Proof. reflexivity. Qed.

(** C8.  A raw adapter record whose physical-address length is not 6 gets the
    empty string as its MAC; when the length is 6 the MAC is the colon-hex
    string of the first six address bytes: two lower-case hexadecimal digits
    for each byte, joined by colons. *)
Theorem get_mac_by_length (x : RawAdapter) :
  (physical_address_length x <> 6 -> _get_mac x = EmptyString)
  /\ (physical_address_length x = 6 ->
      _get_mac x = str2mac (firstn 6 (physical_address x)))
  /\ (forall b0 b1 b2 b3 b4 b5 rest,
        physical_address_length x = 6 ->
        physical_address x = b0 :: b1 :: b2 :: b3 :: b4 :: b5 :: rest ->
        _get_mac x
        = (hex2 b0 ++ ":" ++ hex2 b1 ++ ":" ++ hex2 b2 ++ ":" ++ hex2 b3
           ++ ":" ++ hex2 b4 ++ ":" ++ hex2 b5)%string).
Proof.
  unfold _get_mac. repeat split.
  - intros NE. apply Z.eqb_neq in NE. rewrite NE. reflexivity.
  - intros E. rewrite E. reflexivity.
  - intros b0 b1 b2 b3 b4 b5 rest E P. rewrite E, P. reflexivity.
Qed.

(** ** Interface Registry *)

Lemma dev_from_index_found (w : World) (i : Z) (iface : loc) :
  Py.next_such (fun l => opt_Z_eqb (win_index (heap w l)) i)
    (itervalues (IFACES w)) = Some iface ->
  dev_from_index i w = (Ret iface, w).
Proof.
  intros E. unfold dev_from_index, bind, gets, ret. simpl. rewrite E.
  reflexivity.
Qed.

Lemma dev_from_index_missing (w : World) (i : Z) :
  (forall iface, In iface (itervalues (IFACES w)) ->
                 win_index (heap w iface) <> Some i) ->
  dev_from_index i w
  = (match LOOPBACK_INTERFACE w with
     | Some lo => if i =? 1 then Ret lo else Raise (UnknownInterfaceIndex i)
     | None => Raise (UnknownInterfaceIndex i)
     end, w).
Proof.
  intros Hno. unfold dev_from_index, bind, gets, ret, raise. simpl.
  assert (E : Py.next_such (fun l => opt_Z_eqb (win_index (heap w l)) i)
                (itervalues (IFACES w)) = None).
  { apply find_none_iff. intros x Hx.
    destruct (opt_Z_eqb (win_index (heap w x)) i) eqn:Eq; [| reflexivity].
    apply opt_Z_eqb_true in Eq. exfalso. exact (Hno x Hx Eq). }
  rewrite E, str_eqb_1.
  destruct (i =? 1); destruct (LOOPBACK_INTERFACE w); reflexivity.
Qed.

(** C7.  Once a loopback interface is registered, [dev_from_index 1] returns
    an interface: an entry of the registry whose index is 1 when there is
    one, the registered loopback interface otherwise.  For any other index
    that no entry has, [dev_from_index] fails with the not-found error. *)
Theorem dev_from_index_loopback_fallback (w : World) (lo : loc) :
  LOOPBACK_INTERFACE w = Some lo ->
  (exists iface, dev_from_index 1 w = (Ret iface, w))
  /\ ((exists e, In e (itervalues (IFACES w))
                 /\ win_index (heap w e) = Some 1) ->
      exists iface,
        dev_from_index 1 w = (Ret iface, w)
        /\ In iface (itervalues (IFACES w))
        /\ win_index (heap w iface) = Some 1)
  /\ ((forall e, In e (itervalues (IFACES w)) ->
                 win_index (heap w e) <> Some 1) ->
      dev_from_index 1 w = (Ret lo, w))
  /\ (forall i,
        i <> 1 ->
        (forall e, In e (itervalues (IFACES w)) ->
                   win_index (heap w e) <> Some i) ->
        dev_from_index i w = (Raise (UnknownInterfaceIndex i), w)).
Proof.
  intros Hlo.
  assert (Hsome : (exists e, In e (itervalues (IFACES w))
                             /\ win_index (heap w e) = Some 1) ->
                  exists iface,
                    dev_from_index 1 w = (Ret iface, w)
                    /\ In iface (itervalues (IFACES w))
                    /\ win_index (heap w iface) = Some 1).
  { intros [e [He Hi]].
    destruct (find_exists (fun l => opt_Z_eqb (win_index (heap w l)) 1)
                (itervalues (IFACES w)) e He) as [iface Hf].
    { apply opt_Z_eqb_true. exact Hi. }
    exists iface. split; [apply dev_from_index_found; exact Hf |].
    apply find_some in Hf. destruct Hf as [Hin Hp].
    split; [exact Hin | apply opt_Z_eqb_true; exact Hp]. }
  assert (Hnone : (forall e, In e (itervalues (IFACES w)) ->
                             win_index (heap w e) <> Some 1) ->
                  dev_from_index 1 w = (Ret lo, w)).
  { intros Hno. rewrite (dev_from_index_missing w 1 Hno), Hlo. reflexivity. }
  split; [| split; [exact Hsome | split; [exact Hnone |]]].
  - destruct (find (fun l => opt_Z_eqb (win_index (heap w l)) 1)
                (itervalues (IFACES w))) as [iface |] eqn:Hf.
    + exists iface. apply dev_from_index_found. exact Hf.
    + exists lo. apply Hnone. intros e He Hi.
      apply opt_Z_eqb_true in Hi.
      rewrite (find_none _ _ Hf e He) in Hi. discriminate.
  - intros i Hi Hno. rewrite (dev_from_index_missing w i Hno).
    apply Z.eqb_neq in Hi. rewrite Hi.
    destruct (LOOPBACK_INTERFACE w); reflexivity.
Qed.

Section Properties.

Context `{Imports}.

Lemma upd_same h l o : upd h l o l = o.
Proof. unfold upd. rewrite Nat.eqb_refl. reflexivity. Qed.

Lemma upd_other h l o l' : l' <> l -> upd h l o l' = h l'.
Proof. unfold upd. intros NE. apply Nat.eqb_neq in NE. rewrite NE. reflexivity. Qed.

(** ** Reasoning about computations that return *)

Lemma bind_run {A B} (m : M A) (k : A -> M B) (w : World) :
  bind m k w
  = match m w with
    | (Ret a, w') => k a w'
    | (Raise e, w') => (Raise e, w')
    end.
Proof. reflexivity. Qed.

Lemma returns_ret {A} (a : A) w Q : Q a w -> returns (ret a) w Q.
Proof. intros HQ. exists a, w. split; [reflexivity | exact HQ]. Qed.

Lemma returns_bind {A B} (m : M A) (k : A -> M B) w Q :
  returns m w (fun a w' => returns (k a) w' Q) -> returns (bind m k) w Q.
Proof.
  intros [a [w1 [E [b [w2 [E2 HQ]]]]]]. exists b, w2.
  split; [| exact HQ]. unfold bind. rewrite E. exact E2.
Qed.

Lemma returns_gets {A} (f : World -> A) w Q : Q (f w) w -> returns (gets f) w Q.
Proof. intros HQ. exists (f w), w. split; [reflexivity | exact HQ]. Qed.

Lemma returns_modify (f : World -> World) w Q :
  Q tt (f w) -> returns (modify f) w Q.
Proof. intros HQ. exists tt, (f w). split; [reflexivity | exact HQ]. Qed.

Lemma returns_weaken {A} (m : M A) w (Q Q' : A -> World -> Prop) :
  returns m w Q -> (forall a w', Q a w' -> Q' a w') -> returns m w Q'.
Proof.
  intros [a [w' [E HQ]]] Himp. exists a, w'. split; [exact E | auto].
Qed.

Lemma returns_try_except {A} (m : M A) c h w Q :
  returns m w Q -> returns (try_except m c h) w Q.
Proof.
  intros [a [w' [E HQ]]]. exists a, w'. split; [| exact HQ].
  unfold try_except. rewrite E. reflexivity.
Qed.

Lemma returns_run {A} (m : M A) (w : World) (a : A) (w1 : World)
    (Q : A -> World -> Prop) :
  m w = (Ret a, w1) -> Q a w1 -> returns m w Q.
Proof. intros E HQ. exists a, w1. split; assumption. Qed.

Ltac wp_step :=
  lazymatch goal with
  | |- returns (bind _ _) _ _ => apply returns_bind
  | |- returns (ret _) _ _ => apply returns_ret
  | |- returns (gets _) _ _ => apply returns_gets
  | |- returns (modify _) _ _ => apply returns_modify
  end.

Ltac wp := repeat (wp_step; cbv beta).

(** ** Updating an interface *)

Lemma frame_refl self w : frame self w w.
Proof. repeat split. Qed.

Lemma update_pcapdata_returns (self : loc) (w : World) (g : string) :
  guid (heap w self) = Some g ->
  returns (_update_pcapdata self) w
    (fun _ w' =>
       heap w' self = pcapdata (get_if_list (os w)) (heap w self)
       /\ frame self w w').
Proof.
  intros Hg. unfold _update_pcapdata, is_invalid, getobj, setobj, pcapdata.
  wp. destruct (invalid (heap w self)) eqn:Hinv.
  - wp. split; [reflexivity | apply frame_refl].
  - wp. rewrite Hg. unfold Py.next_such.
    destruct (get_if_list (os w)) as [| i0 devs] eqn:Hl;
      destruct (find _ _) as [i |]; wp; simpl; rewrite upd_same;
      (split; [reflexivity | repeat split; simpl; intros; apply upd_other; assumption]).
Qed.

Lemma frame_trans self w1 w2 w3 :
  frame self w1 w2 -> frame self w2 w3 -> frame self w1 w3.
Proof.
  intros [A1 [B1 C1]] [A2 [B2 C2]]. repeat split.
  - rewrite A2. exact A1.
  - rewrite B2. exact B1.
  - intros l Hl. rewrite (C2 l Hl). apply C1. exact Hl.
Qed.

Lemma frame_set_heap self w o :
  frame self w (set_heap (upd (heap w) self o) (next_loc w) w).
Proof.
  repeat split. simpl. intros l Hl. apply upd_other. exact Hl.
Qed.

Lemma returns_setobj (self : loc) f w (Q : unit -> World -> Prop) :
  (forall w', heap w' self = f (heap w self) -> frame self w w' -> Q tt w') ->
  returns (setobj self f) w Q.
Proof.
  intros HQ. unfold setobj. apply returns_modify. apply HQ.
  - simpl. apply upd_same.
  - apply frame_set_heap.
Qed.

Lemma pcapdata_fields devs o :
  name (pcapdata devs o) = name o
  /\ ips (pcapdata devs o) = ips o
  /\ mac (pcapdata devs o) = mac o
  /\ ip (pcapdata devs o) = ip o
  /\ description (pcapdata devs o) = description o
  /\ win_index (pcapdata devs o) = win_index o
  /\ guid (pcapdata devs o) = guid o.
Proof.
  unfold pcapdata. destruct (invalid o); [repeat split |].
  destruct (guid o) eqn:Hg; [destruct (find _ devs) |];
    simpl; rewrite ?Hg; repeat split.
Qed.

Lemma update_returns (self : loc) (d : IfData) (w : World) :
  returns (update self d) w
    (fun _ w' =>
       heap w' self
       = updated (conf w) (get_if_list (os w)) d (heap w self)
       /\ frame self w w').
Proof.
  unfold update. wp. apply returns_setobj. intros w0 Ho0 Hf0. wp.
  eapply returns_weaken.
  { eapply update_pcapdata_returns. rewrite Ho0. reflexivity. }
  simpl. intros _ w1 [Ho1 Hf1].
  assert (Hos : get_if_list (os w0) = get_if_list (os w)).
  { destruct Hf0 as [Hout _]. unfold outside_heap in Hout.
    injection Hout as _ Hos _ _ _ _ _ _. rewrite Hos. reflexivity. }
  rewrite Hos, Ho0 in Ho1.
  pose proof (frame_trans _ _ _ _ Hf0 Hf1) as Hf.
  destruct (pcapdata_fields (get_if_list (os w))
              (assign_from_data (conf w) d (heap w self)))
    as [Hn [Hips _]].
  unfold getobj, updated. wp. rewrite Ho1.
  destruct (opt_eqb _ _ && use_npcap (conf w)) eqn:Hnpcap.
  - wp. apply returns_setobj. intros w2 Ho2 Hf2.
    apply returns_setobj. intros w3 Ho3 Hf3.
    rewrite Ho3, Ho2, Ho1. split; [reflexivity |].
    eapply frame_trans; [exact Hf |]. eapply frame_trans; eassumption.
  - wp. rewrite Hips. simpl ips. unfold Py.next_such, first_ipv4.
    destruct (find _ (d_ips d)) as [x |].
    + apply returns_setobj. intros w2 Ho2 Hf2. wp. rewrite Ho2, Ho1.
      destruct (negb _ && _).
      * apply returns_setobj. intros w3 Ho3 Hf3.
        rewrite Ho3, Ho2, Ho1. split; [reflexivity |].
        eapply frame_trans; [exact Hf |]. eapply frame_trans; eassumption.
      * wp. split; [rewrite Ho2, Ho1; reflexivity |].
        eapply frame_trans; eassumption.
    + wp. rewrite Ho1. destruct (negb _ && _).
      * apply returns_setobj. intros w3 Ho3 Hf3.
        rewrite Ho3, Ho1. split; [reflexivity |].
        eapply frame_trans; eassumption.
      * wp. split; [exact Ho1 | exact Hf].
Qed.

(** ** Capture-device names *)

(** C10.  Given an interface whose [invalid] flag is set, [pcapname]
    returns [None] and raises nothing; given a name that [dev_from_name]
    resolves, it returns the capture-device name of the entry found. *)
Theorem pcapname_invalid_or_resolved (w : World) :
  (forall iface,
      invalid (heap w iface) = true ->
      pcapname (IsInterface iface) w = (Ret None, w))
  /\ (forall nm iface,
        dev_from_name nm w = (Ret iface, w) ->
        pcapname (IsName nm) w = (Ret (pcap_name (heap w iface)), w)).
Proof.
  split.
  - intros iface Hinv.
    unfold pcapname, is_invalid, getobj, bind, gets, ret. simpl.
    rewrite Hinv. reflexivity.
  - intros nm iface Hdev.
    unfold pcapname, try_except, getobj, bind, gets, ret. simpl.
    rewrite Hdev. reflexivity.
Qed.

(** ** Loopback adapters *)

(** C5, as the code has it.  [update] with the data of an adapter whose
    ['netid'] or ['name'] is the loopback name returns, and the interface is
    then named by the loopback name.  With Npcap its MAC is the all-zero one
    and its primary IPv4 address 127.0.0.1, whatever addresses the data
    carries.  Without Npcap the MAC is the one of the data, and the primary
    address is the first address without a colon of the data (the address
    the interface had before when there is none), replaced by 127.0.0.1 only
    when that is missing or empty. *)
Theorem update_loopback (w : World) (self : loc) (d : IfData) :
  d_netid d = Some (LOOPBACK_NAME (conf w))
  \/ d_name d = LOOPBACK_NAME (conf w) ->
  exists w',
    update self d w = (Ret tt, w')
    /\ name (heap w' self) = Some (LOOPBACK_NAME (conf w))
    /\ (use_npcap (conf w) = true ->
        mac (heap w' self) = Some "00:00:00:00:00:00"
        /\ ip (heap w' self) = Some "127.0.0.1")
    /\ (use_npcap (conf w) = false ->
        mac (heap w' self) = Some (d_mac d)
        /\ ip (heap w' self)
           = let found := match first_ipv4 (d_ips d) with
                          | Some x => Some x
                          | None => ip (heap w self)
                          end in
             if truthy found then found else Some "127.0.0.1").
Proof.
  intros Hlo.
  destruct (update_returns self d w) as [[] [w' [E [Ho _]]]].
  exists w'. split; [exact E |]. rewrite Ho. clear E Ho w'.
  set (c := conf w) in *. set (devs := get_if_list (os w)).
  set (o := heap w self).
  destruct (pcapdata_fields devs (assign_from_data c d o))
    as [Hn [_ [Hm [Hi _]]]].
  assert (Hname : name (assign_from_data c d o) = Some (LOOPBACK_NAME c)).
  { simpl. destruct (opt_eqb (d_netid d) (LOOPBACK_NAME c)) eqn:Hnet;
      [reflexivity |].
    destruct Hlo as [Hd | Hd].
    - apply opt_eqb_true in Hd. rewrite Hd in Hnet. discriminate.
    - rewrite Hd. reflexivity. }
  assert (Heq : opt_eqb (Some (LOOPBACK_NAME c)) (LOOPBACK_NAME c) = true)
    by (apply opt_eqb_true; reflexivity).
  unfold updated. rewrite Hn, Hname, Heq. simpl andb.
  destruct (use_npcap c) eqn:Hnp.
  - repeat split; try discriminate. simpl. rewrite Hn. exact Hname.
  - split; [| split; [discriminate |]].
    + destruct (first_ipv4 (d_ips d)); simpl;
        [destruct (negb _ && _) | destruct (negb _ && _)]; simpl;
        rewrite ?Hn; exact Hname.
    + intros _. cbv zeta.
      destruct (first_ipv4 (d_ips d)) as [x |] eqn:Hx.
      * change (name (set_ip (Some x) (pcapdata devs (assign_from_data c d o))))
          with (name (pcapdata devs (assign_from_data c d o))).
        change (ip (set_ip (Some x) (pcapdata devs (assign_from_data c d o))))
          with (Some x).
        rewrite Hn, Hname, Heq, andb_true_r.
        destruct (truthy (Some x)); simpl; rewrite ?Hm; split; reflexivity.
      * rewrite Hi, Hn, Hname, Heq, andb_true_r.
        change (ip (assign_from_data c d o)) with (ip o).
        destruct (truthy (ip o)); simpl; rewrite ?Hm, ?Hi;
          split; reflexivity.
Qed.

(** ** Wireless capability *)

Lemma frame_outside self w w' : frame self w w' -> outside_heap w' = outside_heap w.
Proof. intros [Hout _]. exact Hout. Qed.

Lemma outside_conf w w' : outside_heap w' = outside_heap w -> conf w' = conf w.
Proof. unfold outside_heap. intros [= -> _]. reflexivity. Qed.

Lemma outside_os w w' : outside_heap w' = outside_heap w -> os w' = os w.
Proof. unfold outside_heap. intros [= _ -> _]. reflexivity. Qed.

Lemma outside_executed w w' :
  outside_heap w' = outside_heap w -> executed w' = executed w.
Proof. unfold outside_heap. intros [= _ _ _ _ _ _ -> _]. reflexivity. Qed.

Lemma outside_logged w w' :
  outside_heap w' = outside_heap w -> logged w' = logged w.
Proof. unfold outside_heap. intros [= _ _ _ _ _ _ _ ->]. reflexivity. Qed.

Lemma outside_IFACES w w' :
  outside_heap w' = outside_heap w -> IFACES w' = IFACES w.
Proof. unfold outside_heap. intros [= _ _ _ -> _]. reflexivity. Qed.

Lemma check_npcap_capable (self : loc) (w : World) (g : string) :
  use_npcap (conf w) = true ->
  guid (heap w self) = Some g ->
  dot11_capable w self = true ->
  returns (_check_npcap_requirement self) w
    (fun _ w' =>
       frame self w w'
       /\ cache_mode (heap w' self) = cache_mode (heap w self)
       /\ guid (heap w' self) = Some g).
Proof.
  intros Hnp Hg Hcap. unfold _check_npcap_requirement, dot11_capable in *.
  wp. rewrite Hnp. simpl negb. cbv iota. unfold getobj. wp.
  destruct (raw80211 (heap w self)) as [b |] eqn:Hraw.
  - subst b. wp. rewrite Hraw. wp.
    split; [apply frame_refl | split; [reflexivity | exact Hg]].
  - wp. rewrite Hg in *.
    destruct (Dot11Adapters (os w)) as [a |]; [| discriminate].
    apply returns_setobj. intros w1 Ho1 Hf1. wp. rewrite Ho1. simpl.
    rewrite Hcap. wp. rewrite Ho1. simpl.
    split; [exact Hf1 | split; [reflexivity | exact Hg]].
Qed.

Lemma check_npcap_incapable (self : loc) (w : World) (g : string) :
  use_npcap (conf w) = true ->
  guid (heap w self) = Some g ->
  dot11_capable w self = false ->
  exists w',
    _check_npcap_requirement self w = (Raise NoRaw80211, w')
    /\ frame self w w'
    /\ cache_mode (heap w' self) = cache_mode (heap w self).
Proof.
  intros Hnp Hg Hcap.
  unfold _check_npcap_requirement, dot11_capable, getobj, setobj, bind, gets,
    modify, ret, raise in *.
  rewrite Hnp. simpl. rewrite Hg in *.
  destruct (raw80211 (heap w self)) as [b |] eqn:Hraw.
  - subst b. rewrite Hraw. exists w.
    split; [reflexivity | split; [apply frame_refl | reflexivity]].
  - destruct (Dot11Adapters (os w)) as [a |]; simpl; rewrite upd_same; simpl;
      rewrite ?Hcap; eexists; (split; [reflexivity |]);
      (split; [apply frame_set_heap | simpl; rewrite upd_same; reflexivity]).
Qed.

Lemma returns_exec_cmd (command : string) (w : World) Q :
  Q (exec_output w command) (set_executed (executed w ++ [command]) w) ->
  returns (_exec_cmd command) w Q.
Proof.
  unfold _exec_cmd, exec_output, returns.
  destruct (Popen (os w) (List.length (executed w)) command) as [rc res].
  intros HQ. eexists. eexists. split; [reflexivity | exact HQ].
Qed.

Lemma npcap_get_returns (self : loc) (key : string) (w : World) (g : string) :
  guid (heap w self) = Some g ->
  returns (_npcap_get self key) w
    (fun out w' =>
       let cmd := Py.join " " [_WlanHelper (conf w); Py.slice_1_m1 g; key] in
       out = Py.strip (exec_output w cmd)
       /\ w' = set_executed (executed w ++ [cmd]) w).
Proof.
  intros Hg. unfold _npcap_get, getobj, guid_slice. wp. rewrite Hg. wp.
  apply returns_exec_cmd. wp. split; reflexivity.
Qed.

(** C3, as the code has it.  [ismonitor] returns the cached flag when there
    is one and leaves the world as it is.  Without a cached flag: when Npcap
    is not in use it raises the [OSError] of [_check_npcap_requirement]; when
    the interface cannot do raw 802.11 it returns [False], caches nothing and
    runs no command; otherwise it runs the mode query of the helper once,
    caches the flag it makes of the output and returns it.  Under Python 2,
    where the output and the literal are both byte strings, the flag says
    whether the stripped output is ["monitor"]; nothing is said here of the
    flag that Python 3 makes of a byte string and a text literal. *)
Theorem ismonitor_cases (w : World) (self : loc) :
  (forall b,
      cache_mode (heap w self) = Some b -> ismonitor self w = (Ret b, w))
  /\ (cache_mode (heap w self) = None ->
      use_npcap (conf w) = false ->
      ismonitor self w = (Raise RequiresNpcap, w))
  /\ (forall g,
        cache_mode (heap w self) = None ->
        use_npcap (conf w) = true ->
        guid (heap w self) = Some g ->
        dot11_capable w self = false ->
        exists w',
          ismonitor self w = (Ret false, w')
          /\ cache_mode (heap w' self) = None
          /\ executed w' = executed w)
  /\ (forall g,
        cache_mode (heap w self) = None ->
        use_npcap (conf w) = true ->
        guid (heap w self) = Some g ->
        dot11_capable w self = true ->
        let cmd := Py.join " " [_WlanHelper (conf w); Py.slice_1_m1 g; "mode"] in
        exists res w',
          ismonitor self w = (Ret res, w')
          /\ cache_mode (heap w' self) = Some res
          /\ executed w' = (executed w ++ [cmd])%list
          /\ (PY2 (conf w) = true ->
              res = String.eqb (Py.strip (exec_output w cmd)) "monitor")).
Proof.
  repeat split.
  - intros b Hc. unfold ismonitor, getobj, bind, gets, ret. simpl.
    rewrite Hc. reflexivity.
  - intros Hc Hnp.
    unfold ismonitor, mode, _check_npcap_requirement, try_except, getobj,
      bind, gets, ret, raise.
    simpl. rewrite Hc, Hnp. reflexivity.
  - intros g Hc Hnp Hg Hcap.
    destruct (check_npcap_incapable self w g Hnp Hg Hcap)
      as [w' [E [Hf Hcm]]].
    exists w'. unfold ismonitor, mode, try_except, getobj, bind, gets, ret.
    simpl. rewrite Hc. unfold bind. rewrite E. simpl.
    split; [reflexivity |]. split; [rewrite Hcm; exact Hc |].
    apply outside_executed, frame_outside with (self := self). exact Hf.
  - intros g Hc Hnp Hg Hcap cmd.
    set (res := bytes_eq_str (conf w) (Py.strip (exec_output w cmd)) "monitor").
    assert (R : returns (ismonitor self) w
                  (fun r w' => r = res /\ cache_mode (heap w' self) = Some res
                               /\ executed w' = (executed w ++ [cmd])%list)).
    { unfold ismonitor, getobj. wp. rewrite Hc. apply returns_try_except.
      unfold mode. wp. eapply returns_weaken.
      { apply (check_npcap_capable self w g Hnp Hg Hcap). }
      cbv beta. intros _ w1 [Hf1 [Hc1 Hg1]].
      eapply returns_weaken. { apply (npcap_get_returns self "mode" w1 g Hg1). }
      cbv beta zeta. intros out w2 [Hout Hw2].
      pose proof (frame_outside _ _ _ Hf1) as Ho1.
      assert (Hcmd : Py.join " " [_WlanHelper (conf w1); Py.slice_1_m1 g; "mode"]
                     = cmd).
      { unfold cmd. rewrite (outside_conf _ _ Ho1). reflexivity. }
      rewrite Hcmd in *.
      assert (Hex : exec_output w1 cmd = exec_output w cmd).
      { unfold exec_output. rewrite (outside_os _ _ Ho1), (outside_executed _ _ Ho1).
        reflexivity. }
      rewrite Hex in Hout. subst out.
      wp. apply returns_setobj. intros w3 Ho3 Hf3. wp.
      split; [reflexivity |]. split; [rewrite Ho3; reflexivity |].
      rewrite (outside_executed _ _ (frame_outside _ _ _ Hf3)). subst w2. simpl.
      rewrite (outside_executed _ _ Ho1). reflexivity. }
    destruct R as [r [w' [E [-> [Hcm Hex]]]]]. exists res, w'.
    split; [exact E |]. split; [exact Hcm |]. split; [exact Hex |].
    intros Hpy. unfold res, bytes_eq_str. rewrite Hpy. reflexivity.
Qed.

Lemma ismonitor_cached (self : loc) (w : World) (b : bool) :
  cache_mode (heap w self) = Some b -> ismonitor self w = (Ret b, w).
Proof.
  intros Hc. unfold ismonitor, getobj, bind, gets, ret. simpl.
  rewrite Hc. reflexivity.
Qed.

(** With Npcap and an interface that can do raw 802.11, [setmonitor]
    returns. *)
Lemma setmonitor_returns (self : loc) (enable : bool) (w : World) (g : string) :
  use_npcap (conf w) = true ->
  guid (heap w self) = Some g ->
  dot11_capable w self = true ->
  exists res w1, setmonitor self enable w = (Ret res, w1).
Proof.
  intros Hnp Hg Hcap.
  assert (R : returns (setmonitor self enable) w (fun _ _ => True)).
  { unfold setmonitor. wp.
    assert (S : forall m, returns (setmode self m) w (fun _ _ => True)).
    { intros m. unfold setmode. wp. eapply returns_weaken;
        [apply (check_npcap_capable self w g Hnp Hg Hcap) |].
      cbv beta. intros _ w1 [_ [_ Hg1]].
      unfold _npcap_set, getobj, guid_slice. wp. rewrite Hg1. wp.
      apply returns_exec_cmd. wp. exact I. }
    destruct enable; wp; (eapply returns_weaken; [apply S |]);
      cbv beta; intros res w1 _; wp; apply returns_setobj; intros w2 _ _; wp;
      destruct (negb res); unfold log; wp; exact I. }
  destruct R as [res [w1 [E _]]]. exists res, w1. exact E.
Qed.

(** C4, as the code has it.  When [setmonitor enable] returns [res], the
    result of the set command, the cache holds [res] for an enable and
    [not res] for a disable; [ismonitor] called next returns that cached
    value and leaves the world, and so the list of the commands run, as it
    is. *)
Theorem setmonitor_then_ismonitor (w w1 : World) (self : loc)
    (enable res : bool) :
  setmonitor self enable w = (Ret res, w1) ->
  let cached := if enable then res else negb res in
  fst (setmode self (PyStr (if enable then "monitor" else "managed")) w)
  = Ret res
  /\ cache_mode (heap w1 self) = Some cached
  /\ ismonitor self w1 = (Ret cached, w1)
  /\ executed (snd (ismonitor self w1)) = executed w1.
Proof.
  intros E cached.
  assert (Hc : fst (setmode self
                      (PyStr (if enable then "monitor" else "managed")) w)
               = Ret res
               /\ cache_mode (heap w1 self) = Some cached).
  { unfold setmonitor in E. rewrite bind_run in E. subst cached.
    destruct enable; rewrite bind_run in E;
      (destruct (setmode self _ w) as [[r | e] w0]; [| discriminate]);
      unfold setobj, log, modify, bind, ret in E; simpl in E;
      destruct r; simpl in E; injection E as <- <-; simpl;
      rewrite upd_same; split; reflexivity. }
  destruct Hc as [Hres Hc]. split; [exact Hres |]. split; [exact Hc |].
  rewrite (ismonitor_cached self w1 cached Hc). split; reflexivity.
Qed.

(** ** Computations that only read *)

Lemma readonly_ret {A} (a : A) : readonly (ret a).
Proof. intros w. reflexivity. Qed.

Lemma readonly_raise {A} (e : exn) : readonly (@raise A e).
Proof. intros w. reflexivity. Qed.

Lemma readonly_gets {A} (f : World -> A) : readonly (gets f).
Proof. intros w. reflexivity. Qed.

Lemma readonly_bind {A B} (m : M A) (k : A -> M B) :
  readonly m -> (forall a, readonly (k a)) -> readonly (bind m k).
Proof.
  intros Hm Hk w. unfold bind. specialize (Hm w).
  destruct (m w) as [[a | e] w']; simpl in Hm; subst w'.
  - apply Hk.
  - reflexivity.
Qed.

Lemma readonly_try_except {A} (m : M A) c (h : exn -> M A) :
  readonly m -> (forall e, readonly (h e)) -> readonly (try_except m c h).
Proof.
  intros Hm Hh w. unfold try_except. specialize (Hm w).
  destruct (m w) as [[a | e] w']; simpl in Hm; subst w'.
  - reflexivity.
  - destruct (isinstance_exn e c); [apply Hh | reflexivity].
Qed.

Lemma readonly_for_fold {A S} (body : S -> A -> M S) (l : list A) :
  (forall s x, readonly (body s x)) -> forall s, readonly (for_fold body l s).
Proof.
  intros Hb. induction l as [| x l IH]; intros s; simpl.
  - apply readonly_ret.
  - apply readonly_bind; [apply Hb | exact IH].
Qed.

Lemma readonly_run {A} (m : M A) (w : World) :
  readonly m -> m w = (fst (m w), w).
Proof.
  intros Hm. specialize (Hm w). destruct (m w) as [r w']. simpl in *.
  subst. reflexivity.
Qed.

Create HintDb readonly.

Ltac ro_step :=
  lazymatch goal with
  | |- readonly (ret _) => apply readonly_ret
  | |- readonly (raise _) => apply readonly_raise
  | |- readonly (gets _) => apply readonly_gets
  | |- readonly (getobj _) => apply readonly_gets
  | |- readonly (bind _ _) => apply readonly_bind; [| intros ?]
  | |- readonly (try_except _ _ _) => apply readonly_try_except; [| intros ?]
  | |- readonly (for_fold _ _ _) => apply readonly_for_fold; intros ? ?
  | |- readonly (fun w => (_, w)) => intros ?; reflexivity
  | |- readonly (match ?x with _ => _ end) => destruct x
  | |- readonly (let '(_, _) := ?x in _) => destruct x
  | |- readonly _ => solve [auto with readonly]
  end.

Ltac ro := repeat ro_step.

Lemma readonly_dev_from_index i : readonly (dev_from_index i).
Proof. unfold dev_from_index. ro. Qed.
#[local] Hint Resolve readonly_dev_from_index : readonly.

Lemma readonly_owning_interface i : readonly (owning_interface i).
Proof. unfold owning_interface. ro. Qed.
#[local] Hint Resolve readonly_owning_interface : readonly.

Lemma readonly_add_metric a b : readonly (add_metric a b).
Proof. unfold add_metric. ro. Qed.
#[local] Hint Resolve readonly_add_metric : readonly.

Lemma readonly_read_routes_c_v1 : readonly _read_routes_c_v1.
Proof. unfold _read_routes_c_v1. ro. Qed.

Lemma readonly_get_ips v6 : readonly (get_ips v6).
Proof. unfold get_ips. ro. Qed.

Lemma readonly_in6_getifaddr : readonly in6_getifaddr.
Proof. unfold in6_getifaddr. pose proof readonly_get_ips. ro. Qed.

Lemma readonly_append_route6 routes dpref dp nh iface lifaddr metric :
  readonly (_append_route6 routes dpref dp nh iface lifaddr metric).
Proof. unfold _append_route6. ro. Qed.

Lemma readonly_read_routes_c ipv6 : readonly (_read_routes_c ipv6).
Proof.
  unfold _read_routes_c.
  pose proof readonly_in6_getifaddr. pose proof readonly_append_route6. ro.
Qed.

(** ** Invariants of the route builders *)

Lemma for_fold_invariant {A S : Type} (body : S -> A -> M S) (l : list A)
    (I : S -> Prop) (w : World) :
  (forall s x, readonly (body s x)) ->
  (forall s x s', In x l -> I s -> fst (body s x w) = Ret s' -> I s') ->
  forall s s', I s -> fst (for_fold body l s w) = Ret s' -> I s'.
Proof.
  intros Hro. induction l as [| x l IH]; intros Hstep s s' Hs E.
  - simpl in E. injection E as <-. exact Hs.
  - simpl in E. unfold bind in E. rewrite (readonly_run _ w (Hro s x)) in E.
    destruct (fst (body s x w)) as [s1 |] eqn:E1; [| discriminate].
    apply (IH (fun s0 y s0' Hy => Hstep s0 y s0' (or_intror Hy)) s1 s');
      [| exact E].
    apply (Hstep s x s1); [left; reflexivity | exact Hs | exact E1].
Qed.

Lemma owning_interface_some (w : World) (i : Z) (iface : loc) :
  fst (owning_interface i w) = Ret (Some iface) ->
  dev_from_index i w = (Ret iface, w)
  /\ ip (heap w iface) <> Some "0.0.0.0".
Proof.
  unfold owning_interface, try_except, bind.
  rewrite (readonly_run _ w (readonly_dev_from_index i)).
  destruct (fst (dev_from_index i w)) as [l | e]; simpl.
  - destruct (opt_eqb (ip (heap w l)) "0.0.0.0") eqn:Hip; simpl;
      intros [= <-]. split; [reflexivity |].
    intros Hc. apply opt_eqb_true in Hc. rewrite Hc in Hip. discriminate.
  - destruct (isinstance_exn e ValueError); simpl; discriminate.
Qed.

Lemma add_metric_ret (a : Z) (b : option Z) (w : World) (m : Z) :
  fst (add_metric a b w) = Ret m -> exists x, b = Some x /\ m = a + x.
Proof.
  unfold add_metric. destruct b as [x |]; simpl; [| discriminate].
  intros [= <-]. exists x. split; reflexivity.
Qed.

Lemma append_route6_sources (w : World) (lifaddr : list (string * Z * loc))
    (routes routes' : list Route) dpref dp nh iface metric :
  fst (_append_route6 routes dpref dp nh iface lifaddr metric w) = Ret routes' ->
  routes' = routes
  \/ exists cset,
       routes' = (routes ++ [Route6 dpref dp nh iface cset metric])%list
       /\ route6_sources w lifaddr (Route6 dpref dp nh iface cset metric).
Proof.
  unfold _append_route6, getobj, bind, gets, ret, route6_sources, is_loopback.
  simpl.
  destruct (opt_eqb (name (heap w iface)) (LOOPBACK_NAME (conf w))).
  - destruct (String.eqb_spec dpref "::") as [Hd | Hd]; simpl; intros [= <-].
    + left. reflexivity.
    + right. exists ["::1"]. repeat split. exact Hd.
  - destruct (construct_source_candidate_set dpref dp _) as [| a cs] eqn:Ec;
      simpl; intros [= <-].
    + left. reflexivity.
    + right. exists (a :: cs). repeat split. discriminate.
Qed.

Lemma read_routes_c_sources (w : World) (routes : list Route) :
  fst (_read_routes_c true w) = Ret routes ->
  forall r, In r routes ->
    exists lifaddr,
      fst (in6_getifaddr w) = Ret lifaddr /\ route6_sources w lifaddr r.
Proof.
  unfold _read_routes_c. do 2 unfold bind at 1.
  rewrite (readonly_run _ w readonly_in6_getifaddr).
  destruct (fst (in6_getifaddr w)) as [lifaddr | e]; [| discriminate].
  destruct (GetIpForwardTable2 (os w) _) as [rows | e]; [| discriminate].
  intros E r Hr. exists lifaddr. split; [reflexivity |]. revert r Hr.
  refine (for_fold_invariant _ rows
            (fun routes => forall r, In r routes -> route6_sources w lifaddr r)
            w _ _ [] routes _ E).
  - intros s x. pose proof readonly_owning_interface.
    pose proof readonly_add_metric. pose proof readonly_append_route6. ro.
  - intros s x s' Hx Hs Hb r Hr.
    destruct (_extract_ip_netmask true (DestinationPrefix_Prefix x))
      as [dest netmask].
    destruct (_extract_ip_netmask true (NextHop x)) as [nexthop ign].
    unfold bind in Hb.
    rewrite (readonly_run _ w (readonly_owning_interface _)) in Hb.
    destruct (fst (owning_interface (InterfaceIndex x) w))
      as [[iface |] | e] eqn:Eo; simpl in Hb; try discriminate.
    + unfold getobj, gets, bind in Hb. simpl in Hb.
      rewrite (readonly_run _ w (readonly_add_metric _ _)) in Hb.
      destruct (fst (add_metric _ _ w)) as [m |] eqn:Em; [| discriminate].
      apply append_route6_sources in Hb.
      destruct Hb as [-> | [cset [-> Hsrc]]]; [auto |].
      apply in_app_or in Hr. destruct Hr as [Hr | [<- | []]]; [auto |].
      exact Hsrc.
    + injection Hb as <-. auto.
  - intros r [].
Qed.

(** ** The table of routes, row by row *)

Lemma table_of_none {Row : Type} (of_row : Row -> Route -> Prop)
    (rows : list Row) :
  table_of of_row rows [].
Proof.
  induction rows as [| row rows IH]; [apply table_end | apply table_skip, IH].
Qed.

(** Read route by route: a route of the table comes from a row of the
    forwarding table, and its metric is the raw metric of that row plus the
    metric of its interface. *)
Lemma table_of_In {Row : Type} (of_row : Row -> Route -> Prop)
    (rows : list Row) (routes : list Route) :
  table_of of_row rows routes ->
  forall r, In r routes -> exists row, In row rows /\ of_row row r.
Proof.
  induction 1 as [| row rows routes _ IH | row rows r0 routes Hr0 _ IH];
    intros r Hr.
  - destruct Hr.
  - destruct (IH r Hr) as [x [Hx Hxr]]. exists x. split; [right |]; assumption.
  - destruct Hr as [<- | Hr].
    + exists row. split; [left; reflexivity | exact Hr0].
    + destruct (IH r Hr) as [x [Hx Hxr]].
      exists x. split; [right |]; assumption.
Qed.

Lemma route_of_row_metric (w : World) (ipv6 : bool) (row : ForwardRow2)
    (r : Route) :
  route_of_row w ipv6 row r ->
  exists m,
    dev_from_index (InterfaceIndex row) w = (Ret (route_iface r), w)
    /\ family_metric ipv6 (heap w (route_iface r)) = Some m
    /\ route_metric r = Metric row + m.
Proof.
  intros [iface [m [Hdev [Hm Hr]]]]. exists m.
  destruct ipv6; [destruct Hr as [cset ->] | subst r]; simpl;
    repeat split; assumption.
Qed.

Lemma route_of_row_v1_metric (w : World) (row : ForwardRow) (r : Route) :
  route_of_row_v1 w row r ->
  exists m,
    dev_from_index (ForwardIfIndex row) w = (Ret (route_iface r), w)
    /\ ipv4_metric (heap w (route_iface r)) = Some m
    /\ route_metric r = ForwardMetric1 row + m.
Proof.
  intros [iface [m [Hdev [Hm ->]]]]. exists m. simpl.
  repeat split; assumption.
Qed.

Lemma for_fold_table {Row : Type} (of_row : Row -> Route -> Prop)
    (body : list Route -> Row -> M (list Route)) (w : World) :
  (forall s x, readonly (body s x)) ->
  (forall s x s',
      fst (body s x w) = Ret s' ->
      s' = s \/ exists r, s' = (s ++ [r])%list /\ of_row x r) ->
  forall rows s s',
    fst (for_fold body rows s w) = Ret s' ->
    exists added, s' = (s ++ added)%list /\ table_of of_row rows added.
Proof.
  intros Hro Hstep. induction rows as [| x rows IH]; intros s s' E.
  - simpl in E. injection E as <-. exists [].
    split; [symmetry; apply app_nil_r | apply table_end].
  - simpl in E. unfold bind in E. rewrite (readonly_run _ w (Hro s x)) in E.
    destruct (fst (body s x w)) as [s1 |] eqn:E1; [| discriminate].
    destruct (IH s1 s' E) as [added [-> Ht]].
    destruct (Hstep s x s1 E1) as [-> | [r [-> Hr]]].
    + exists added. split; [reflexivity | apply table_skip; exact Ht].
    + exists (r :: added).
      split; [rewrite <- app_assoc; reflexivity
             | apply table_keep; assumption].
Qed.

Lemma read_routes_c_v1_table (w : World) (routes : list Route) :
  fst (_read_routes_c_v1 w) = Ret routes ->
  table_of (route_of_row_v1 w) (forward_rows_v1 w) routes.
Proof.
  unfold _read_routes_c_v1, forward_rows_v1. unfold bind at 1.
  destruct (GetIpForwardTable (os w)) as [rows | e]; [| discriminate].
  intros E.
  enough (T : exists added,
             routes = ([] ++ added)%list
             /\ table_of (route_of_row_v1 w) rows added)
    by (destruct T as [added [-> Ht]]; exact Ht).
  revert E. apply for_fold_table.
  - intros s x. pose proof readonly_owning_interface.
    pose proof readonly_add_metric. ro.
  - intros s x s' Hb. unfold bind in Hb.
    rewrite (readonly_run _ w (readonly_owning_interface _)) in Hb.
    destruct (fst (owning_interface (ForwardIfIndex x) w))
      as [[iface |] | e] eqn:Eo; simpl in Hb; try discriminate.
    + unfold getobj, gets, bind in Hb. simpl in Hb.
      rewrite (readonly_run _ w (readonly_add_metric _ _)) in Hb.
      destruct (fst (add_metric _ _ w)) as [m |] eqn:Em; [| discriminate].
      simpl in Hb. injection Hb as <-.
      apply add_metric_ret in Em. destruct Em as [im [Him ->]].
      apply owning_interface_some in Eo. destruct Eo as [Hdev _].
      right. eexists. split; [reflexivity |].
      exists iface, im. repeat split; assumption.
    + injection Hb as <-. left. reflexivity.
Qed.

Lemma read_routes_c_table (w : World) (ipv6 : bool) (routes : list Route) :
  fst (_read_routes_c ipv6 w) = Ret routes ->
  table_of (route_of_row w ipv6)
    (forward_rows w (if ipv6 then AF_INET6 else AF_INET)) routes.
Proof.
  unfold _read_routes_c, forward_rows. do 2 unfold bind at 1.
  assert (Hl : exists rl, (if ipv6 then in6_getifaddr else ret []) w = (rl, w)).
  { destruct ipv6.
    - exists (fst (in6_getifaddr w)).
      apply readonly_run, readonly_in6_getifaddr.
    - exists (Ret []). reflexivity. }
  destruct Hl as [rl El]. rewrite El.
  destruct rl as [lifaddr | e]; [| discriminate].
  destruct (GetIpForwardTable2 (os w) _) as [rows | e]; [| discriminate].
  intros E.
  enough (T : exists added,
             routes = ([] ++ added)%list
             /\ table_of (route_of_row w ipv6) rows added)
    by (destruct T as [added [-> Ht]]; exact Ht).
  revert E. apply for_fold_table.
  - intros s x. pose proof readonly_owning_interface.
    pose proof readonly_add_metric. pose proof readonly_append_route6. ro.
  - intros s x s' Hb. unfold route_of_row.
    destruct (_extract_ip_netmask ipv6 (DestinationPrefix_Prefix x))
      as [dest netmask].
    destruct (_extract_ip_netmask ipv6 (NextHop x)) as [nexthop ign].
    cbv zeta. simpl fst. simpl snd.
    unfold bind in Hb.
    rewrite (readonly_run _ w (readonly_owning_interface _)) in Hb.
    destruct (fst (owning_interface (InterfaceIndex x) w))
      as [[iface |] | e] eqn:Eo; simpl in Hb; try discriminate.
    + unfold getobj, gets, bind in Hb. simpl in Hb.
      rewrite (readonly_run _ w (readonly_add_metric _ _)) in Hb.
      destruct (fst (add_metric _ _ w)) as [m |] eqn:Em; [| discriminate].
      apply add_metric_ret in Em. destruct Em as [im [Him ->]].
      apply owning_interface_some in Eo. destruct Eo as [Hdev _].
      destruct ipv6.
      * apply append_route6_sources in Hb.
        destruct Hb as [-> | [cset [-> _]]]; [left; reflexivity |].
        right. eexists. split; [reflexivity |].
        exists iface, im. split; [exact Hdev |]. split; [exact Him |].
        exists cset. reflexivity.
      * simpl in Hb. injection Hb as <-.
        right. eexists. split; [reflexivity |].
        exists iface, im. split; [exact Hdev |]. split; [exact Him |].
        reflexivity.
    + injection Hb as <-. left. reflexivity.
Qed.

(** ** Running a computation that returns *)

Lemma returns_elim {A} (m : M A) w (Q : A -> World -> Prop) a w1 :
  returns m w Q -> m w = (Ret a, w1) -> Q a w1.
Proof.
  intros [a' [w' [E HQ]]] E1. rewrite E in E1. injection E1 as <- <-. exact HQ.
Qed.

Lemma bind_ret_inv {A B} (m : M A) (k : A -> M B) w b w' :
  bind m k w = (Ret b, w') ->
  exists a w1, m w = (Ret a, w1) /\ k a w1 = (Ret b, w').
Proof.
  unfold bind. destruct (m w) as [[a | e] w1]; [| discriminate].
  intros E. exists a, w1. split; [reflexivity | exact E].
Qed.

Lemma returns_for_each {A} (body : A -> M unit) (l : list A)
    (I : World -> Prop) :
  (forall x w0, In x l -> I w0 -> returns (body x) w0 (fun _ w1 => I w1)) ->
  forall w, I w -> returns (for_each body l) w (fun _ w1 => I w1).
Proof.
  induction l as [| x l IH]; intros Hb w Hw; simpl.
  - apply returns_ret. exact Hw.
  - apply returns_bind. eapply returns_weaken.
    + apply Hb; [left; reflexivity | exact Hw].
    + cbv beta. intros _ w1 Hw1. apply IH; [| exact Hw1].
      intros y w0 Hy. apply Hb. right. exact Hy.
Qed.

Lemma returns_alloc (o : NetworkInterface) w (Q : loc -> World -> Prop) :
  Q (next_loc w) (set_heap (upd (heap w) (next_loc w) o) (S (next_loc w)) w) ->
  returns (alloc o) w Q.
Proof. intros HQ. eexists. eexists. split; [reflexivity | exact HQ]. Qed.

Lemma updated_fields (c : Conf) (devs : list string) (d : IfData)
    (o : NetworkInterface) :
  name (updated c devs d o) = name (assign_from_data c d o)
  /\ description (updated c devs d o) = Some (d_description d)
  /\ win_index (updated c devs d o) = Some (d_win_index d)
  /\ guid (updated c devs d o) = Some (d_guid d).
Proof.
  destruct (pcapdata_fields devs (assign_from_data c d o))
    as [Hn [_ [_ [_ [Hd [Hw Hg]]]]]].
  unfold updated.
  destruct (opt_eqb _ _ && use_npcap c); [simpl; auto |].
  destruct (first_ipv4 (d_ips d)); destruct (negb _ && _); simpl; auto.
Qed.

Lemma new_interface_returns (d : IfData) (w : World) :
  returns (new_NetworkInterface (Some d)) w
    (fun l w' =>
       l = next_loc w
       /\ next_loc w' = S (next_loc w)
       /\ outside_heap w' = outside_heap w
       /\ heap w' l
          = updated (conf w) (get_if_list (os w)) d NetworkInterface_init
       /\ forall l', l' <> l -> heap w' l' = heap w l').
Proof.
  unfold new_NetworkInterface. wp. apply returns_alloc. wp.
  eapply returns_weaken; [apply update_returns |].
  cbv beta. intros _ w' [Ho [Hout [Hn Hh]]]. wp. simpl in *.
  rewrite upd_same in Ho.
  split; [reflexivity |]. split; [exact Hn |]. split; [exact Hout |].
  split; [exact Ho |].
  intros l' Hl'. rewrite (Hh l' Hl'). apply upd_other. exact Hl'.
Qed.

(** ** Dictionaries keyed by strings *)

Lemma dict_mem_set (k k' : string) {V} (v : V) (d : list (string * V)) :
  dict_mem String.eqb k (dict_set String.eqb k' v d)
  = String.eqb k' k || dict_mem String.eqb k d.
Proof.
  unfold dict_mem. induction d as [| [k0 v0] d IH]; simpl.
  - rewrite orb_false_r. reflexivity.
  - destruct (String.eqb_spec k0 k') as [-> | NE]; simpl.
    + destruct (k' =? k)%string; reflexivity.
    + rewrite IH. destruct (k0 =? k)%string, (k' =? k)%string; reflexivity.
Qed.

Lemma dict_get_set_same (k : string) {V} (v : V) (d : list (string * V)) :
  dict_get String.eqb k (dict_set String.eqb k v d) = Some v.
Proof.
  unfold dict_get. induction d as [| [k0 v0] d IH]; simpl.
  - rewrite String.eqb_refl. reflexivity.
  - destruct (String.eqb_spec k0 k) as [-> | NE]; simpl.
    + rewrite String.eqb_refl. reflexivity.
    + apply String.eqb_neq in NE. rewrite NE. exact IH.
Qed.

Lemma dict_get_set_other (k k' : string) {V} (v : V) (d : list (string * V)) :
  k' <> k ->
  dict_get String.eqb k (dict_set String.eqb k' v d)
  = dict_get String.eqb k d.
Proof.
  intros NE. unfold dict_get. induction d as [| [k0 v0] d IH]; simpl.
  - apply String.eqb_neq in NE. rewrite NE. reflexivity.
  - destruct (String.eqb_spec k0 k') as [-> | NE0]; simpl.
    + apply String.eqb_neq in NE. rewrite NE. reflexivity.
    + destruct (k0 =? k)%string; [reflexivity | exact IH].
Qed.

Lemma dict_get_in (k : string) {V} (v : V) (d : list (string * V)) :
  dict_get String.eqb k d = Some v -> In v (itervalues d).
Proof.
  unfold dict_get, itervalues.
  destruct (find _ d) as [[k0 v0] |] eqn:E; simpl; [| discriminate].
  intros [= <-]. apply find_some in E. destruct E as [Hin _].
  apply (in_map snd) in Hin. exact Hin.
Qed.

Lemma dict_get_mem (k : string) {V} (d : list (string * V)) :
  dict_mem String.eqb k d = false -> dict_get String.eqb k d = None.
Proof.
  unfold dict_mem, dict_get. intros E.
  destruct (find _ d) as [[k0 v0] |] eqn:F; [| reflexivity].
  apply find_some in F. destruct F as [Hin Hk].
  assert (T : existsb (fun kv : string * V => (fst kv =? k)%string) d = true).
  { apply existsb_exists. exists (k0, v0). split; assumption. }
  rewrite T in E. discriminate.
Qed.

(** ** Interfaces made up from the cache *)

Lemma register_cached_returns (nm g : string) (ips : list string) (w : World) :
  returns (register_cached (nm, (g, ips))) w
    (fun _ w' =>
       conf w' = conf w
       /\ os w' = os w
       /\ if dict_mem String.eqb (cache_guid g) (IFACES w) then
            IFACES w' = IFACES w
            /\ next_loc w' = next_loc w
            /\ forall l, heap w' l = heap w l
          else
            IFACES w'
            = dict_set String.eqb (cache_guid g) (next_loc w) (IFACES w)
            /\ next_loc w' = S (next_loc w)
            /\ heap w' (next_loc w)
               = updated (conf w) (get_if_list (os w))
                   (dummy_data nm (cache_guid g) ips) NetworkInterface_init
            /\ forall l, l <> next_loc w -> heap w' l = heap w l).
Proof.
  unfold register_cached. wp.
  destruct (dict_mem String.eqb (cache_guid g) (IFACES w)); simpl negb; cbv iota.
  - wp. repeat split.
  - wp. eapply returns_weaken; [apply new_interface_returns |].
    cbv beta. intros l w1 [-> [Hn [Hout [Ho Hh]]]]. wp. simpl.
    rewrite (outside_conf _ _ Hout), (outside_os _ _ Hout),
      (outside_IFACES _ _ Hout).
    repeat split; assumption.
Qed.

Lemma synthesized_kept (gk nm : string) (iface : loc)
    (entry : string * (string * list string)) (w : World) :
  synthesized w gk nm iface ->
  returns (register_cached entry) w (fun _ w' => synthesized w' gk nm iface).
Proof.
  intros [Hget [Hlt [Hn [Hd [Hw Hg]]]]]. destruct entry as [nm' [g' ips']].
  eapply returns_weaken; [apply register_cached_returns |].
  cbv beta. intros _ w' [_ [_ Hcase]].
  destruct (dict_mem String.eqb (cache_guid g') (IFACES w)) eqn:Hmem.
  - destruct Hcase as [HI [HN HH]]. unfold synthesized.
    rewrite HI, HN, !HH. repeat split; assumption.
  - destruct Hcase as [HI [HN [_ HH]]]. unfold synthesized.
    assert (NE : iface <> next_loc w) by lia.
    rewrite HI, HN, !(HH iface NE).
    assert (Hk : cache_guid g' <> gk).
    { intros E. rewrite E in Hmem.
      rewrite (dict_get_mem _ _ Hmem) in Hget. discriminate. }
    rewrite (dict_get_set_other _ _ _ _ Hk).
    repeat split; try assumption. lia.
Qed.

Lemma absent_kept (gk : string) (entry : string * (string * list string))
    (w : World) :
  cache_guid (fst (snd entry)) <> gk ->
  dict_mem String.eqb gk (IFACES w) = false ->
  returns (register_cached entry) w
    (fun _ w' => dict_mem String.eqb gk (IFACES w') = false).
Proof.
  intros Hk Hmem. destruct entry as [nm' [g' ips']]. simpl in Hk.
  eapply returns_weaken; [apply register_cached_returns |].
  cbv beta. intros _ w' [_ [_ Hcase]].
  destruct (dict_mem String.eqb (cache_guid g') (IFACES w)).
  - destruct Hcase as [-> _]. exact Hmem.
  - destruct Hcase as [-> _]. rewrite dict_mem_set, Hmem.
    apply String.eqb_neq in Hk. rewrite Hk. reflexivity.
Qed.

Lemma for_each_app {A} (body : A -> M unit) (l1 l2 : list A) (w : World) :
  for_each body (l1 ++ l2) w = (for_each body l1 ;; for_each body l2) w.
Proof.
  revert w. induction l1 as [| x l1 IH]; intros w; simpl.
  - reflexivity.
  - rewrite !bind_run. destruct (body x w) as [[[] | e] w1].
    + rewrite IH. reflexivity.
    + reflexivity.
Qed.

Lemma cache_loop_synthesizes (before after : list (string * (string * list string)))
    (nm g : string) (ips : list string) (w : World) :
  dict_mem String.eqb (cache_guid g) (IFACES w) = false ->
  (forall e, In e before -> cache_guid (fst (snd e)) <> cache_guid g) ->
  returns (for_each register_cached (before ++ (nm, (g, ips)) :: after)) w
    (fun _ w' => exists iface, synthesized w' (cache_guid g) nm iface).
Proof.
  intros Hmem Hbefore. unfold returns. rewrite for_each_app.
  apply returns_bind. eapply returns_weaken.
  { apply (returns_for_each register_cached before
             (fun w0 => dict_mem String.eqb (cache_guid g) (IFACES w0) = false)).
    - intros e w0 He Hw0. apply absent_kept; [apply Hbefore; exact He | exact Hw0].
    - exact Hmem. }
  cbv beta. intros _ w1 Hw1. simpl for_each. apply returns_bind.
  eapply returns_weaken; [apply register_cached_returns |].
  cbv beta. intros _ w2 [_ [_ Hcase]]. rewrite Hw1 in Hcase.
  destruct Hcase as [HI [HN [Ho HH]]].
  destruct (updated_fields (conf w1) (get_if_list (os w1))
              (dummy_data nm (cache_guid g) ips) NetworkInterface_init)
    as [Hn [Hd [Hwi Hg]]].
  eapply returns_weaken.
  { apply (returns_for_each register_cached after
             (fun w0 => synthesized w0 (cache_guid g) nm (next_loc w1))).
    - intros e w0 _ Hw0. apply synthesized_kept. exact Hw0.
    - unfold synthesized. rewrite HI, HN, Ho, Hn, Hd, Hwi, Hg.
      rewrite dict_get_set_same. repeat split. lia. }
  cbv beta. intros _ w3 Hs. exists (next_loc w1). exact Hs.
Qed.

Lemma dev_from_name_found (w : World) (nm : string) (iface : loc) :
  In iface (itervalues (IFACES w)) ->
  name (heap w iface) = Some nm ->
  exists found,
    dev_from_name nm w = (Ret found, w)
    /\ In found (itervalues (IFACES w))
    /\ (name (heap w found) = Some nm \/ description (heap w found) = Some nm)
    /\ ((forall other,
            In other (itervalues (IFACES w)) -> other <> iface ->
            name (heap w other) <> Some nm
            /\ description (heap w other) <> Some nm) ->
        found = iface).
Proof.
  intros Hin Hn.
  set (p := fun l => opt_eqb (name (heap w l)) nm
                     || opt_eqb (description (heap w l)) nm).
  destruct (find_exists p (itervalues (IFACES w)) iface Hin) as [found Hf].
  { unfold p. apply orb_true_iff. left. apply opt_eqb_true. exact Hn. }
  exists found. split.
  { unfold dev_from_name, bind, gets, ret, Py.next_such. simpl.
    fold p. rewrite Hf. reflexivity. }
  apply find_some in Hf. destruct Hf as [Hfin Hp].
  unfold p in Hp. apply orb_true_iff in Hp. rewrite !opt_eqb_true in Hp.
  split; [exact Hfin |]. split; [exact Hp |].
  intros Hothers. destruct (Nat.eq_dec found iface) as [E | NE]; [exact E |].
  destruct (Hothers found Hfin NE) as [H1 H2]. destruct Hp; contradiction.
Qed.

(** ** The phases of [load] *)

Lemma reg_below_refl w : reg_below w w.
Proof. repeat split. intros k Hk. left. exact Hk. Qed.

Lemma reg_below_trans w1 w2 w3 :
  reg_below w1 w2 -> reg_below w2 w3 -> reg_below w1 w3.
Proof.
  intros [C1 [O1 K1]] [C2 [O2 K2]]. repeat split.
  - rewrite C2. exact C1.
  - rewrite O2. exact O1.
  - intros k Hk. destruct (K2 k Hk) as [Hk2 | Hk2].
    + apply K1. exact Hk2.
    + right. unfold enumerated in *. rewrite <- O1. exact Hk2.
Qed.

Lemma outside_restarted w w' :
  outside_heap w' = outside_heap w ->
  restarted_adapter w' = restarted_adapter w.
Proof. unfold outside_heap. intros [= _ _ _ _ -> _]. reflexivity. Qed.

Lemma register_adapter_returns (i : IfData) (w : World) :
  returns (register_adapter i) w
    (fun _ w' =>
       conf w' = conf w
       /\ os w' = os w
       /\ restarted_adapter w' = restarted_adapter w
       /\ IFACES w' = dict_set String.eqb (d_guid i) (next_loc w) (IFACES w)).
Proof.
  unfold register_adapter. wp. eapply returns_weaken;
    [apply new_interface_returns |].
  cbv beta. intros l w1 [-> [Hn [Hout [Ho Hh]]]]. unfold getobj. wp.
  rewrite Ho.
  destruct (updated_fields (conf w) (get_if_list (os w)) i NetworkInterface_init)
    as [_ [_ [_ Hg]]].
  rewrite Hg. wp. simpl.
  rewrite (outside_conf _ _ Hout), (outside_os _ _ Hout),
    (outside_IFACES _ _ Hout), (outside_restarted _ _ Hout).
  repeat split.
Qed.

Lemma get_windows_if_list_inv (extended : bool) (w w1 : World)
    (l : list IfData) :
  get_windows_if_list extended w = (Ret l, w1) ->
  w1 = w /\ map d_guid l = enumerated w.
Proof.
  unfold get_windows_if_list, enumerated, bind, gets, ret. simpl.
  destruct (GetAdaptersAddresses (os w)) as [adapters | e]; [| discriminate].
  intros [= <- <-]. split; [reflexivity |]. rewrite map_map. reflexivity.
Qed.

Lemma enumeration_returns (l : list IfData) (w : World) :
  returns (for_each register_adapter l) w
    (fun _ w' =>
       conf w' = conf w
       /\ os w' = os w
       /\ restarted_adapter w' = restarted_adapter w
       /\ forall k, dict_mem String.eqb k (IFACES w') = true ->
                    dict_mem String.eqb k (IFACES w) = true
                    \/ In k (map d_guid l)).
Proof.
  apply (returns_for_each register_adapter l
           (fun w' =>
              conf w' = conf w
              /\ os w' = os w
              /\ restarted_adapter w' = restarted_adapter w
              /\ forall k, dict_mem String.eqb k (IFACES w') = true ->
                           dict_mem String.eqb k (IFACES w) = true
                           \/ In k (map d_guid l))).
  - intros i w0 Hi [C [O [R K]]].
    eapply returns_weaken; [apply register_adapter_returns |].
    cbv beta. intros _ w1 [C1 [O1 [R1 I1]]].
    split; [congruence |]. split; [congruence |]. split; [congruence |].
    intros k Hk. rewrite I1, dict_mem_set in Hk.
    apply orb_true_iff in Hk. destruct Hk as [Hk | Hk].
    + right. apply String.eqb_eq in Hk. subst k. apply in_map. exact Hi.
    + apply K. exact Hk.
  - repeat split. intros k Hk. left. exact Hk.
Qed.

Lemma exec_cmd_run (command : string) (w : World) :
  _exec_cmd command w
  = (Ret (exec_output w command), set_executed (executed w ++ [command]) w).
Proof.
  unfold _exec_cmd, exec_output.
  destruct (Popen (os w) (List.length (executed w)) command). reflexivity.
Qed.

Lemma pcap_service_status_run (w w1 : World) (r : result bool) :
  pcap_service_status w = (r, w1) -> same_registry w w1.
Proof.
  unfold pcap_service_status, bind, gets, ret. simpl. rewrite exec_cmd_run.
  intros [= _ <-]. repeat split.
Qed.

Lemma pcap_service_start_run (askadmin : bool) (w w1 : World)
    (r : result bool) :
  pcap_service_start askadmin w = (r, w1) -> same_registry w w1.
Proof.
  unfold pcap_service_start, _pcap_service_control, bind, gets, ret. simpl.
  destruct (negb (truthy (prog_powershell (conf w)))).
  - intros [= _ <-]. repeat split.
  - rewrite exec_cmd_run. intros [= _ <-]. repeat split.
Qed.

Lemma ask_user_run (w w1 : World) (r : result bool) :
  _ask_user w = (r, w1) -> same_registry w w1.
Proof.
  unfold _ask_user, bind, gets, ret. simpl.
  destruct (negb (interactive (conf w))).
  - intros [= _ <-]. repeat split.
  - destruct (ask_loop (conf w) (stdin w)) as [r0 rest]. intros [= _ <-].
    repeat split.
Qed.

Lemma replace_loopback_run (w w1 : World) (r : result unit) :
  try_except
    (lo <- dev_from_name (LOOPBACK_NAME (conf w)) ;;
     modify (set_LOOPBACK_INTERFACE (Some lo)))
    ValueError (fun _ => ret tt) w = (r, w1) ->
  same_registry w w1.
Proof.
  unfold try_except, dev_from_name, bind, gets, modify, ret, raise. simpl.
  destruct (Py.next_such _ _); simpl; intros [= _ <-]; repeat split.
Qed.

Lemma load_cache_iflist_inv (w w' : World) :
  load_cache_iflist w = (Ret tt, w') ->
  for_each register_cached (cache_iflist (conf w)) w = (Ret tt, w').
Proof. unfold load_cache_iflist, bind, gets. simpl. intros E. exact E. Qed.

Lemma reg_below_same (w w1 w2 : World) :
  reg_below w w1 -> same_registry w1 w2 -> reg_below w w2.
Proof.
  intros [C [O K]] [C2 [O2 [I2 _]]]. repeat split.
  - rewrite C2. exact C.
  - rewrite O2. exact O.
  - rewrite I2. exact K.
Qed.

Lemma log_then {A} (r : log_record) (m : M A) (w : World) :
  (log r ;; m) w = m (set_logged (logged w ++ [r]) w).
Proof. reflexivity. Qed.

Lemma reg_below_logged (w w1 : World) (v : list log_record) :
  reg_below w w1 -> reg_below w (set_logged v w1).
Proof. intros [C [O K]]. repeat split; assumption. Qed.

Lemma reg_below_restarted (w w1 : World) (v : option bool) :
  reg_below w w1 -> reg_below w (set_restarted_adapter v w1).
Proof. intros [C [O K]]. repeat split; assumption. Qed.

Lemma load_body_ends (recur : M unit) (w w' : World) :
  prog_os_access (conf w) = true ->
  load_body recur w = (Ret tt, w') ->
  exists w0,
    reg_below w w0
    /\ (load_cache_iflist w0 = (Ret tt, w')
        \/ (recur w0 = (Ret tt, w')
            /\ restarted_adapter w0 = Some true
            /\ restarted_adapter w <> Some true)).
Proof.
  intros Hacc E. unfold load_body in E.
  apply bind_ret_inv in E. destruct E as [c [w1 [Ec E]]].
  injection Ec as <- <-. rewrite Hacc in E. simpl negb in E. cbv iota in E.
  apply bind_ret_inv in E. destruct E as [l [w1 [El E]]].
  apply get_windows_if_list_inv in El. destruct El as [-> Hl].
  apply bind_ret_inv in E. destruct E as [[] [w3 [Eloop E]]].
  pose proof (returns_elim _ _ _ _ _ (enumeration_returns l w) Eloop)
    as [C3 [O3 [R3 K3]]].
  rewrite Hl in K3.
  assert (B3 : reg_below w w3) by (repeat split; assumption).
  apply bind_ret_inv in E. destruct E as [d [w4 [Ed E]]].
  injection Ed as <- <-.
  destruct (dict_is_empty (IFACES w3) && use_winpcapy (conf w)).
  - apply bind_ret_inv in E. destruct E as [_detect [w5 [Es E]]].
    apply pcap_service_status_run in Es.
    pose proof (reg_below_same _ _ _ B3 Es) as B5.
    apply bind_ret_inv in E. destruct E as [r [w6 [Er E]]].
    injection Er as <- <-.
    destruct (negb _detect && negb _) eqn:Hcond.
    + rewrite log_then in E.
      apply bind_ret_inv in E. destruct E as [go [w7 [Eg E]]].
      assert (B7 : reg_below w w7).
      { destruct (negb (interactive (conf w))).
        - injection Eg as _ <-. apply reg_below_logged. exact B5.
        - apply ask_user_run in Eg.
          apply (reg_below_same _ _ _ (reg_below_logged _ _ _ B5) Eg). }
      destruct go.
      * apply bind_ret_inv in E. destruct E as [succeed [w8 [Est E]]].
        apply pcap_service_start_run in Est.
        pose proof (reg_below_same _ _ _ B7 Est) as B8.
        apply bind_ret_inv in E. destruct E as [[] [w9 [Em E]]].
        injection Em as <-.
        destruct succeed.
        -- rewrite log_then in E. eexists. split; [| right; split; [exact E |]].
           ++ apply reg_below_logged, reg_below_restarted. exact B8.
           ++ split; [reflexivity |]. intros Hr.
              destruct Es as [_ [_ [_ R5]]]. rewrite R5, R3, Hr in Hcond.
              rewrite andb_false_r in Hcond. discriminate.
        -- rewrite log_then in E. eexists. split; [| left; exact E].
           apply reg_below_logged, reg_below_restarted. exact B8.
      * rewrite log_then in E. eexists. split; [| left; exact E].
        apply reg_below_logged. exact B7.
    + rewrite log_then in E. eexists. split; [| left; exact E].
      apply reg_below_logged. exact B5.
  - apply bind_ret_inv in E. destruct E as [[] [w5 [Et E]]].
    rewrite <- C3 in Et. apply replace_loopback_run in Et.
    exists w5. split; [| left; exact E].
    apply (reg_below_same _ _ _ B3 Et).
Qed.

Lemma load_ends (w w' : World) :
  prog_os_access (conf w) = true ->
  load w = (Ret tt, w') ->
  exists w0, reg_below w w0 /\ load_cache_iflist w0 = (Ret tt, w').
Proof.
  intros Hacc E. unfold load in E.
  destruct (load_body_ends _ w w' Hacc E) as [w0 [B0 [E0 | [E0 [R0 _]]]]].
  - exists w0. split; assumption.
  - assert (Hacc0 : prog_os_access (conf w0) = true).
    { destruct B0 as [C0 _]. rewrite C0. exact Hacc. }
    destruct (load_body_ends _ w0 w' Hacc0 E0)
      as [w1 [B1 [E1 | [_ [_ NR]]]]].
    + exists w1. split; [apply (reg_below_trans _ _ _ B0 B1) | exact E1].
    + contradiction.
Qed.

Lemma bind_congr {A B} (m : M A) (k1 k2 : A -> M B) (w : World) :
  (forall a w1, m w = (Ret a, w1) -> k1 a w1 = k2 a w1) ->
  bind m k1 w = bind m k2 w.
Proof.
  intros Hk. rewrite !bind_run. destruct (m w) as [[a | e] w1].
  - apply Hk. reflexivity.
  - reflexivity.
Qed.

Lemma load_body_congr (r1 r2 : M unit) (w : World) :
  (forall w0, restarted_adapter w0 = Some true -> r1 w0 = r2 w0) ->
  load_body r1 w = load_body r2 w.
Proof.
  intros Hr. unfold load_body.
  apply bind_congr; intros c w1 _.
  destruct (negb (prog_os_access c)); [reflexivity |].
  apply bind_congr; intros l w2 _.
  apply bind_congr; intros [] w3 _.
  apply bind_congr; intros d w4 _.
  destruct (dict_is_empty d && use_winpcapy c); [| reflexivity].
  apply bind_congr; intros _detect w5 _.
  apply bind_congr; intros r w6 _.
  destruct (negb _detect && negb _); [| reflexivity].
  rewrite !log_then.
  apply bind_congr; intros go w7 _.
  destruct go; [| reflexivity].
  apply bind_congr; intros succeed w8 _.
  apply bind_congr; intros [] w9 Em.
  destruct succeed; [| reflexivity].
  rewrite !log_then. apply Hr. injection Em as <-. reflexivity.
Qed.

Lemma load_body_restarted (r1 r2 : M unit) (w : World) :
  restarted_adapter w = Some true -> load_body r1 w = load_body r2 w.
Proof.
  intros Hr. unfold load_body.
  apply bind_congr; intros c w1 Ec. injection Ec as <- <-.
  destruct (negb (prog_os_access (conf w))); [reflexivity |].
  apply bind_congr; intros l w2 El.
  apply get_windows_if_list_inv in El. destruct El as [-> _].
  apply bind_congr; intros [] w3 Eloop.
  pose proof (returns_elim _ _ _ _ _ (enumeration_returns l w) Eloop)
    as [_ [_ [R3 _]]].
  apply bind_congr; intros d w4 Ed. injection Ed as <- <-.
  destruct (dict_is_empty (IFACES w3) && use_winpcapy (conf w));
    [| reflexivity].
  apply bind_congr; intros _detect w5 Es.
  apply pcap_service_status_run in Es. destruct Es as [_ [_ [_ R5]]].
  apply bind_congr; intros r w6 Er. injection Er as <- <-.
  rewrite R5, R3, Hr, andb_false_r. reflexivity.
Qed.

(** [load] is the function that the source defines by recursion. *)
Lemma load_unfold (w : World) : load w = load_body load w.
Proof.
  unfold load. apply load_body_congr. intros w0 Hr.
  apply load_body_restarted. exact Hr.
Qed.

(** The last loop of [load] returns. *)
Lemma load_cache_iflist_returns (w : World) :
  returns load_cache_iflist w (fun _ _ => True).
Proof.
  unfold load_cache_iflist. wp.
  eapply returns_weaken.
  - apply (returns_for_each register_cached (cache_iflist (conf w))
             (fun _ => True)); [| exact I].
    intros [nm [g ips]] w0 _ _.
    eapply returns_weaken; [apply register_cached_returns |].
    cbv beta. intros; exact I.
  - cbv beta. intros; exact I.
Qed.

(** Without a terminal to ask, and when the adapters can be enumerated,
    [load] returns. *)
Lemma load_body_returns (recur : M unit) (w : World)
    (adapters : list RawAdapter) :
  prog_os_access (conf w) = true ->
  interactive (conf w) = false ->
  GetAdaptersAddresses (os w) = Ret adapters ->
  (forall w0, conf w0 = conf w -> os w0 = os w ->
              returns recur w0 (fun _ _ => True)) ->
  returns (load_body recur) w (fun _ _ => True).
Proof.
  intros Hacc Hint Hen Hrec. unfold load_body. wp.
  rewrite Hacc. simpl negb. cbv iota. wp.
  unfold get_windows_if_list. wp.
  apply (returns_run _ w adapters w); [rewrite <- Hen; reflexivity |]. wp.
  eapply returns_weaken; [apply enumeration_returns |].
  cbv beta. intros _ w3 [C3 [O3 _]]. wp.
  destruct (dict_is_empty (IFACES w3) && use_winpcapy (conf w)).
  - unfold pcap_service_status. wp. apply returns_exec_cmd. wp.
    destruct (negb _ && negb _).
    + unfold log at 1. wp. rewrite Hint. simpl negb. cbv iota. wp.
      unfold pcap_service_start, _pcap_service_control. wp.
      destruct (negb (truthy _)).
      * wp. unfold log. wp. apply load_cache_iflist_returns.
      * wp. apply returns_exec_cmd. wp.
        destruct (negb (Py.contains _ _)).
        -- unfold log. wp. apply Hrec; simpl; assumption.
        -- unfold log. wp. apply load_cache_iflist_returns.
    + unfold log. wp. apply load_cache_iflist_returns.
  - wp. match goal with
        | |- returns (try_except ?m ?c ?h) ?w0 ?Q =>
            destruct (try_except m c h w0) as [[[] | e] w5] eqn:Et
        end.
    + eapply returns_run; [exact Et |]. apply load_cache_iflist_returns.
    + exfalso. revert Et.
      unfold try_except, dev_from_name, bind, gets, modify, ret, raise.
      simpl. destruct (Py.next_such _ _); simpl; discriminate.
Qed.

Lemma load_returns (w : World) (adapters : list RawAdapter) :
  prog_os_access (conf w) = true ->
  interactive (conf w) = false ->
  GetAdaptersAddresses (os w) = Ret adapters ->
  exists w', load w = (Ret tt, w').
Proof.
  intros Hacc Hint Hen.
  assert (R : returns load w (fun _ _ => True)).
  { unfold load.
    apply (load_body_returns _ w adapters Hacc Hint Hen).
    intros w0 C0 O0.
    apply (load_body_returns _ w0 adapters); try congruence.
    intros w1 _ _. apply returns_ret. exact I. }
  destruct R as [[] [w' [E _]]]. exists w'. exact E.
Qed.

(** C9, as the code has it.  Let [load] return on a host with operating
    system access.  A cache entry whose normalised identifier is not a key of
    the registry, is not the identifier of an enumerated adapter and is not
    the normalised identifier of an earlier cache entry gets an interface in
    the registry under that identifier, with index -1, the logical name as
    name and the logical name after ["[Unknown] "] as description.
    [dev_from_name] with the logical name then returns an interface that has
    it as name or description, and returns the made-up interface when no
    other interface of the registry has it as name or description. *)
Theorem load_synthesizes_cached (w w' : World)
    (before after : list (string * (string * list string)))
    (nm g : string) (ips : list string) :
  prog_os_access (conf w) = true ->
  load w = (Ret tt, w') ->
  cache_iflist (conf w) = (before ++ (nm, (g, ips)) :: after)%list ->
  dict_mem String.eqb (cache_guid g) (IFACES w) = false ->
  ~ In (cache_guid g) (enumerated w) ->
  (forall e, In e before -> cache_guid (fst (snd e)) <> cache_guid g) ->
  exists iface,
    dict_get String.eqb (cache_guid g) (IFACES w') = Some iface
    /\ win_index (heap w' iface) = Some (-1)
    /\ description (heap w' iface) = Some ("[Unknown] " ++ nm)%string
    /\ name (heap w' iface) = Some nm
    /\ exists found,
         dev_from_name nm w' = (Ret found, w')
         /\ (name (heap w' found) = Some nm
             \/ description (heap w' found) = Some nm)
         /\ ((forall other,
                 In other (itervalues (IFACES w')) -> other <> iface ->
                 name (heap w' other) <> Some nm
                 /\ description (heap w' other) <> Some nm) ->
             found = iface).
Proof.
  intros Hacc E Hcache Hreg Henum Hbefore.
  destruct (load_ends w w' Hacc E) as [w0 [[C0 [O0 K0]] E0]].
  apply load_cache_iflist_inv in E0. rewrite C0, Hcache in E0.
  assert (Hmem : dict_mem String.eqb (cache_guid g) (IFACES w0) = false).
  { destruct (dict_mem String.eqb (cache_guid g) (IFACES w0)) eqn:Hm;
      [| reflexivity].
    destruct (K0 _ Hm) as [Hk | Hk]; [congruence | contradiction]. }
  destruct (returns_elim _ _ _ _ _
              (cache_loop_synthesizes before after nm g ips w0 Hmem Hbefore) E0)
    as [iface [Hget [_ [Hn [Hd [Hw _]]]]]].
  exists iface. repeat (split; [assumption |]).
  destruct (dev_from_name_found w' nm iface (dict_get_in _ _ _ Hget) Hn)
    as [found [Ef [_ [Hp Hu]]]].
  exists found. repeat split; assumption.
Qed.

(** ** Routing tables *)

Lemma readonly_ipv4_builder (w : World) : readonly (ipv4_builder w).
Proof.
  unfold ipv4_builder. destruct (WINDOWS_XP (conf w));
    [apply readonly_read_routes_c_v1 | apply readonly_read_routes_c].
Qed.

Lemma read_routes_run (w : World) :
  read_routes w
  = match fst (ipv4_builder w w) with
    | Ret [] =>
        (Ret [], set_logged (logged w ++ [Warn_no_default_ipv4_routes]) w)
    | Ret routes => (Ret routes, w)
    | Raise e =>
        (Ret [], set_logged (logged w ++ [Warn_error_building false e]) w)
    end.
Proof.
  unfold read_routes, try_except_Exception. rewrite bind_run.
  change (gets conf w) with (Ret (conf w), w). cbv iota. rewrite bind_run.
  rewrite bind_run. fold (ipv4_builder w).
  rewrite (readonly_run _ w (readonly_ipv4_builder w)).
  destruct (fst (ipv4_builder w w)) as [[| r rs] | e]; reflexivity.
Qed.

Lemma read_routes6_run (w : World) :
  read_routes6 w
  = if WINDOWS_XP (conf w) then (Ret [], w)
    else
      match fst (_read_routes_c true w) with
      | Ret routes => (Ret routes, w)
      | Raise e =>
          (Ret [], set_logged (logged w ++ [Warn_error_building true e]) w)
      end.
Proof.
  unfold read_routes6, try_except_Exception. rewrite bind_run.
  change (gets conf w) with (Ret (conf w), w). cbv iota.
  destruct (WINDOWS_XP (conf w)); [reflexivity |].
  rewrite (readonly_run _ w (readonly_read_routes_c true)).
  destruct (fst (_read_routes_c true w)); reflexivity.
Qed.

(** C1.  The IPv4 table and the IPv6 table are made of the rows of the
    forwarding table in their order, every route from a row of its own:
    destination, netmask and next hop of the route are those of this row,
    its interface is the one that the interface index of the row resolves
    to, and its metric is the raw metric of this same row plus the metric
    the interface has for the family, [ipv4_metric] for the IPv4 table and
    [ipv6_metric] for the IPv6 table. *)
Theorem route_metric_is_sum (w : World) :
  (forall routes,
      fst (read_routes w) = Ret routes ->
      if WINDOWS_XP (conf w)
      then table_of (route_of_row_v1 w) (forward_rows_v1 w) routes
      else table_of (route_of_row w false) (forward_rows w AF_INET) routes)
  /\ (forall routes,
        fst (read_routes6 w) = Ret routes ->
        table_of (route_of_row w true) (forward_rows w AF_INET6) routes).
Proof.
  split; intros routes E.
  - rewrite read_routes_run in E. unfold ipv4_builder in E.
    destruct (WINDOWS_XP (conf w)).
    + destruct (fst (_read_routes_c_v1 w)) as [rs |] eqn:Eb.
      * assert (rs = routes) by (destruct rs; injection E as <-; reflexivity).
        subst rs. apply read_routes_c_v1_table. exact Eb.
      * injection E as <-. apply table_of_none.
    + destruct (fst (_read_routes_c false w)) as [rs |] eqn:Eb.
      * assert (rs = routes) by (destruct rs; injection E as <-; reflexivity).
        subst rs. apply (read_routes_c_table w false). exact Eb.
      * injection E as <-. apply table_of_none.
  - rewrite read_routes6_run in E.
    destruct (WINDOWS_XP (conf w)).
    + injection E as <-. apply table_of_none.
    + destruct (fst (_read_routes_c true w)) as [rs |] eqn:Eb.
      * injection E as <-. apply (read_routes_c_table w true). exact Eb.
      * injection E as <-. apply table_of_none.
Qed.

(** C2.  [_append_route6] leaves the table as it is for the prefix [::] on
    the loopback interface, appends the route with the candidate set
    [["::1"]] for any other prefix on the loopback interface, and leaves the
    table as it is for another interface when the selection over the
    addresses of that interface is empty.  So every route of the IPv6 table
    on the loopback interface has a prefix other than [::] and the candidate
    set [["::1"]], and every other route has the non-empty candidate set
    that the selection computes from the addresses of its interface. *)
Theorem route6_candidate_sources (w : World) :
  (forall routes dpref dp nh iface lifaddr metric,
      is_loopback w iface = true -> dpref = "::" ->
      _append_route6 routes dpref dp nh iface lifaddr metric w
      = (Ret routes, w))
  /\ (forall routes dpref dp nh iface lifaddr metric,
        is_loopback w iface = true -> dpref <> "::" ->
        _append_route6 routes dpref dp nh iface lifaddr metric w
        = (Ret (routes ++ [Route6 dpref dp nh iface ["::1"] metric])%list, w))
  /\ (forall routes dpref dp nh iface lifaddr metric,
        is_loopback w iface = false ->
        construct_source_candidate_set dpref dp
          (filter (fun x => Nat.eqb (snd x) iface) lifaddr) = [] ->
        _append_route6 routes dpref dp nh iface lifaddr metric w
        = (Ret routes, w))
  /\ (forall routes r,
        fst (read_routes6 w) = Ret routes -> In r routes ->
        exists lifaddr,
          fst (in6_getifaddr w) = Ret lifaddr /\ route6_sources w lifaddr r).
Proof.
  unfold is_loopback. repeat split.
  - intros routes dpref dp nh iface lifaddr metric Hlo ->.
    unfold _append_route6, getobj, bind, gets, ret. simpl. rewrite Hlo.
    reflexivity.
  - intros routes dpref dp nh iface lifaddr metric Hlo Hd.
    unfold _append_route6, getobj, bind, gets, ret. simpl. rewrite Hlo.
    apply String.eqb_neq in Hd. rewrite Hd. reflexivity.
  - intros routes dpref dp nh iface lifaddr metric Hlo Hc.
    unfold _append_route6, getobj, bind, gets, ret. simpl. rewrite Hlo, Hc.
    reflexivity.
  - intros routes r E Hr. rewrite read_routes6_run in E.
    destruct (WINDOWS_XP (conf w)).
    + injection E as <-. destruct Hr.
    + destruct (fst (_read_routes_c true w)) as [rs |] eqn:Eb.
      * injection E as <-.
        apply (read_routes_c_sources w _ Eb r Hr).
      * injection E as <-. destruct Hr.
Qed.

(** C6, as the code has it.  [read_routes] and [read_routes6] always return
    a table.  When the builder of the IPv4 table raises [e], [read_routes]
    returns the empty table and logs the one warning that names the IPv4
    table and [e]; when the builder returns an empty table, it logs the
    warning that no default IPv4 route was found.  When the builder of the
    IPv6 table raises [e], [read_routes6] returns the empty table and logs
    the one warning that names the IPv6 table and [e]. *)
Theorem read_routes_contain_failures (w : World) :
  (exists routes w', read_routes w = (Ret routes, w'))
  /\ (exists routes w', read_routes6 w = (Ret routes, w'))
  /\ (forall e,
        fst (ipv4_builder w w) = Raise e ->
        read_routes w
        = (Ret [], set_logged (logged w ++ [Warn_error_building false e]) w))
  /\ (fst (ipv4_builder w w) = Ret [] ->
      read_routes w
      = (Ret [], set_logged (logged w ++ [Warn_no_default_ipv4_routes]) w))
  /\ (forall e,
        WINDOWS_XP (conf w) = false ->
        fst (_read_routes_c true w) = Raise e ->
        read_routes6 w
        = (Ret [], set_logged (logged w ++ [Warn_error_building true e]) w)).
Proof.
  rewrite read_routes_run, read_routes6_run. repeat split.
  - destruct (fst (ipv4_builder w w)) as [[| r rs] | e];
      eexists; eexists; reflexivity.
  - destruct (WINDOWS_XP (conf w)); [| destruct (fst (_read_routes_c true w))];
      eexists; eexists; reflexivity.
  - intros e ->. reflexivity.
  - intros ->. reflexivity.
  - intros e -> ->. reflexivity.
Qed.

(** * Properties of the rest of the module *)

(** ** Capture service control *)

Lemma pcap_service_control_run (action : string) (askadmin : bool) (w : World) :
  _pcap_service_control action askadmin w
  = if truthy (prog_powershell (conf w)) then
      let run := service_command (conf w) action askadmin in
      (Ret (negb (Py.contains "error" (Py.lower (exec_output w run)))),
       set_executed (executed w ++ [run]) w)
    else (Ret false, w).
Proof.
  unfold _pcap_service_control. rewrite bind_run. simpl.
  destruct (truthy (prog_powershell (conf w))); simpl; [| reflexivity].
  rewrite bind_run, exec_cmd_run. reflexivity.
Qed.

(** X1.  Without powershell, [pcap_service_start] and [pcap_service_stop]
    return [False] and run no command.  With it, each runs one command,
    [sc start] or [sc stop] followed by the name of the service, inside the
    elevation wrapper exactly when [askadmin] is set, and returns [True]
    exactly when the command exits with code 0 and its output does not hold
    [error], in any case of the letters. *)
Theorem pcap_service_start_stop (w : World) (askadmin : bool) :
  (truthy (prog_powershell (conf w)) = false ->
   pcap_service_start askadmin w = (Ret false, w)
   /\ pcap_service_stop askadmin w = (Ret false, w))
  /\ (truthy (prog_powershell (conf w)) = true ->
      controls_service (pcap_service_start askadmin) w "sc start" askadmin
      /\ controls_service (pcap_service_stop askadmin) w "sc stop" askadmin).
Proof.
  unfold controls_service, pcap_service_start, pcap_service_stop.
  rewrite !pcap_service_control_run. split; intros Hp; rewrite Hp.
  - split; reflexivity.
  - cbv zeta. unfold exec_output. split.
    + destruct (Popen (os w) (List.length (executed w))
                  (service_command (conf w) "sc start" askadmin)) as [rc out].
      destruct (rc =? 0); reflexivity.
    + destruct (Popen (os w) (List.length (executed w))
                  (service_command (conf w) "sc stop" askadmin)) as [rc out].
      destruct (rc =? 0); reflexivity.
Qed.

(** X2.  [pcap_service_status] runs the one command
    [sc query <service> | findstr STATE] and returns [True] exactly when the
    command exits with code 0 and its output holds [running], in any case of
    the letters: a query that fails reports a service that is not running. *)
Theorem pcap_service_status_query (w : World) :
  let query :=
    ("sc query " ++ pcap_service_name (conf w) ++ " | findstr STATE")%string in
  let '(returncode, outp) := Popen (os w) (List.length (executed w)) query in
  pcap_service_status w
  = (Ret ((returncode =? 0) && Py.contains "running" (Py.lower outp)),
     set_executed (executed w ++ [query]) w).
Proof.
  intros query.
  assert (E : pcap_service_status w
              = (Ret (Py.contains "running" (Py.lower (exec_output w query))),
                 set_executed (executed w ++ [query]) w)).
  { unfold pcap_service_status. rewrite bind_run. unfold gets at 1. cbv iota beta.
    rewrite bind_run, exec_cmd_run. reflexivity. }
  rewrite E. unfold exec_output.
  destruct (Popen (os w) (List.length (executed w)) query) as [rc out].
  destruct (rc =? 0); reflexivity.
Qed.

(** ** The operations of the wireless layer *)

Lemma keeps_ret {T A} (f : World -> T) (a : A) : keeps f (ret a).
Proof. intros w. reflexivity. Qed.

Lemma keeps_raise {T A} (f : World -> T) (e : exn) : keeps f (@raise A e).
Proof. intros w. reflexivity. Qed.

Lemma keeps_gets {T A} (f : World -> T) (g : World -> A) : keeps f (gets g).
Proof. intros w. reflexivity. Qed.

Lemma keeps_bind {T A B} (f : World -> T) (m : M A) (k : A -> M B) :
  keeps f m -> (forall a, keeps f (k a)) -> keeps f (bind m k).
Proof.
  intros Hm Hk w. unfold bind. specialize (Hm w).
  destruct (m w) as [[a | e] w']; simpl in Hm.
  - rewrite (Hk a w'). exact Hm.
  - exact Hm.
Qed.

Lemma keeps_try_except {T A} (f : World -> T) (m : M A) c (h : exn -> M A) :
  keeps f m -> (forall e, keeps f (h e)) -> keeps f (try_except m c h).
Proof.
  intros Hm Hh w. unfold try_except. specialize (Hm w).
  destruct (m w) as [[a | e] w']; simpl in Hm.
  - exact Hm.
  - destruct (isinstance_exn e c); [rewrite (Hh e w') |]; exact Hm.
Qed.

Lemma keeps_modify {T} (f : World -> T) (g : World -> World) :
  (forall w, f (g w) = f w) -> keeps f (modify g).
Proof. intros Hg w. apply Hg. Qed.

Lemma keeps_run {T A} (f : World -> T) (m : M A) (w w1 : World)
    (r : result A) :
  keeps f m -> m w = (r, w1) -> f w1 = f w.
Proof. intros Hk E. specialize (Hk w). rewrite E in Hk. exact Hk. Qed.

Lemma check_npcap_run (self : loc) (w : World) (g : string) :
  use_npcap (conf w) = true ->
  guid (heap w self) = Some g ->
  exists w1,
    _check_npcap_requirement self w
    = ((if dot11_capable w self then Ret tt else Raise NoRaw80211), w1)
    /\ frame self w w1
    /\ raw80211 (heap w1 self) = Some (dot11_capable w self)
    /\ cache_mode (heap w1 self) = cache_mode (heap w self)
    /\ guid (heap w1 self) = Some g.
Proof.
  intros Hnp Hg.
  unfold _check_npcap_requirement, dot11_capable, getobj, setobj, bind, gets,
    modify, ret, raise.
  rewrite Hnp. simpl. rewrite Hg.
  destruct (raw80211 (heap w self)) as [b |] eqn:Hraw.
  - rewrite Hraw. exists w. destruct b;
      (split; [reflexivity |]); (split; [apply frame_refl |]);
      (split; [exact Hraw |]); (split; [reflexivity | exact Hg]).
  - destruct (Dot11Adapters (os w)) as [a |]; simpl; rewrite upd_same; simpl;
      [destruct (Py.contains (Py.lower g) (Py.lower a)) |];
      eexists; (split; [reflexivity |]); (split; [apply frame_set_heap |]);
      simpl; rewrite upd_same; simpl; (split; [reflexivity |]);
      (split; [reflexivity | exact Hg]).
Qed.

Lemma check_npcap_known (self : loc) (w : World) (b : bool) :
  use_npcap (conf w) = true ->
  raw80211 (heap w self) = Some b ->
  _check_npcap_requirement self w
  = ((if b then Ret tt else Raise NoRaw80211), w).
Proof.
  intros Hnp Hraw.
  unfold _check_npcap_requirement, getobj, bind, gets, ret, raise.
  rewrite Hnp. simpl. rewrite Hraw. simpl. rewrite Hraw.
  destruct b; reflexivity.
Qed.

(** X3.  With Npcap, [_check_npcap_requirement] on an interface that has
    an identifier returns when the interface can do raw 802.11 and raises
    the [Scapy_Exception] otherwise; it changes nothing else than the
    interface, on which it records the answer.  From then on the answer is
    the recorded one: a later call gives the same outcome and leaves the
    world as it is, whatever the registry value of the operating system
    says by then. *)
Theorem check_npcap_requirement_decided_once (w : World) (self : loc)
    (g : string) (capable : bool) :
  use_npcap (conf w) = true ->
  guid (heap w self) = Some g ->
  dot11_capable w self = capable ->
  let outcome := if capable then Ret tt else Raise NoRaw80211 in
  exists w1,
    _check_npcap_requirement self w = (outcome, w1)
    /\ frame self w w1
    /\ raw80211 (heap w1 self) = Some capable
    /\ _check_npcap_requirement self w1 = (outcome, w1)
    /\ forall w2,
         use_npcap (conf w2) = true ->
         heap w2 self = heap w1 self ->
         _check_npcap_requirement self w2 = (outcome, w2).
Proof.
  intros Hnp Hg <- outcome.
  destruct (check_npcap_run self w g Hnp Hg) as [w1 [E [Hf [Hraw _]]]].
  assert (Hagain : forall w2,
             use_npcap (conf w2) = true ->
             heap w2 self = heap w1 self ->
             _check_npcap_requirement self w2 = (outcome, w2)).
  { intros w2 Hnp2 Hh. apply check_npcap_known; [exact Hnp2 |].
    rewrite Hh. exact Hraw. }
  exists w1. split; [exact E |]. split; [exact Hf |]. split; [exact Hraw |].
  split; [| exact Hagain]. apply Hagain; [| reflexivity].
  rewrite (outside_conf _ _ (frame_outside _ _ _ Hf)). exact Hnp.
Qed.




Lemma checked_refused {A} (self : loc) (k : M A) (w : World) :
  (use_npcap (conf w) = false ->
   refused (_check_npcap_requirement self ;; k) w RequiresNpcap)
  /\ (forall g,
        use_npcap (conf w) = true ->
        guid (heap w self) = Some g ->
        dot11_capable w self = false ->
        refused (_check_npcap_requirement self ;; k) w NoRaw80211).
Proof.
  split.
  - intros Hnp. exists w. split; [| split; reflexivity].
    unfold _check_npcap_requirement. rewrite !bind_run. unfold gets at 1.
    cbv iota beta. rewrite Hnp. reflexivity.
  - intros g Hnp Hg Hcap.
    destruct (check_npcap_run self w g Hnp Hg) as [w1 [E [Hf _]]].
    rewrite Hcap in E. pose proof (frame_outside _ _ _ Hf) as Ho.
    exists w1. rewrite bind_run, E. split; [reflexivity |].
    split; [exact (outside_executed _ _ Ho) | exact (outside_logged _ _ Ho)].
Qed.

Lemma setmonitor_refused (self : loc) (enable : bool) (w : World) (e : exn) :
  (forall m, refused (setmode self m) w e) ->
  refused (setmonitor self enable) w e.
Proof.
  intros Hm. unfold setmonitor.
  destruct enable;
    [destruct (Hm (PyStr "monitor")) as [w1 [E Hk]]
    | destruct (Hm (PyStr "managed")) as [w1 [E Hk]]];
    exists w1; (split; [| exact Hk]); rewrite !bind_run, E; reflexivity.
Qed.

(** X4.  [mode], [modulation], [setmode], [setchannel], [setfrequence],
    [setmodulation] and [setmonitor] raise the [OSError] when Npcap is not
    in use, and the [Scapy_Exception] when the interface cannot do raw
    802.11; in both cases no command has been run and nothing logged. *)
Theorem wireless_needs_raw80211 (w : World) (self : loc) :
  (use_npcap (conf w) = false -> wireless_refused self w RequiresNpcap)
  /\ (forall g,
        use_npcap (conf w) = true ->
        guid (heap w self) = Some g ->
        dot11_capable w self = false ->
        wireless_refused self w NoRaw80211).
Proof.
  split.
  - intros Hnp. unfold wireless_refused.
    repeat split; intros;
      try apply setmonitor_refused; intros;
      apply (proj1 (checked_refused self _ w) Hnp).
  - intros g Hnp Hg Hcap. unfold wireless_refused.
    repeat split; intros;
      try apply setmonitor_refused; intros;
      apply (proj2 (checked_refused self _ w) g Hnp Hg Hcap).
Qed.

Lemma keeps_setobj {T} (f : World -> T) (self : loc) g :
  (forall w h n, f (set_heap h n w) = f w) -> keeps f (setobj self g).
Proof. intros Hf w. apply Hf. Qed.

Lemma keeps_logged_exec_cmd (command : string) : keeps logged (_exec_cmd command).
Proof.
  intros w. unfold _exec_cmd.
  destruct (Popen (os w) (List.length (executed w)) command). reflexivity.
Qed.

Ltac kp_step :=
  lazymatch goal with
  | |- keeps _ (ret _) => apply keeps_ret
  | |- keeps _ (raise _) => apply keeps_raise
  | |- keeps _ (gets _) => apply keeps_gets
  | |- keeps _ (getobj _) => apply keeps_gets
  | |- keeps _ (setobj _ _) => apply keeps_setobj; reflexivity
  | |- keeps _ (bind _ _) => apply keeps_bind; [| intros ?]
  | |- keeps _ (try_except _ _ _) => apply keeps_try_except; [| intros ?]
  | |- keeps logged (_exec_cmd _) => apply keeps_logged_exec_cmd
  | |- keeps _ (match ?x with _ => _ end) => destruct x
  end.

Ltac kp := repeat kp_step.

Lemma keeps_logged_check (self : loc) :
  keeps logged (_check_npcap_requirement self).
Proof. unfold _check_npcap_requirement. kp. Qed.

Lemma keeps_logged_setmode (self : loc) (m : int_or_str) :
  keeps logged (setmode self m).
Proof.
  unfold setmode, _npcap_set, guid_slice.
  pose proof (keeps_logged_check self) as Hc. kp. exact Hc.
Qed.

(** X6.  [setmonitor] logs the helper error exactly when it returns
    [False]; when it returns [True] or raises, it logs nothing. *)
Theorem setmonitor_logs_failure (w w1 : World) (self : loc) (enable : bool)
    (r : result bool) :
  setmonitor self enable w = (r, w1) ->
  logged w1
  = (logged w
     ++ match r with
        | Ret false => [Error_wlanhelper]
        | _ => []
        end)%list.
Proof.
  intros E. unfold setmonitor in E. rewrite bind_run in E.
  destruct enable; rewrite bind_run in E.
  - pose proof (keeps_logged_setmode self (PyStr "monitor") w) as Hk.
    destruct (setmode self (PyStr "monitor") w) as [[res | e] w0];
      simpl in Hk.
    + unfold setobj, log, modify, bind, ret in E. simpl in E.
      destruct res; simpl in E; injection E as <- <-; simpl;
        rewrite Hk, ?app_nil_r; reflexivity.
    + injection E as <- <-. rewrite Hk, app_nil_r. reflexivity.
  - pose proof (keeps_logged_setmode self (PyStr "managed") w) as Hk.
    destruct (setmode self (PyStr "managed") w) as [[res | e] w0];
      simpl in Hk.
    + unfold setobj, log, modify, bind, ret in E. simpl in E.
      destruct res; simpl in E; injection E as <- <-; simpl;
        rewrite Hk, ?app_nil_r; reflexivity.
    + injection E as <- <-. rewrite Hk, app_nil_r. reflexivity.
Qed.

(** X7.  When [ismonitor] returns, a second call returns the same flag
    and leaves the world as it is: the helper is asked at most once. *)
Theorem ismonitor_settles (w w1 : World) (self : loc) (b : bool) :
  ismonitor self w = (Ret b, w1) ->
  ismonitor self w1 = (Ret b, w1).
Proof.
  intros E.
  destruct (cache_mode (heap w self)) as [b0 |] eqn:Hc.
  { rewrite (ismonitor_cached self w b0 Hc) in E. injection E as <- <-.
    apply ismonitor_cached. exact Hc. }
  destruct (use_npcap (conf w)) eqn:Hnp.
  2: { exfalso. revert E.
       unfold ismonitor, mode, _check_npcap_requirement, try_except, getobj,
         bind, gets, ret, raise.
       simpl. rewrite Hc, Hnp. simpl. discriminate. }
  revert E.
  unfold ismonitor at 1, mode, try_except. rewrite bind_run.
  unfold gets at 1. cbv iota beta. rewrite bind_run.
  unfold getobj, gets at 1. cbv iota beta. rewrite Hc, bind_run.
  rewrite (bind_run (_check_npcap_requirement self)).
  destruct (_check_npcap_requirement self w) as [[[] | e] w0] eqn:Echeck.
  - (* the requirement holds: the mode is read and cached *)
    destruct (guid (heap w0 self)) as [g |] eqn:Hg0.
    + destruct (npcap_get_returns self "mode" w0 g Hg0)
        as [out [w2 [Eg _]]].
      rewrite Eg. unfold setobj, modify, bind, ret. intros [= <- <-].
      apply ismonitor_cached. simpl. rewrite upd_same. reflexivity.
    + assert (Eg : _npcap_get self "mode" w0 = (Raise NoneOperand, w0)).
      { unfold _npcap_get, guid_slice, getobj, bind, gets, raise. simpl.
        rewrite Hg0. reflexivity. }
      rewrite Eg. simpl. discriminate.
  - (* the requirement fails *)
    destruct (isinstance_exn e Scapy_Exception) eqn:Hcls; [| discriminate].
    intros [= <- <-].
    assert (Hw0 : cache_mode (heap w0 self) = None
                  /\ use_npcap (conf w0) = true
                  /\ raw80211 (heap w0 self) = Some false).
    { revert Echeck.
      unfold _check_npcap_requirement, getobj, setobj, bind, gets, modify,
        ret, raise.
      rewrite Hnp. simpl.
      destruct (raw80211 (heap w self)) as [[|] |] eqn:Hr; simpl.
      - rewrite Hr. discriminate.
      - rewrite Hr. intros [= _ <-]. repeat split; assumption.
      - destruct (Dot11Adapters (os w)) as [a |];
          [destruct (guid (heap w self)) as [g |] |]; simpl;
          rewrite ?upd_same; simpl.
        + destruct (Py.contains (Py.lower g) (Py.lower a));
            [discriminate |].
          intros [= _ <-]. simpl. rewrite upd_same. simpl.
          repeat split; assumption.
        + intros [= <- _]. discriminate Hcls.
        + intros [= _ <-]. simpl. rewrite upd_same. simpl.
          repeat split; assumption. }
    destruct Hw0 as [Hc0 [Hnp0 Hraw0]].
    unfold ismonitor, mode, try_except. rewrite bind_run.
    unfold gets at 1. cbv iota beta. rewrite bind_run.
    unfold getobj, gets at 1. cbv iota beta. rewrite Hc0, bind_run.
    rewrite (bind_run (_check_npcap_requirement self)).
    rewrite (check_npcap_known self w0 false Hnp0 Hraw0). reflexivity.
Qed.

(** ** Opening a capture *)

Lemma pcapname_interface_run (self : loc) (w : World) :
  pcapname (IsInterface self) w
  = (Ret (if invalid (heap w self) then None else pcap_name (heap w self)), w).
Proof.
  unfold pcapname, is_invalid, getobj, bind, gets, ret. simpl.
  destruct (invalid (heap w self)); reflexivity.
Qed.

Lemma readonly_dev_from_name nm : readonly (dev_from_name nm).
Proof. unfold dev_from_name. ro. Qed.

Lemma readonly_pcapname dev : readonly (pcapname dev).
Proof.
  pose proof readonly_dev_from_name.
  unfold pcapname, is_invalid. destruct dev; ro.
Qed.

Lemma pcapname_name_run (nm : string) (w : World) :
  pcapname (IsName nm) w
  = (match fst (dev_from_name nm w) with
     | Ret iface => Ret (pcap_name (heap w iface))
     | Raise e =>
         if isinstance_exn e ValueError && use_pcap (conf w) then Ret None
         else Raise e
     end, w).
Proof.
  unfold pcapname, try_except. rewrite bind_run. unfold gets at 1.
  cbv iota beta. rewrite bind_run.
  rewrite (readonly_run _ w (readonly_dev_from_name nm)).
  destruct (fst (dev_from_name nm w)) as [iface | e].
  - reflexivity.
  - simpl fst. cbv iota beta.
    destruct (isinstance_exn e ValueError); [| reflexivity].
    destruct (use_pcap (conf w)); reflexivity.
Qed.

(** X8.  Without Npcap, [open_pcap] calls the original [open_pcap] with
    the capture-device name that [pcapname] gives and with the [monitor]
    option it was given; it raises what [pcapname] raises, and changes
    nothing in the world: no command is run. *)
Theorem open_pcap_without_npcap (w : World) (iface : iface_or_name)
    (monitor : option bool) :
  use_npcap (conf w) = false ->
  open_pcap iface monitor w
  = (match fst (pcapname iface w) with
     | Ret iface_pcap_name => Ret (iface_pcap_name, monitor)
     | Raise e => Raise e
     end, w).
Proof.
  intros Hnp. unfold open_pcap. rewrite bind_run. unfold gets at 1.
  cbv iota beta. rewrite bind_run. destruct iface as [self | nm].
  - rewrite pcapname_interface_run. simpl fst. cbv iota beta.
    rewrite bind_run. unfold ret at 1. cbv iota beta.
    rewrite Hnp. reflexivity.
  - rewrite pcapname_name_run. simpl fst.
    pose proof (readonly_run _ w (readonly_dev_from_name nm)) as Hd.
    destruct (fst (dev_from_name nm w)) as [l | e] eqn:Ef.
    + destruct (pcap_name (heap w l)) as [p |].
      * rewrite !bind_run, Hd. unfold ret at 1. cbv iota beta.
        rewrite Hnp. reflexivity.
      * reflexivity.
    + destruct (isinstance_exn e ValueError && use_pcap (conf w));
        reflexivity.
Qed.

(** X9.  With Npcap and an interface whose mode is cached, [open_pcap]
    without a [monitor] option passes the cached mode as the option, and
    with the option equal to the cached mode passes it on; in both cases the
    world stays as it is.  With the other value it calls [setmonitor] first
    and passes the requested value, whatever [setmonitor] returned. *)
Theorem open_pcap_follows_mode (w : World) (self : loc) (b : bool) :
  use_npcap (conf w) = true ->
  cache_mode (heap w self) = Some b ->
  let dev := if invalid (heap w self) then None else pcap_name (heap w self) in
  open_pcap (IsInterface self) None w = (Ret (dev, Some b), w)
  /\ open_pcap (IsInterface self) (Some b) w = (Ret (dev, Some b), w)
  /\ open_pcap (IsInterface self) (Some (negb b)) w
     = (setmonitor self (negb b) ;; ret (dev, Some (negb b))) w.
Proof.
  intros Hnp Hc dev.
  assert (E : forall monitor,
             open_pcap (IsInterface self) monitor w
             = (kargs_monitor <-
                  match monitor with
                  | None => ret (Some b)
                  | Some kw_monitor =>
                      if negb (Bool.eqb kw_monitor b)
                      then setmonitor self kw_monitor ;; ret monitor
                      else ret monitor
                  end ;;
                ret (dev, kargs_monitor)) w).
  { intros monitor. unfold open_pcap. rewrite bind_run. unfold gets at 1.
    cbv iota beta. rewrite bind_run, pcapname_interface_run.
    rewrite bind_run. unfold ret at 1. cbv iota beta. rewrite Hnp.
    rewrite !bind_run, (ismonitor_cached self w b Hc). reflexivity. }
  rewrite !E. split; [reflexivity |]. split.
  - rewrite Bool.eqb_reflx. reflexivity.
  - destruct b; simpl negb; cbv iota; rewrite !bind_run;
      destruct (setmonitor self _ w) as [[res | e] w1]; reflexivity.
Qed.

(** X10.  [open_pcap] given a name that [dev_from_name] resolves to a
    valid interface with a capture-device name does what it does given that
    interface. *)
Theorem open_pcap_by_name (w : World) (nm p : string) (self : loc)
    (monitor : option bool) :
  dev_from_name nm w = (Ret self, w) ->
  invalid (heap w self) = false ->
  pcap_name (heap w self) = Some p ->
  open_pcap (IsName nm) monitor w = open_pcap (IsInterface self) monitor w.
Proof.
  intros Hd Hinv Hp. unfold open_pcap. rewrite !bind_run. unfold gets at 1 2.
  cbv iota beta. rewrite !bind_run, pcapname_interface_run, pcapname_name_run.
  rewrite Hd, Hinv. simpl fst. cbv iota beta. rewrite Hp.
  rewrite !bind_run, Hd. reflexivity.
Qed.

Lemma ismonitor_incapable (self : loc) (w : World) (g : string) :
  use_npcap (conf w) = true ->
  cache_mode (heap w self) = None ->
  guid (heap w self) = Some g ->
  dot11_capable w self = false ->
  exists w1,
    ismonitor self w = (Ret false, w1)
    /\ frame self w w1
    /\ raw80211 (heap w1 self) = Some false
    /\ invalid (heap w1 self) = invalid (heap w self)
    /\ pcap_name (heap w1 self) = pcap_name (heap w self).
Proof.
  intros Hnp Hc Hg Hcap.
  unfold ismonitor, mode, try_except. rewrite bind_run. unfold gets at 1.
  cbv iota beta. rewrite bind_run. unfold getobj, gets at 1. cbv iota beta.
  rewrite Hc, !bind_run.
  unfold _check_npcap_requirement, dot11_capable, getobj, setobj, bind, gets,
    modify, ret, raise in *.
  rewrite Hnp. simpl. rewrite Hg in *.
  destruct (raw80211 (heap w self)) as [b |] eqn:Hraw.
  - subst b. rewrite Hraw. simpl. exists w.
    split; [reflexivity |]. split; [apply frame_refl |].
    split; [exact Hraw |]. split; reflexivity.
  - destruct (Dot11Adapters (os w)) as [a |]; simpl; rewrite upd_same; simpl;
      rewrite ?Hcap; simpl; eexists; (split; [reflexivity |]);
      (split; [apply frame_set_heap |]); simpl; rewrite upd_same;
      repeat split.
Qed.

(** X11.  With Npcap, for an interface without a cached mode that cannot
    do raw 802.11: [open_pcap] with [monitor] unset or [False] passes
    [monitor=False] and runs no command; with [monitor=True] it raises the
    [Scapy_Exception], and no command has been run and nothing logged. *)
Theorem open_pcap_without_raw80211 (w : World) (self : loc) (g : string) :
  use_npcap (conf w) = true ->
  cache_mode (heap w self) = None ->
  guid (heap w self) = Some g ->
  dot11_capable w self = false ->
  let dev := if invalid (heap w self) then None else pcap_name (heap w self) in
  (forall monitor,
      monitor <> Some true ->
      exists w1,
        open_pcap (IsInterface self) monitor w = (Ret (dev, Some false), w1)
        /\ executed w1 = executed w)
  /\ refused (open_pcap (IsInterface self) (Some true)) w NoRaw80211.
Proof.
  intros Hnp Hc Hg Hcap dev.
  destruct (ismonitor_incapable self w g Hnp Hc Hg Hcap)
    as [w1 [E [Hf [Hraw _]]]].
  pose proof (frame_outside _ _ _ Hf) as Ho.
  assert (Eo : forall monitor,
             open_pcap (IsInterface self) monitor w
             = (kargs_monitor <-
                  match monitor with
                  | None => ret (Some false)
                  | Some kw_monitor =>
                      if negb (Bool.eqb kw_monitor false)
                      then setmonitor self kw_monitor ;; ret monitor
                      else ret monitor
                  end ;;
                ret (dev, kargs_monitor)) w1).
  { intros monitor. unfold open_pcap. rewrite bind_run. unfold gets at 1.
    cbv iota beta. rewrite bind_run, pcapname_interface_run.
    rewrite bind_run. unfold ret at 1. cbv iota beta. rewrite Hnp.
    rewrite !bind_run, E. reflexivity. }
  split.
  - intros monitor Hm. exists w1. rewrite Eo.
    split; [| exact (outside_executed _ _ Ho)].
    destruct monitor as [[|] |]; [contradiction Hm; reflexivity | |];
      reflexivity.
  - exists w1. rewrite Eo.
    split; [| split; [exact (outside_executed _ _ Ho)
                     | exact (outside_logged _ _ Ho)]].
    simpl negb. cbv iota. rewrite !bind_run.
    assert (Es : setmonitor self true w1 = (Raise NoRaw80211, w1)).
    { unfold setmonitor, setmode. rewrite !bind_run.
      rewrite (check_npcap_known self w1 false); [reflexivity | | exact Hraw].
      rewrite (outside_conf _ _ Ho). exact Hnp. }
    rewrite Es. reflexivity.
Qed.

(** ** Names, capture-device names and hardware addresses *)

Lemma next_such_first {A} (p : A -> bool) (before after : list A) (x : A) :
  p x = true ->
  (forall y, In y before -> p y = false) ->
  Py.next_such p (before ++ x :: after) = Some x.
Proof.
  intros Hx Hb. unfold Py.next_such.
  induction before as [| y before IH]; simpl.
  - rewrite Hx. reflexivity.
  - rewrite (Hb y (or_introl eq_refl)). apply IH.
    intros z Hz. apply Hb. right. exact Hz.
Qed.

Lemma next_such_unique {A} (p : A -> bool) (l : list A) (x : A) :
  In x l -> p x = true ->
  (forall y, In y l -> p y = true -> y = x) ->
  Py.next_such p l = Some x.
Proof.
  intros Hin Hx Hu. unfold Py.next_such.
  destruct (find p l) as [y |] eqn:E.
  - apply find_some in E. destruct E as [Hy Hpy].
    rewrite (Hu y Hy Hpy). reflexivity.
  - rewrite (find_none p l E x Hin) in Hx. discriminate.
Qed.

Lemma opt_string_eqb_true (a b : option string) :
  opt_string_eqb a b = true <-> a = b.
Proof.
  destruct a as [x |], b as [y |]; simpl;
    try (split; [discriminate | intros [=]]); try (split; reflexivity).
  rewrite String.eqb_eq. split; [intros -> | intros [= ->]]; reflexivity.
Qed.

Lemma pcapname_then_dev_from_pcapname (w : World) (iface : loc) :
  In iface (itervalues (IFACES w)) ->
  invalid (heap w iface) = false ->
  (forall other,
      In other (itervalues (IFACES w)) ->
      pcap_name (heap w other) = pcap_name (heap w iface) ->
      other = iface) ->
  (pn <- pcapname (IsInterface iface) ;; dev_from_pcapname pn) w
  = (Ret iface, w)
  /\ forall ARPHDR_ETHER mac2str,
       get_if_raw_hwaddr ARPHDR_ETHER mac2str (IsInterface iface) w
       = (hwaddr_of ARPHDR_ETHER mac2str (heap w iface), w).
Proof.
  intros Hin Hinv Hu.
  assert (E : dev_from_pcapname (pcap_name (heap w iface)) w = (Ret iface, w)).
  { unfold dev_from_pcapname. rewrite bind_run. unfold gets at 1.
    cbv iota beta.
    rewrite (next_such_unique _ _ iface Hin).
    - reflexivity.
    - apply opt_string_eqb_true. reflexivity.
    - intros y Hy Hp. apply opt_string_eqb_true in Hp. exact (Hu y Hy Hp). }
  split.
  - rewrite !bind_run, pcapname_interface_run, Hinv, E. reflexivity.
  - intros ether mac2str. unfold get_if_raw_hwaddr, hwaddr_of.
    rewrite !bind_run, pcapname_interface_run, Hinv, !bind_run, E.
    unfold bind, getobj, gets, ret, raise. cbv iota beta.
    destruct (mac2str (mac (heap w iface))); reflexivity.
Qed.

Lemma get_if_raw_hwaddr_invalid (ARPHDR_ETHER : Z)
    (mac2str : option string -> result (list byte)) (w : World)
    (iface : loc) :
  invalid (heap w iface) = true ->
  get_if_raw_hwaddr ARPHDR_ETHER mac2str (IsInterface iface) w
  = (match Py.next_such
             (fun l => opt_string_eqb (pcap_name (heap w l)) None)
             (itervalues (IFACES w)) with
     | Some found => hwaddr_of ARPHDR_ETHER mac2str (heap w found)
     | None => Raise (UnknownPcapInterface None)
     end, w).
Proof.
  intros Hinv. unfold get_if_raw_hwaddr, dev_from_pcapname, hwaddr_of.
  rewrite !bind_run, pcapname_interface_run, Hinv.
  unfold bind, getobj, gets, ret, raise. simpl.
  destruct (Py.next_such _ _) as [found |]; [| reflexivity].
  destruct (mac2str (mac (heap w found))); reflexivity.
Qed.

(** X12.  For a valid interface of the registry that no other interface
    of the registry shares its capture-device name with,
    [dev_from_pcapname (pcapname iface)] is the interface, and
    [get_if_raw_hwaddr] gives [ARPHDR_ETHER] with what [mac2str] makes of its
    own MAC, or raises what [mac2str] raises on it.  For an invalid
    interface [pcapname] is [None], and [get_if_raw_hwaddr] takes the MAC of
    the first interface of the registry without a capture-device name,
    whichever interface was asked for, or raises the not-found error when
    there is none.  The world stays as it is. *)
Theorem pcapname_round_trip (ARPHDR_ETHER : Z)
    (mac2str : option string -> result (list byte)) (w : World)
    (iface : loc) :
  (In iface (itervalues (IFACES w)) ->
   invalid (heap w iface) = false ->
   (forall other,
       In other (itervalues (IFACES w)) ->
       pcap_name (heap w other) = pcap_name (heap w iface) ->
       other = iface) ->
   (pn <- pcapname (IsInterface iface) ;; dev_from_pcapname pn) w
   = (Ret iface, w)
   /\ get_if_raw_hwaddr ARPHDR_ETHER mac2str (IsInterface iface) w
      = (hwaddr_of ARPHDR_ETHER mac2str (heap w iface), w))
  /\ (invalid (heap w iface) = true ->
      pcapname (IsInterface iface) w = (Ret None, w)
      /\ get_if_raw_hwaddr ARPHDR_ETHER mac2str (IsInterface iface) w
         = (match Py.next_such
                    (fun l => opt_string_eqb (pcap_name (heap w l)) None)
                    (itervalues (IFACES w)) with
            | Some found => hwaddr_of ARPHDR_ETHER mac2str (heap w found)
            | None => Raise (UnknownPcapInterface None)
            end, w)).
Proof.
  split.
  - intros Hin Hinv Hu.
    destruct (pcapname_then_dev_from_pcapname w iface Hin Hinv Hu) as [E Eh].
    split; [exact E | apply Eh].
  - intros Hinv. split.
    + rewrite pcapname_interface_run, Hinv. reflexivity.
    + apply get_if_raw_hwaddr_invalid. exact Hinv.
Qed.

(** X13.  [dev_from_name] returns the first interface, in the order of
    the registry, whose name or description is the given one, and [pcapname]
    of the name is the capture-device name of that interface.  When no
    interface matches, [dev_from_name] raises the not-found error, which
    [pcapname] turns into [None] when [conf.use_pcap] is set and raises
    otherwise.  None of them changes the world. *)
Theorem dev_from_name_first_match (w : World) (nm : string) :
  let matches l :=
    name (heap w l) = Some nm \/ description (heap w l) = Some nm in
  (forall before iface after,
      itervalues (IFACES w) = (before ++ iface :: after)%list ->
      matches iface ->
      (forall x, In x before -> ~ matches x) ->
      dev_from_name nm w = (Ret iface, w)
      /\ pcapname (IsName nm) w = (Ret (pcap_name (heap w iface)), w))
  /\ ((forall x, In x (itervalues (IFACES w)) -> ~ matches x) ->
      dev_from_name nm w = (Raise (UnknownInterface nm), w)
      /\ pcapname (IsName nm) w
         = ((if use_pcap (conf w) then Ret None
             else Raise (UnknownInterface nm)), w)).
Proof.
  intros matches.
  assert (Hm : forall l,
             opt_eqb (name (heap w l)) nm || opt_eqb (description (heap w l)) nm
             = true <-> matches l).
  { intros l. unfold matches. rewrite orb_true_iff, !opt_eqb_true.
    reflexivity. }
  split.
  - intros before iface after Hl Hi Hb.
    assert (E : dev_from_name nm w = (Ret iface, w)).
    { unfold dev_from_name. rewrite bind_run. unfold gets at 1.
      cbv iota beta. rewrite Hl, next_such_first; [reflexivity | |].
      - apply Hm. exact Hi.
      - intros y Hy.
        destruct (opt_eqb (name (heap w y)) nm
                  || opt_eqb (description (heap w y)) nm) eqn:Ey;
          [| reflexivity].
        apply Hm in Ey. contradiction (Hb y Hy Ey). }
    split; [exact E |]. rewrite pcapname_name_run, E. reflexivity.
  - intros Hno.
    assert (E : dev_from_name nm w = (Raise (UnknownInterface nm), w)).
    { unfold dev_from_name. rewrite bind_run. unfold gets at 1.
      cbv iota beta. unfold Py.next_such.
      rewrite (proj2 (find_none_iff _ _)); [reflexivity |].
      intros y Hy.
      destruct (opt_eqb (name (heap w y)) nm
                || opt_eqb (description (heap w y)) nm) eqn:Ey;
        [| reflexivity].
      apply Hm in Ey. contradiction (Hno y Hy Ey). }
    split; [exact E |]. rewrite pcapname_name_run, E. simpl.
    destruct (use_pcap (conf w)); reflexivity.
Qed.

(** ** What [update] leaves *)

Lemma updated_pcapdata (c : Conf) (devs : list string) (d : IfData)
    (o : NetworkInterface) :
  invalid (updated c devs d o) = invalid (pcapdata devs (assign_from_data c d o))
  /\ pcap_name (updated c devs d o)
     = pcap_name (pcapdata devs (assign_from_data c d o)).
Proof.
  unfold updated. destruct (opt_eqb _ _ && use_npcap c); [split; reflexivity |].
  destruct (first_ipv4 (d_ips d)); cbv zeta;
    destruct (negb _ && _); split; reflexivity.
Qed.

(** X14.  [update] returns and touches nothing but the interface.  When
    the data say ['invalid': True], or say nothing and the interface was
    invalid, the interface is invalid afterwards and keeps the
    capture-device name it had.  Otherwise it is valid exactly when a device
    name of the capture subsystem ends with the identifier of the data; its
    capture-device name is then the first such name, and is the former one
    when there is none. *)
Theorem update_validity (w : World) (self : loc) (d : IfData) :
  exists w',
    update self d w = (Ret tt, w')
    /\ frame self w w'
    /\ let was_invalid :=
         match d_invalid d with
         | Some b => b
         | None => invalid (heap w self)
         end in
       if was_invalid then
         invalid (heap w' self) = true
         /\ pcap_name (heap w' self) = pcap_name (heap w self)
       else
         match find (fun i => Py.endswith i (d_guid d)) (get_if_list (os w)) with
         | Some i =>
             invalid (heap w' self) = false
             /\ pcap_name (heap w' self) = Some i
         | None =>
             invalid (heap w' self) = true
             /\ pcap_name (heap w' self) = pcap_name (heap w self)
         end.
Proof.
  destruct (update_returns self d w) as [[] [w' [E [Ho Hf]]]].
  exists w'. split; [exact E |]. split; [exact Hf |].
  destruct (updated_pcapdata (conf w) (get_if_list (os w)) d (heap w self))
    as [Hi Hp].
  rewrite Ho, Hi, Hp. clear. cbv zeta. unfold pcapdata.
  change (invalid (assign_from_data (conf w) d (heap w self)))
    with (match d_invalid d with
          | Some b => b
          | None => invalid (heap w self)
          end).
  destruct (match d_invalid d with
            | Some b => b
            | None => invalid (heap w self)
            end) eqn:Hwas.
  - split; [simpl; exact Hwas | reflexivity].
  - change (guid (assign_from_data (conf w) d (heap w self)))
      with (Some (d_guid d)).
    cbv beta iota.
    destruct (find _ (get_if_list (os w))) as [i |]; simpl.
    + split; [exact Hwas | reflexivity].
    + split; reflexivity.
Qed.

(** X15.  [update] with the data of an adapter that is not the loopback
    one takes the name, description, index, identifier, MAC, metrics and
    addresses of the data.  The primary address is the first address of the
    data without a colon; when the data have none, the interface keeps the
    primary address it had. *)
Theorem update_from_data (w : World) (self : loc) (d : IfData) :
  d_netid d <> Some (LOOPBACK_NAME (conf w)) ->
  d_name d <> LOOPBACK_NAME (conf w) ->
  exists w',
    update self d w = (Ret tt, w')
    /\ name (heap w' self) = Some (d_name d)
    /\ description (heap w' self) = Some (d_description d)
    /\ win_index (heap w' self) = Some (d_win_index d)
    /\ guid (heap w' self) = Some (d_guid d)
    /\ mac (heap w' self) = Some (d_mac d)
    /\ ipv4_metric (heap w' self) = Some (d_ipv4_metric d)
    /\ ipv6_metric (heap w' self) = Some (d_ipv6_metric d)
    /\ ips (heap w' self) = Some (d_ips d)
    /\ ip (heap w' self)
       = match first_ipv4 (d_ips d) with
         | Some x => Some x
         | None => ip (heap w self)
         end.
Proof.
  intros Hnet Hname.
  destruct (update_returns self d w) as [[] [w' [E [Ho _]]]].
  exists w'. split; [exact E |]. rewrite Ho. clear E Ho w'.
  set (c := conf w) in *. set (devs := get_if_list (os w)).
  set (o := heap w self).
  assert (Hnet' : opt_eqb (d_netid d) (LOOPBACK_NAME c) = false).
  { destruct (opt_eqb (d_netid d) (LOOPBACK_NAME c)) eqn:En; [| reflexivity].
    apply opt_eqb_true in En. contradiction. }
  assert (Hn : name (assign_from_data c d o) = Some (d_name d)).
  { simpl. rewrite Hnet'. reflexivity. }
  assert (Hlo : opt_eqb (Some (d_name d)) (LOOPBACK_NAME c) = false).
  { destruct (opt_eqb (Some (d_name d)) (LOOPBACK_NAME c)) eqn:En;
      [| reflexivity].
    apply opt_eqb_true in En. injection En as En. contradiction. }
  assert (Hp : forall o1, o1 = pcapdata devs (assign_from_data c d o) ->
             name o1 = Some (d_name d)
             /\ description o1 = Some (d_description d)
             /\ win_index o1 = Some (d_win_index d)
             /\ guid o1 = Some (d_guid d)
             /\ mac o1 = Some (d_mac d)
             /\ ipv4_metric o1 = Some (d_ipv4_metric d)
             /\ ipv6_metric o1 = Some (d_ipv6_metric d)
             /\ ips o1 = Some (d_ips d)
             /\ ip o1 = ip o).
  { intros o1 ->. unfold pcapdata.
    destruct (invalid (assign_from_data c d o));
      [| change (guid (assign_from_data c d o)) with (Some (d_guid d));
         cbv beta iota; destruct (find _ devs)];
      simpl; rewrite ?Hnet'; repeat split. }
  destruct (Hp _ eq_refl) as [P1 [P2 [P3 [P4 [P5 [P6 [P7 [P8 P9]]]]]]]].
  unfold updated. rewrite P1, Hlo. simpl andb. cbv iota zeta.
  destruct (first_ipv4 (d_ips d)) as [x |].
  - change (name (set_ip (Some x) (pcapdata devs (assign_from_data c d o))))
      with (name (pcapdata devs (assign_from_data c d o))).
    rewrite P1, Hlo, andb_false_r. simpl. repeat split; assumption.
  - rewrite P1, Hlo, andb_false_r. repeat split; assumption.
Qed.

(** ** The interfaces of the routes *)

Lemma dev_from_index_member (w : World) (i : Z) (iface : loc) :
  dev_from_index i w = (Ret iface, w) ->
  In iface (itervalues (IFACES w)) \/ LOOPBACK_INTERFACE w = Some iface.
Proof.
  unfold dev_from_index, bind, gets, ret, raise, Py.next_such. simpl.
  destruct (find _ (itervalues (IFACES w))) as [l |] eqn:Ef.
  - intros [= <-]. left. apply find_some in Ef. exact (proj1 Ef).
  - destruct (String.eqb (Py.str i) "1"); [| discriminate].
    destruct (LOOPBACK_INTERFACE w) as [lo |]; [| discriminate].
    intros [= <-]. right. reflexivity.
Qed.

Lemma owning_interface_of (w : World) (i : Z) (iface : loc) (r : Route) :
  fst (owning_interface i w) = Ret (Some iface) ->
  route_iface r = iface ->
  match r with
  | Route4 _ _ _ iface src _ => src = ip (heap w iface)
  | Route6 _ _ _ _ _ _ => True
  end ->
  route_of_interface w r.
Proof.
  intros Eo Hi Hs. apply owning_interface_some in Eo.
  destruct Eo as [Hdev Hip]. apply dev_from_index_member in Hdev.
  unfold route_of_interface. rewrite Hi. repeat split; assumption.
Qed.

Lemma read_routes_c_v1_interfaces (w : World) (routes : list Route) :
  fst (_read_routes_c_v1 w) = Ret routes ->
  forall r, In r routes -> route_of_interface w r.
Proof.
  unfold _read_routes_c_v1. unfold bind at 1.
  destruct (GetIpForwardTable (os w)) as [rows | e]; [| discriminate].
  intros E.
  refine (for_fold_invariant _ rows
            (fun routes => forall r, In r routes -> route_of_interface w r)
            w _ _ [] routes _ E).
  - intros s x. ro.
  - intros s x s' Hx Hs Hb r Hr. unfold bind in Hb.
    rewrite (readonly_run _ w (readonly_owning_interface _)) in Hb.
    destruct (fst (owning_interface (ForwardIfIndex x) w))
      as [[iface |] | e] eqn:Eo; simpl in Hb; try discriminate.
    + unfold getobj, gets, bind in Hb. simpl in Hb.
      rewrite (readonly_run _ w (readonly_add_metric _ _)) in Hb.
      destruct (fst (add_metric _ _ w)) as [m |] eqn:Em; [| discriminate].
      simpl in Hb. injection Hb as <-.
      apply in_app_or in Hr. destruct Hr as [Hr | [<- | []]]; [auto |].
      apply (owning_interface_of w _ iface _ Eo); reflexivity.
    + injection Hb as <-. auto.
  - intros r [].
Qed.

Lemma append_route6_interface (w : World) (lifaddr : list (string * Z * loc))
    (routes routes' : list Route) dpref dp nh iface metric :
  fst (_append_route6 routes dpref dp nh iface lifaddr metric w) = Ret routes' ->
  routes' = routes
  \/ exists cset,
       routes' = (routes ++ [Route6 dpref dp nh iface cset metric])%list.
Proof.
  unfold _append_route6, getobj, bind, gets, ret. simpl.
  destruct (opt_eqb (name (heap w iface)) (LOOPBACK_NAME (conf w))).
  - destruct (String.eqb dpref "::"); simpl; intros [= <-];
      [left; reflexivity | right; eexists; reflexivity].
  - destruct (construct_source_candidate_set dpref dp _) as [| a cs];
      simpl; intros [= <-];
      [left; reflexivity | right; eexists; reflexivity].
Qed.

Lemma read_routes_c_interfaces (w : World) (ipv6 : bool)
    (routes : list Route) :
  fst (_read_routes_c ipv6 w) = Ret routes ->
  forall r, In r routes -> route_of_interface w r.
Proof.
  unfold _read_routes_c. do 2 unfold bind at 1.
  assert (Hl : exists rl, (if ipv6 then in6_getifaddr else ret []) w = (rl, w)).
  { destruct ipv6.
    - exists (fst (in6_getifaddr w)). apply readonly_run, readonly_in6_getifaddr.
    - exists (Ret []). reflexivity. }
  destruct Hl as [rl El]. rewrite El.
  destruct rl as [lifaddr | e]; [| discriminate].
  destruct (GetIpForwardTable2 (os w) _) as [rows | e]; [| discriminate].
  intros E.
  refine (for_fold_invariant _ rows
            (fun routes => forall r, In r routes -> route_of_interface w r)
            w _ _ [] routes _ E).
  - intros s x. pose proof readonly_append_route6. ro.
  - intros s x s' Hx Hs Hb r Hr.
    destruct (_extract_ip_netmask ipv6 (DestinationPrefix_Prefix x))
      as [dest netmask].
    destruct (_extract_ip_netmask ipv6 (NextHop x)) as [nexthop ign].
    unfold bind in Hb.
    rewrite (readonly_run _ w (readonly_owning_interface _)) in Hb.
    destruct (fst (owning_interface (InterfaceIndex x) w))
      as [[iface |] | e] eqn:Eo; simpl in Hb; try discriminate.
    + unfold getobj, gets, bind in Hb. simpl in Hb.
      rewrite (readonly_run _ w (readonly_add_metric _ _)) in Hb.
      destruct (fst (add_metric _ _ w)) as [m |] eqn:Em; [| discriminate].
      destruct ipv6.
      * apply append_route6_interface in Hb.
        destruct Hb as [-> | [cset ->]]; [auto |].
        apply in_app_or in Hr. destruct Hr as [Hr | [<- | []]]; [auto |].
        apply (owning_interface_of w _ iface _ Eo); [reflexivity | exact I].
      * simpl in Hb. injection Hb as <-.
        apply in_app_or in Hr. destruct Hr as [Hr | [<- | []]]; [auto |].
        apply (owning_interface_of w _ iface _ Eo); reflexivity.
    + injection Hb as <-. auto.
  - intros r [].
Qed.

(** X16.  Every entry of the tables that [read_routes] and [read_routes6]
    return belongs to an interface of the registry or to the registered
    loopback interface, and the primary address of that interface is not
    0.0.0.0; the source address of an IPv4 entry is that primary address. *)
Theorem routes_of_interfaces (w : World) :
  (forall routes r,
      fst (read_routes w) = Ret routes -> In r routes ->
      route_of_interface w r)
  /\ (forall routes r,
        fst (read_routes6 w) = Ret routes -> In r routes ->
        route_of_interface w r).
Proof.
  split; intros routes r E Hr.
  - rewrite read_routes_run in E.
    destruct (fst (ipv4_builder w w)) as [[| r0 rs] | e] eqn:Eb; simpl in E;
      injection E as <-; try contradiction.
    unfold ipv4_builder in Eb. destruct (WINDOWS_XP (conf w)).
    + exact (read_routes_c_v1_interfaces w _ Eb r Hr).
    + exact (read_routes_c_interfaces w false _ Eb r Hr).
  - rewrite read_routes6_run in E.
    destruct (WINDOWS_XP (conf w)); [injection E as <-; contradiction |].
    destruct (fst (_read_routes_c true w)) as [rs | e] eqn:Eb; simpl in E;
      injection E as <-; [| contradiction].
    exact (read_routes_c_interfaces w true _ Eb r Hr).
Qed.

(** ** Prefix lengths *)

Lemma rstrip_zero_zeros (k : nat) : rstrip_zero (repeat x00 k) = [].
Proof. induction k as [| k IH]; simpl; [| rewrite IH]; reflexivity. Qed.

Lemma rstrip_zero_app_zeros (l : list byte) (k : nat) :
  rstrip_zero (l ++ repeat x00 k) = rstrip_zero l.
Proof.
  induction l as [| b l IH]; simpl.
  - apply rstrip_zero_zeros.
  - rewrite IH. reflexivity.
Qed.

Lemma rstrip_zero_last (l : list byte) :
  l = [] \/ last l x00 <> x00 -> rstrip_zero l = l.
Proof.
  induction l as [| b l IH]; [reflexivity |].
  intros [Hn | Hl]; [discriminate |].
  destruct l as [| c l].
  - simpl in *. destruct (Byte.eqb b x00) eqn:Eb; [| reflexivity].
    apply Byte.byte_dec_bl in Eb. contradiction.
  - change (rstrip_zero (b :: c :: l))
      with (match rstrip_zero (c :: l) with
            | [] => if Byte.eqb b x00 then [] else [b]
            | r => b :: r
            end).
    rewrite IH; [reflexivity |]. right. exact Hl.
Qed.

(** X17.  [_extract_ip_netmask] reads the prefix length off the address
    bytes alone: for an address that ends with [k] zero bytes after a last
    byte that is not zero (or that is all zero), the length is
    [8 * (ip_len - k)], with [ip_len] 4 for IPv4 and 16 for IPv6. *)
Theorem extract_ip_netmask_trailing_zeros (ipv6 : bool) (prefix : list byte)
    (k : nat) :
  prefix = [] \/ last prefix x00 <> x00 ->
  _extract_ip_netmask ipv6 (prefix ++ repeat x00 k)
  = (inet_ntop (if ipv6 then AF_INET6 else AF_INET) (prefix ++ repeat x00 k),
     ((if ipv6 then 16 else 4) - Z.of_nat k) * 8).
Proof.
  intros Hp. unfold _extract_ip_netmask. cbv zeta. f_equal.
  rewrite rstrip_zero_app_zeros, (rstrip_zero_last _ Hp).
  rewrite length_app, repeat_length. f_equal. lia.
Qed.

(** ** Addresses of the interfaces *)

Lemma dict_get_set_nat {V} (k k' : loc) (v : V) (d : list (loc * V)) :
  dict_get Nat.eqb k (dict_set Nat.eqb k' v d)
  = if Nat.eqb k' k then Some v else dict_get Nat.eqb k d.
Proof.
  unfold dict_get. induction d as [| [k0 v0] d IH]; simpl.
  - destruct (Nat.eqb k' k); reflexivity.
  - destruct (Nat.eqb k0 k') eqn:E0; simpl.
    + apply Nat.eqb_eq in E0. subst k0.
      destruct (Nat.eqb k' k); reflexivity.
    + destruct (Nat.eqb k0 k) eqn:E1; simpl.
      * apply Nat.eqb_eq in E1. subst k0. rewrite Nat.eqb_sym, E0.
        reflexivity.
      * exact IH.
Qed.

Lemma dict_set_in_nat {V} (k : loc) (v : V) (d : list (loc * V)) (e : loc * V) :
  In e (dict_set Nat.eqb k v d) -> e = (k, v) \/ In e d.
Proof.
  induction d as [| [k0 v0] d IH]; simpl.
  - intros [<- | []]. left. reflexivity.
  - destruct (Nat.eqb k0 k) eqn:E0; simpl.
    + apply Nat.eqb_eq in E0. subst k0. intros [<- | Hin]; auto.
    + intros [<- | Hin]; [auto |]. destruct (IH Hin); auto.
Qed.

Lemma dict_get_entry {V} (k : loc) (v : V) (d : list (loc * V)) :
  dict_get Nat.eqb k d = Some v -> In (k, v) d.
Proof.
  unfold dict_get.
  destruct (find (fun kv => Nat.eqb (fst kv) k) d) as [[k0 v0] |] eqn:E;
    [| discriminate].
  simpl. intros [= <-]. apply find_some in E. destruct E as [Hin Hk].
  simpl in Hk. apply Nat.eqb_eq in Hk. subst k0. exact Hin.
Qed.

Lemma get_ips_loop (w : World) (v6 : bool) (l : list loc) :
  (forall iface, In iface l -> ips (heap w iface) <> None) ->
  forall acc,
  exists res,
    for_fold
      (fun res iface =>
         o <- getobj iface ;;
         match ips o with
         | None => raise NoneOperand
         | Some l =>
             let ips :=
               filter (fun ip => if v6 then Py.contains ":" ip
                                 else negb (Py.contains ":" ip)) l in
             ret (dict_set Nat.eqb iface ips res)
         end) l acc w = (Ret res, w)
    /\ (forall iface,
          dict_get Nat.eqb iface res
          = if existsb (Nat.eqb iface) l
            then option_map (of_family v6) (ips (heap w iface))
            else dict_get Nat.eqb iface acc)
    /\ (forall e, In e res ->
          In e acc
          \/ (In (fst e) l
              /\ Some (snd e) = option_map (of_family v6) (ips (heap w (fst e))))).
Proof.
  induction l as [| x l IH]; intros Hips acc.
  - exists acc. split; [reflexivity |]. split; [reflexivity | auto].
  - assert (Hx : ips (heap w x) <> None) by (apply Hips; left; reflexivity).
    destruct (ips (heap w x)) as [lx |] eqn:Ex; [| contradiction].
    destruct (IH (fun i Hi => Hips i (or_intror Hi))
                (dict_set Nat.eqb x (of_family v6 lx) acc))
      as [res [E [Hget Hin]]].
    exists res. split; [| split].
    + simpl. rewrite bind_run. unfold getobj, bind, gets. simpl. rewrite Ex.
      exact E.
    + intros iface. rewrite Hget. simpl existsb.
      destruct (existsb (Nat.eqb iface) l) eqn:El.
      * rewrite orb_true_r. reflexivity.
      * rewrite orb_false_r, dict_get_set_nat, (Nat.eqb_sym iface x).
        destruct (Nat.eqb x iface) eqn:Exi; [| reflexivity].
        apply Nat.eqb_eq in Exi. subst iface. rewrite Ex. reflexivity.
    + intros e He. destruct (Hin e He) as [Ha | [Hl Hs]].
      * apply dict_set_in_nat in Ha. destruct Ha as [-> | Ha]; [| auto].
        right. simpl. split; [left; reflexivity |]. rewrite Ex. reflexivity.
      * right. split; [right; exact Hl | exact Hs].
Qed.

Lemma existsb_eqb_in (x : loc) (l : list loc) :
  existsb (Nat.eqb x) l = true <-> In x l.
Proof.
  rewrite existsb_exists. split.
  - intros [y [Hy Exy]]. apply Nat.eqb_eq in Exy. subst y. exact Hy.
  - intros Hx. exists x. split; [exact Hx | apply Nat.eqb_refl].
Qed.

Lemma get_ips_returns (w : World) (v6 : bool) :
  (forall iface,
      In iface (itervalues (IFACES w)) -> ips (heap w iface) <> None) ->
  exists res,
    get_ips v6 w = (Ret res, w)
    /\ (forall iface,
          In iface (itervalues (IFACES w)) ->
          dict_get Nat.eqb iface res
          = option_map (of_family v6) (ips (heap w iface)))
    /\ (forall iface,
          ~ In iface (itervalues (IFACES w)) ->
          dict_get Nat.eqb iface res = None)
    /\ (forall iface l,
          In (iface, l) res ->
          In iface (itervalues (IFACES w))
          /\ Some l = option_map (of_family v6) (ips (heap w iface))).
Proof.
  intros Hips.
  destruct (get_ips_loop w v6 (itervalues (IFACES w)) Hips [])
    as [res [E [Hget Hin]]].
  exists res. split; [| split; [| split]].
  - unfold get_ips. rewrite bind_run. unfold gets at 1. cbv iota beta.
    exact E.
  - intros iface Hi. rewrite Hget.
    rewrite (proj2 (existsb_eqb_in iface _) Hi). reflexivity.
  - intros iface Hi. rewrite Hget.
    destruct (existsb (Nat.eqb iface) (itervalues (IFACES w))) eqn:Ee;
      [| reflexivity].
    apply existsb_eqb_in in Ee. contradiction.
  - intros iface l He. destruct (Hin _ He) as [[] | Hr]. exact Hr.
Qed.

(** X20.  When every interface of the registry has its address list,
    [get_ip_from_name] returns the first address of the family asked for of
    the interface [dev_from_name] finds, and raises what [dev_from_name]
    raises.  For an interface without an address of that family it raises
    the [IndexError] of an index into an empty list: the default [[""]] of
    the source is never used.  The world stays as it is. *)
Theorem get_ip_from_name_first (w : World) (ifname : string) (v6 : bool) :
  (forall iface,
      In iface (itervalues (IFACES w)) -> ips (heap w iface) <> None) ->
  get_ip_from_name ifname v6 w
  = (match fst (dev_from_name ifname w) with
     | Ret iface =>
         match option_map (of_family v6) (ips (heap w iface)) with
         | Some (ip :: _) => Ret ip
         | _ => Raise IndexError_list_index
         end
     | Raise e => Raise e
     end, w).
Proof.
  intros Hips. unfold get_ip_from_name. rewrite bind_run.
  pose proof (readonly_run _ w (readonly_dev_from_name ifname)) as Hd.
  destruct (fst (dev_from_name ifname w)) as [iface | e] eqn:Ef;
    rewrite Hd; [| reflexivity].
  assert (Hin : In iface (itervalues (IFACES w))).
  { revert Hd. unfold dev_from_name, bind, gets, ret, raise, Py.next_such.
    simpl. destruct (find _ _) as [l |] eqn:Efind; [| discriminate].
    intros [= <-]. apply find_some in Efind. exact (proj1 Efind). }
  destruct (get_ips_returns w v6 Hips) as [res [E [Hget _]]].
  rewrite bind_run, E, (Hget iface Hin).
  pose proof (Hips iface Hin) as Hne.
  destruct (ips (heap w iface)) as [l |]; [| contradiction].
  simpl. destruct (of_family v6 l); reflexivity.
Qed.

(** X18.  When every interface of the registry has its address list,
    [get_ips] returns, leaves the world as it is, and maps every interface
    of the registry, and nothing else, to its addresses of the family asked
    for, in their order: those with a colon for IPv6, those without for
    IPv4. *)
Theorem get_ips_by_family (w : World) (v6 : bool) :
  (forall iface,
      In iface (itervalues (IFACES w)) -> ips (heap w iface) <> None) ->
  exists res,
    get_ips v6 w = (Ret res, w)
    /\ (forall iface,
          In iface (itervalues (IFACES w)) ->
          dict_get Nat.eqb iface res
          = option_map (of_family v6) (ips (heap w iface)))
    /\ (forall iface,
          ~ In iface (itervalues (IFACES w)) ->
          dict_get Nat.eqb iface res = None).
Proof.
  intros Hips.
  destruct (get_ips_returns w v6 Hips) as [res [E [Hin [Hout _]]]].
  exists res. split; [exact E |]. split; assumption.
Qed.

(** X19.  When every interface of the registry has its address list,
    [in6_getifaddr] returns and leaves the world as it is.  Its entries are
    the addresses with a colon of the interfaces of the registry, each with
    the scope [in6_getscope] gives it, and, when Npcap is in use and a
    loopback interface is registered, the entry [("::1", 0, loopback)]. *)
Theorem in6_getifaddr_entries (w : World) :
  (forall iface,
      In iface (itervalues (IFACES w)) -> ips (heap w iface) <> None) ->
  exists lifaddr,
    in6_getifaddr w = (Ret lifaddr, w)
    /\ forall addr scope iface,
         In (addr, scope, iface) lifaddr
         <-> (In iface (itervalues (IFACES w))
              /\ (exists l, ips (heap w iface) = Some l
                            /\ In addr (of_family true l))
              /\ scope = in6_getscope addr)
             \/ (use_npcap (conf w) = true
                 /\ LOOPBACK_INTERFACE w = Some iface
                 /\ addr = "::1" /\ scope = 0).
Proof.
  intros Hips.
  destruct (get_ips_returns w true Hips) as [res [E [Hget [_ Hent]]]].
  set (ifaddrs :=
         flat_map
           (fun entry : loc * list string =>
              let '(iface, ips) := entry in
              map (fun ip => (ip, in6_getscope ip, iface)) ips)
           res).
  assert (Hreg : forall addr scope iface,
             In (addr, scope, iface) ifaddrs
             <-> In iface (itervalues (IFACES w))
                 /\ (exists l, ips (heap w iface) = Some l
                               /\ In addr (of_family true l))
                 /\ scope = in6_getscope addr).
  { intros addr scope iface. unfold ifaddrs. rewrite in_flat_map. split.
    - intros [[i l'] [He Hm]]. apply in_map_iff in Hm.
      destruct Hm as [a [[= <- <- <-] Ha]].
      destruct (Hent _ _ He) as [Hi Hs]. split; [exact Hi |].
      split; [| reflexivity].
      destruct (ips (heap w i)) as [l |]; [| discriminate].
      injection Hs as ->. exists l. split; [reflexivity | exact Ha].
    - intros [Hi [[l [Hl Ha]] ->]].
      exists (iface, of_family true l). split.
      + apply dict_get_entry. rewrite (Hget iface Hi), Hl. reflexivity.
      + apply in_map_iff. exists addr. split; [reflexivity | exact Ha]. }
  assert (Erun : in6_getifaddr w
                 = (Ret (match LOOPBACK_INTERFACE w with
                         | Some lo =>
                             if use_npcap (conf w)
                             then (ifaddrs ++ [("::1", 0, lo)])%list
                             else ifaddrs
                         | None => ifaddrs
                         end), w)).
  { unfold in6_getifaddr. rewrite bind_run. unfold gets at 1. cbv iota beta.
    rewrite bind_run, E. fold ifaddrs. rewrite bind_run. unfold gets at 1.
    cbv iota beta.
    destruct (LOOPBACK_INTERFACE w) as [lo |]; [| reflexivity].
    destruct (use_npcap (conf w)); reflexivity. }
  eexists. split; [exact Erun |].
  intros addr scope iface.
  destruct (LOOPBACK_INTERFACE w) as [lo |] eqn:Hlo;
    [destruct (use_npcap (conf w)) eqn:Hnp |].
  - rewrite in_app_iff, Hreg. simpl. split.
    + intros [Hr | [[= <- <- <-] | []]]; [left; exact Hr |].
      right. repeat split.
    + intros [Hr | [_ [[= <-] [-> ->]]]]; [left; exact Hr |].
      right. left. reflexivity.
  - rewrite Hreg. split; [auto |].
    intros [Hr | [Hc _]]; [exact Hr | discriminate].
  - rewrite Hreg. split; [auto |].
    intros [Hr | [_ [Hc _]]]; [exact Hr | discriminate].
Qed.

(** ** The working interface *)

Lemma min_by_netmask_first (l seen later : list Route) (r : Route) :
  (forall x, In x seen -> route_netmask r < route_netmask x) ->
  (forall x, In x later -> route_netmask r <= route_netmask x) ->
  exists before after,
    (seen ++ r :: later ++ l)%list
    = (before ++ min_by_netmask r l :: after)%list
    /\ (forall x, In x before ->
                  route_netmask (min_by_netmask r l) < route_netmask x)
    /\ (forall x, In x after ->
                  route_netmask (min_by_netmask r l) <= route_netmask x).
Proof.
  revert seen later r.
  induction l as [| x l IH]; intros seen later r Hs Hl.
  - exists seen, later. rewrite app_nil_r. repeat split; assumption.
  - simpl. destruct (route_netmask x <? route_netmask r) eqn:Ex.
    + apply Z.ltb_lt in Ex.
      destruct (IH (seen ++ r :: later)%list [] x) as [b [a [E [Hb Ha]]]].
      * intros y Hy. apply in_app_or in Hy.
        destruct Hy as [Hy | [<- | Hy]];
          [specialize (Hs y Hy) | | specialize (Hl y Hy)]; lia.
      * intros y [].
      * exists b, a. split; [| split; assumption].
        rewrite <- E. rewrite <- !app_assoc. reflexivity.
    + apply Z.ltb_ge in Ex.
      destruct (IH seen (later ++ [x])%list r Hs) as [b [a [E [Hb Ha]]]].
      * intros y Hy. apply in_app_or in Hy.
        destruct Hy as [Hy | [<- | []]]; [exact (Hl y Hy) | exact Ex].
      * exists b, a. split; [| split; assumption].
        rewrite <- E. rewrite <- !app_assoc. reflexivity.
Qed.

(** X21.  Without routes [get_working_if] returns the registered loopback
    interface.  Otherwise it returns the interface of the first route among
    those with the smallest netmask: every earlier route has a larger
    netmask, no later one a smaller. *)
Theorem get_working_if_smallest_netmask (w : World) (routes : list Route) :
  (routes = [] -> get_working_if routes w = (Ret (LOOPBACK_INTERFACE w), w))
  /\ (routes <> [] ->
      exists before r after,
        routes = (before ++ r :: after)%list
        /\ get_working_if routes w = (Ret (Some (route_iface r)), w)
        /\ (forall x, In x before -> route_netmask r < route_netmask x)
        /\ (forall x, In x after -> route_netmask r <= route_netmask x)).
Proof.
  split.
  - intros ->. reflexivity.
  - intros Hne. destruct routes as [| r l]; [contradiction |].
    destruct (min_by_netmask_first l [] [] r) as [b [a [E [Hb Ha]]]];
      try (intros x []).
    exists b, (min_by_netmask r l), a.
    split; [exact E |]. split; [reflexivity |]. split; assumption.
Qed.



(** ** What [load] keeps *)

Lemma bind_inv {A B} (m : M A) (k : A -> M B) (w w' : World) (r : result B) :
  bind m k w = (r, w') ->
  (exists a w1, m w = (Ret a, w1) /\ k a w1 = (r, w'))
  \/ (exists e, m w = (Raise e, w') /\ r = Raise e).
Proof.
  rewrite bind_run. destruct (m w) as [[a | e] w1]; intros E.
  - left. exists a, w1. split; [reflexivity | exact E].
  - right. injection E as <- <-. exists e. split; reflexivity.
Qed.

Lemma returns_any {A} (m : M A) (w w' : World) (r : result A)
    (Q : A -> World -> Prop) :
  returns m w Q -> m w = (r, w') -> exists a, r = Ret a /\ Q a w'.
Proof.
  intros [a [w1 [E HQ]]] E1. rewrite E in E1. injection E1 as <- <-.
  exists a. split; [reflexivity | exact HQ].
Qed.

Lemma same_store_refl w : same_store w w.
Proof. repeat split. Qed.

Lemma same_store_trans w1 w2 w3 :
  same_store w1 w2 -> same_store w2 w3 -> same_store w1 w3.
Proof.
  intros [A1 [B1 [C1 [D1 E1]]]] [A2 [B2 [C2 [D2 E2]]]].
  repeat split; congruence.
Qed.

Lemma for_each_preserves {A} (body : A -> M unit) (l : list A)
    (J : World -> Prop) :
  (forall x w1 r w2, In x l -> J w1 -> body x w1 = (r, w2) -> J w2) ->
  forall w r w', J w -> for_each body l w = (r, w') -> J w'.
Proof.
  induction l as [| x l IH]; intros Hb w r w' HJ E.
  - injection E as _ <-. exact HJ.
  - simpl in E. apply bind_inv in E.
    destruct E as [[[] [w1 [E1 E]]] | [e [E1 _]]].
    + apply (IH (fun y w2 r2 w3 Hy => Hb y w2 r2 w3 (or_intror Hy)) w1 r w');
        [| exact E].
      apply (Hb x w (Ret tt) w1); [left; reflexivity | exact HJ | exact E1].
    + apply (Hb x w _ w' (or_introl eq_refl) HJ E1).
Qed.

Lemma same_store_status (w w' : World) (r : result bool) :
  pcap_service_status w = (r, w') -> same_store w w'.
Proof.
  unfold pcap_service_status. rewrite bind_run. unfold gets at 1.
  cbv iota beta. rewrite bind_run, exec_cmd_run.
  intros [= _ <-]. repeat split.
Qed.

Lemma same_store_start (askadmin : bool) (w w' : World) (r : result bool) :
  pcap_service_start askadmin w = (r, w') -> same_store w w'.
Proof.
  unfold pcap_service_start. rewrite pcap_service_control_run.
  destruct (truthy (prog_powershell (conf w))); intros [= _ <-];
    repeat split.
Qed.

Lemma same_store_ask_user (w w' : World) (r : result bool) :
  _ask_user w = (r, w') -> same_store w w'.
Proof.
  unfold _ask_user, bind, gets, ret. simpl.
  destruct (negb (interactive (conf w))).
  - intros [= _ <-]. repeat split.
  - destruct (ask_loop (conf w) (stdin w)) as [r0 rest]. intros [= _ <-].
    repeat split.
Qed.

Lemma same_store_log (rec : log_record) (w w' : World) (r : result unit) :
  log rec w = (r, w') -> same_store w w'.
Proof. intros [= _ <-]. repeat split. Qed.

Lemma same_store_loopback (nm : string) (w w' : World) (r : result unit) :
  try_except
    (lo <- dev_from_name nm ;; modify (set_LOOPBACK_INTERFACE (Some lo)))
    ValueError (fun _ => ret tt) w = (r, w') ->
  same_store w w'.
Proof.
  unfold try_except, dev_from_name, bind, gets, modify, ret, raise. simpl.
  destruct (Py.next_such _ _); simpl; intros [= _ <-]; repeat split.
Qed.

Lemma register_adapter_run (i : IfData) (w w' : World) (r : result unit) :
  register_adapter i w = (r, w') ->
  r = Ret tt
  /\ conf w' = conf w
  /\ os w' = os w
  /\ IFACES w' = dict_set String.eqb (d_guid i) (next_loc w) (IFACES w)
  /\ next_loc w' = S (next_loc w)
  /\ guid (heap w' (next_loc w)) = Some (d_guid i)
  /\ forall l, l <> next_loc w -> heap w' l = heap w l.
Proof.
  intros E.
  assert (R : returns (register_adapter i) w
                (fun _ w' =>
                   conf w' = conf w
                   /\ os w' = os w
                   /\ IFACES w'
                      = dict_set String.eqb (d_guid i) (next_loc w) (IFACES w)
                   /\ next_loc w' = S (next_loc w)
                   /\ guid (heap w' (next_loc w)) = Some (d_guid i)
                   /\ forall l, l <> next_loc w -> heap w' l = heap w l)).
  { unfold register_adapter. wp. eapply returns_weaken;
      [apply new_interface_returns |].
    cbv beta. intros l w1 [-> [Hn [Hout [Ho Hh]]]]. unfold getobj. wp.
    rewrite Ho.
    destruct (updated_fields (conf w) (get_if_list (os w)) i
                NetworkInterface_init) as [_ [_ [_ Hg]]].
    rewrite Hg. wp. simpl.
    rewrite (outside_conf _ _ Hout), (outside_os _ _ Hout),
      (outside_IFACES _ _ Hout), Ho, Hg.
    repeat split; assumption. }
  destruct (returns_any _ _ _ _ _ R E) as [[] [-> HQ]].
  split; [reflexivity | exact HQ].
Qed.

Lemma register_cached_run (e : string * (string * list string))
    (w w' : World) (r : result unit) :
  register_cached e w = (r, w') ->
  let g := cache_guid (fst (snd e)) in
  r = Ret tt
  /\ conf w' = conf w
  /\ os w' = os w
  /\ if dict_mem String.eqb g (IFACES w) then
       IFACES w' = IFACES w
       /\ next_loc w' = next_loc w
       /\ forall l, heap w' l = heap w l
     else
       IFACES w' = dict_set String.eqb g (next_loc w) (IFACES w)
       /\ next_loc w' = S (next_loc w)
       /\ guid (heap w' (next_loc w)) = Some g
       /\ forall l, l <> next_loc w -> heap w' l = heap w l.
Proof.
  destruct e as [nm [g0 ips]]. intros E g. simpl in g.
  destruct (returns_any _ _ _ _ _ (register_cached_returns nm g0 ips w) E)
    as [[] [-> [C [O HQ]]]].
  split; [reflexivity |]. split; [exact C |]. split; [exact O |].
  fold g in HQ. destruct (dict_mem String.eqb g (IFACES w)); [exact HQ |].
  destruct HQ as [Hi [Hn [Ho Hh]]].
  split; [exact Hi |]. split; [exact Hn |]. split; [| exact Hh].
  rewrite Ho.
  destruct (updated_fields (conf w) (get_if_list (os w))
              (dummy_data nm g ips) NetworkInterface_init) as [_ [_ [_ Hg]]].
  exact Hg.
Qed.

Lemma readonly_get_windows_if_list extended :
  readonly (get_windows_if_list extended).
Proof. unfold get_windows_if_list. ro. Qed.

Lemma leads_bind {A B} (Pre Post : World -> Prop) (m : M A) (k : A -> M B) :
  (forall w, Pre w -> Post w) ->
  leads Pre m Pre -> (forall a, leads Pre (k a) Post) ->
  leads Pre (bind m k) Post.
Proof.
  intros Hw Hm Hk w r w' HP E. apply bind_inv in E.
  destruct E as [[a [w1 [E1 E]]] | [e [E1 _]]].
  - exact (Hk a w1 r w' (Hm _ _ _ HP E1) E).
  - exact (Hw _ (Hm _ _ _ HP E1)).
Qed.

Lemma leads_bind_mid {A B} (Pre Mid Post : World -> Prop) (m : M A)
    (k : A -> M B) :
  leads Pre m Mid -> (forall w, Mid w -> Post w) ->
  (forall a, leads Mid (k a) Post) ->
  leads Pre (bind m k) Post.
Proof.
  intros Hm Hw Hk w r w' HP E. apply bind_inv in E.
  destruct E as [[a [w1 [E1 E]]] | [e [E1 _]]].
  - exact (Hk a w1 r w' (Hm _ _ _ HP E1) E).
  - exact (Hw _ (Hm _ _ _ HP E1)).
Qed.

Lemma leads_same_store {A} (J : World -> Prop) (m : M A) :
  store_property J ->
  (forall w w' r, m w = (r, w') -> same_store w w') ->
  leads J m J.
Proof. intros Hs Hm w r w' HJ E. exact (Hs _ _ HJ (Hm _ _ _ E)). Qed.

Lemma leads_readonly {A} (J : World -> Prop) (m : M A) :
  readonly m -> leads J m J.
Proof.
  intros Hr w r w' HJ E. specialize (Hr w). rewrite E in Hr. simpl in Hr.
  subst w'. exact HJ.
Qed.

Lemma leads_weaken {A} (Pre Post Post' : World -> Prop) (m : M A) :
  leads Pre m Post -> (forall w, Post w -> Post' w) -> leads Pre m Post'.
Proof. intros Hm Hw w r w' HP E. exact (Hw _ (Hm _ _ _ HP E)). Qed.

Lemma enumeration_registers (l : list IfData) (J : World -> Prop) :
  (forall i, In i l -> leads J (register_adapter i) J) ->
  leads J (for_each register_adapter l)
    (fun w1 =>
       J w1
       /\ forall i, In i l -> dict_mem String.eqb (d_guid i) (IFACES w1) = true).
Proof.
  revert J. induction l as [| i l IH]; intros J Hb w r w' HJ E.
  - injection E as _ <-. split; [exact HJ | intros i []].
  - simpl in E. apply bind_inv in E.
    destruct E as [[[] [w1 [E1 E]]] | [e [E1 _]]].
    + pose proof (Hb i (or_introl eq_refl) _ _ _ HJ E1) as J1.
      destruct (register_adapter_run i w w1 _ E1) as [_ [_ [_ [Hi _]]]].
      assert (Hmem : dict_mem String.eqb (d_guid i) (IFACES w1) = true).
      { rewrite Hi, dict_mem_set, String.eqb_refl. reflexivity. }
      set (J' := fun w2 =>
                   J w2
                   /\ dict_mem String.eqb (d_guid i) (IFACES w2) = true).
      assert (IH' : leads J' (for_each register_adapter l)
                      (fun w2 =>
                         J' w2
                         /\ forall j, In j l ->
                              dict_mem String.eqb (d_guid j) (IFACES w2)
                              = true)).
      { apply IH. intros j Hj wa ra wb [Ja Ma] Eb.
        split; [exact (Hb j (or_intror Hj) _ _ _ Ja Eb) |].
        destruct (register_adapter_run j wa wb _ Eb) as [_ [_ [_ [Hj' _]]]].
        rewrite Hj', dict_mem_set, Ma. apply orb_true_r. }
      destruct (IH' w1 r w' (conj J1 Hmem) E) as [[J2 M2] Hall].
      split; [exact J2 |]. intros j [<- | Hj]; [exact M2 | exact (Hall j Hj)].
    + exfalso. destruct (register_adapter_run i w w' _ E1) as [Hr _].
      discriminate Hr.
Qed.

Lemma leads_for_each {A} (J : World -> Prop) (body : A -> M unit)
    (l : list A) :
  (forall x, In x l -> leads J (body x) J) -> leads J (for_each body l) J.
Proof.
  intros Hb w r w' HJ E.
  apply (for_each_preserves body l J) with (w := w) (r := r);
    [| exact HJ | exact E].
  intros x w1 r1 w2 Hx J1 E1. exact (Hb x Hx w1 r1 w2 J1 E1).
Qed.

Lemma get_windows_if_list_same (extended : bool) (w w1 : World) :
  conf w1 = conf w -> os w1 = os w ->
  get_windows_if_list extended w1
  = (fst (get_windows_if_list extended w), w1).
Proof.
  intros C O. unfold get_windows_if_list, bind, gets, ret. simpl.
  rewrite C, O. destruct (GetAdaptersAddresses (os w)); reflexivity.
Qed.

Lemma load_body_phases (I : World -> Prop) (recur : M unit) (w : World) :
  store_property I ->
  (forall i l w1 r w2,
      conf w1 = conf w -> os w1 = os w -> I w1 ->
      fst (get_windows_if_list false w) = Ret l -> In i l ->
      register_adapter i w1 = (r, w2) -> I w2) ->
  (forall e w1 r w2,
      conf w1 = conf w -> os w1 = os w -> I w1 ->
      (forall k, In k (enumerated w) ->
                 dict_mem String.eqb k (IFACES w1) = true) ->
      In e (cache_iflist (conf w)) ->
      register_cached e w1 = (r, w2) -> I w2) ->
  (forall w1 r w2,
      conf w1 = conf w -> os w1 = os w -> I w1 ->
      recur w1 = (r, w2) -> I w2 /\ conf w2 = conf w /\ os w2 = os w) ->
  forall r w',
    I w -> load_body recur w = (r, w') ->
    I w' /\ conf w' = conf w /\ os w' = os w.
Proof.
  intros Hst Hadapter Hcached Hrec r w' HI E.
  set (J := fun w1 => I w1 /\ conf w1 = conf w /\ os w1 = os w).
  set (J' := fun w1 =>
               J w1
               /\ forall k, In k (enumerated w) ->
                            dict_mem String.eqb k (IFACES w1) = true).
  assert (HJ : J w) by (repeat split; assumption).
  assert (Jst : store_property J).
  { intros w1 w2 [I1 [C1 O1]] S. split; [exact (Hst _ _ I1 S) |].
    destruct S as [C [O _]]. split; congruence. }
  assert (Jst' : store_property J').
  { intros w1 w2 [J1 K1] S. split; [exact (Jst _ _ J1 S) |].
    destruct S as [_ [_ [_ [_ Hi]]]]. rewrite Hi. exact K1. }
  assert (Hw : forall w1, J' w1 -> J w1) by (intros w1 [J1 _]; exact J1).
  assert (Jcache : leads J' load_cache_iflist J).
  { apply leads_weaken with (Post := J'); [| exact Hw].
    intros w1 r1 w2 J1 E1. unfold load_cache_iflist in E1.
    rewrite bind_run in E1. unfold gets at 1 in E1. cbv iota beta in E1.
    rewrite (proj1 (proj2 (proj1 J1))) in E1.
    refine (leads_for_each J' register_cached _ _ w1 r1 w2 J1 E1).
    intros e He wa ra wb [[Ia [Ca Oa]] Ka] Eb.
    destruct (register_cached_run e wa wb ra Eb) as [_ [Cb [Ob HQ]]].
    split; [split; [| split; congruence] |].
    - exact (Hcached e wa ra wb Ca Oa Ia Ka He Eb).
    - intros k Hk. specialize (Ka k Hk). cbv zeta in HQ.
      destruct (dict_mem String.eqb (cache_guid (fst (snd e))) (IFACES wa)).
      + destruct HQ as [Hi _]. rewrite Hi. exact Ka.
      + destruct HQ as [Hi _]. rewrite Hi, dict_mem_set, Ka.
        apply orb_true_r. }
  assert (Jlog : forall rec, leads J' (log rec) J').
  { intros rec. apply leads_same_store; [exact Jst' |].
    apply same_store_log. }
  refine ((_ : leads J (load_body recur) J) w r w' HJ E).
  clear r w' HJ E HI. unfold load_body.
  apply leads_bind; [auto | apply leads_readonly; ro |]. intros c.
  destruct (negb (prog_os_access c)); [apply leads_readonly; ro |].
  intros w1 r w' [I1 [C1 O1]] E. apply bind_inv in E.
  rewrite (get_windows_if_list_same false w w1 C1 O1) in E.
  destruct E as [[l [w2 [El E]]] | [e [El _]]];
    [| injection El as _ <-; repeat split; assumption].
  injection El as El <-.
  assert (Hen : map d_guid l = enumerated w).
  { apply (get_windows_if_list_inv false w (snd (get_windows_if_list false w))).
    rewrite <- El. destruct (get_windows_if_list false w). reflexivity. }
  refine (leads_bind_mid J J' J (for_each register_adapter l) _ _ Hw _
            w1 r w' (conj I1 (conj C1 O1)) E).
  { intros wa ra wb Ja Ea.
    destruct (enumeration_registers l J) with (w := wa) (r := ra) (w' := wb)
      as [J3 K3]; [| exact Ja | exact Ea |].
    - intros i Hi wc rc wd [Ic [Cc Oc]] Ed.
      destruct (register_adapter_run i wc wd rc Ed) as [_ [Cd [Od _]]].
      split; [| split; congruence].
      exact (Hadapter i l wc rc wd Cc Oc Ic El Hi Ed).
    - split; [exact J3 |]. intros k Hk. rewrite <- Hen in Hk.
      apply in_map_iff in Hk. destruct Hk as [i [<- Hi]]. exact (K3 i Hi). }
  intros [].
  apply leads_bind; [exact Hw | apply leads_readonly; ro |].
  intros d. cbv zeta.
  destruct (dict_is_empty d && use_winpcapy c).
  - apply leads_bind; [exact Hw | |].
    { apply leads_same_store; [exact Jst' | apply same_store_status]. }
    intros _detect.
    apply leads_bind; [exact Hw | apply leads_readonly; ro |].
    intros ra. destruct (negb _detect && negb _).
    + apply leads_bind; [exact Hw | apply Jlog |]. intros _.
      apply leads_bind; [exact Hw | |].
      { destruct (negb (interactive c)); [apply leads_readonly; ro |].
        apply leads_same_store; [exact Jst' | apply same_store_ask_user]. }
      intros go. destruct go.
      * apply leads_bind; [exact Hw | |].
        { apply leads_same_store; [exact Jst' | apply same_store_start]. }
        intros succeed. apply leads_bind; [exact Hw | |].
        { apply leads_same_store; [exact Jst' |].
          intros wa wb rb [= _ <-]. repeat split. }
        intros _. destruct succeed.
        -- apply leads_bind; [exact Hw | apply Jlog |]. intros _.
           intros wa rb wb [[Ia [Ca Oa]] _] Eb.
           exact (Hrec wa rb wb Ca Oa Ia Eb).
        -- apply leads_bind; [exact Hw | apply Jlog |]. intros _.
           exact Jcache.
      * apply leads_bind; [exact Hw | apply Jlog |]. intros _. exact Jcache.
    + apply leads_bind; [exact Hw | apply Jlog |]. intros _. exact Jcache.
  - apply leads_bind; [exact Hw | | intros _; exact Jcache].
    apply leads_same_store; [exact Jst' | apply same_store_loopback].
Qed.

Lemma load_phases (I : World -> Prop) (w : World) :
  store_property I ->
  (forall i l w1 r w2,
      conf w1 = conf w -> os w1 = os w -> I w1 ->
      fst (get_windows_if_list false w) = Ret l -> In i l ->
      register_adapter i w1 = (r, w2) -> I w2) ->
  (forall e w1 r w2,
      conf w1 = conf w -> os w1 = os w -> I w1 ->
      (forall k, In k (enumerated w) ->
                 dict_mem String.eqb k (IFACES w1) = true) ->
      In e (cache_iflist (conf w)) ->
      register_cached e w1 = (r, w2) -> I w2) ->
  forall r w',
    I w -> load w = (r, w') ->
    I w' /\ conf w' = conf w /\ os w' = os w.
Proof.
  intros Hst Hadapter Hcached r w' HI E. unfold load in E.
  apply (load_body_phases I (load_body (ret tt)) w Hst Hadapter Hcached)
    with (r := r); [| exact HI | exact E].
  intros w1 r1 w2 C1 O1 I1 E1.
  assert (En : enumerated w1 = enumerated w)
    by (unfold enumerated; rewrite O1; reflexivity).
  assert (El : fst (get_windows_if_list false w1)
               = fst (get_windows_if_list false w)).
  { rewrite (get_windows_if_list_same false w w1 C1 O1). reflexivity. }
  destruct (load_body_phases I (ret tt) w1 Hst) with (r := r1) (w' := w2)
    as [I2 [C2 O2]]; try assumption.
  - intros i l wa ra wb Ca Oa Ia Hl Hi. rewrite El in Hl.
    apply (Hadapter i l wa ra wb); congruence.
  - intros e wa ra wb Ca Oa Ia Ka He. rewrite C1 in He. rewrite En in Ka.
    apply (Hcached e wa ra wb); first [assumption | congruence].
  - intros wa ra wb Ca Oa Ia [= _ <-]. repeat split; assumption.
  - split; [exact I2 |]. split; congruence.
Qed.

Lemma load_preserves (I : World -> Prop) (w : World) :
  store_property I ->
  (forall i w1 r w2,
      conf w1 = conf w -> os w1 = os w -> I w1 ->
      In (d_guid i) (enumerated w) ->
      register_adapter i w1 = (r, w2) -> I w2) ->
  (forall e w1 r w2,
      conf w1 = conf w -> os w1 = os w -> I w1 ->
      In e (cache_iflist (conf w)) ->
      register_cached e w1 = (r, w2) -> I w2) ->
  forall r w',
    I w -> load w = (r, w') ->
    I w' /\ conf w' = conf w /\ os w' = os w.
Proof.
  intros Hst Hadapter Hcached. apply load_phases; [exact Hst | |].
  - intros i l w1 r w2 C1 O1 I1 Hl Hi. apply Hadapter; try assumption.
    pose proof (get_windows_if_list_same false w w eq_refl eq_refl) as El.
    rewrite Hl in El. apply get_windows_if_list_inv in El.
    destruct El as [_ <-]. apply in_map. exact Hi.
  - intros e w1 r w2 C1 O1 I1 _. apply Hcached; assumption.
Qed.

(** X23.  Whatever its outcome, [load] leaves every object that existed
    before as it is (the interfaces it registers are new objects) and keeps
    every key of the registry. *)
Theorem load_keeps_registry (w w' : World) (r : result unit) :
  load w = (r, w') ->
  (next_loc w <= next_loc w')%nat
  /\ (forall l, (l < next_loc w)%nat -> heap w' l = heap w l)
  /\ (forall k,
        dict_mem String.eqb k (IFACES w) = true ->
        dict_mem String.eqb k (IFACES w') = true).
Proof.
  intros E.
  set (I := fun w1 =>
              (next_loc w <= next_loc w1)%nat
              /\ (forall l, (l < next_loc w)%nat -> heap w1 l = heap w l)
              /\ (forall k,
                    dict_mem String.eqb k (IFACES w) = true ->
                    dict_mem String.eqb k (IFACES w1) = true)).
  refine (proj1 (load_preserves I w _ _ _ r w' _ E)).
  - intros w1 w2 [N1 [H1 K1]] [_ [_ [Hh [Hn Hi]]]]. unfold I.
    rewrite Hh, Hn, Hi. repeat split; assumption.
  - intros i w1 r1 w2 _ _ [N1 [H1 K1]] _ E1.
    destruct (register_adapter_run i w1 w2 r1 E1)
      as [_ [_ [_ [Hi [Hn [_ Hh]]]]]].
    split; [lia |]. split.
    + intros l Hl. rewrite Hh by lia. apply H1. exact Hl.
    + intros k Hk. rewrite Hi, dict_mem_set, (K1 k Hk). apply orb_true_r.
  - intros e w1 r1 w2 _ _ [N1 [H1 K1]] _ E1.
    destruct (register_cached_run e w1 w2 r1 E1) as [_ [_ [_ HQ]]].
    destruct (dict_mem String.eqb _ (IFACES w1)).
    + destruct HQ as [Hi [Hn Hh]]. split; [lia |]. split.
      * intros l Hl. rewrite Hh. apply H1. exact Hl.
      * intros k Hk. rewrite Hi. apply K1. exact Hk.
    + destruct HQ as [Hi [Hn [_ Hh]]]. split; [lia |]. split.
      * intros l Hl. rewrite Hh by lia. apply H1. exact Hl.
      * intros k Hk. rewrite Hi, dict_mem_set, (K1 k Hk). apply orb_true_r.
  - repeat split; auto.
Qed.

Lemma dict_get_set (k k' : string) {V} (v : V) (d : list (string * V)) :
  dict_get String.eqb k (dict_set String.eqb k' v d)
  = if String.eqb k' k then Some v else dict_get String.eqb k d.
Proof.
  destruct (String.eqb_spec k' k) as [-> | NE].
  - apply dict_get_set_same.
  - apply dict_get_set_other. exact NE.
Qed.

Lemma keyed_by_guid_set (w w' : World) (g : string) :
  keyed_by_guid w ->
  IFACES w' = dict_set String.eqb g (next_loc w) (IFACES w) ->
  next_loc w' = S (next_loc w) ->
  guid (heap w' (next_loc w)) = Some g ->
  (forall l, l <> next_loc w -> heap w' l = heap w l) ->
  keyed_by_guid w'.
Proof.
  intros Hk Hi Hn Hg Hh k l Hget. rewrite Hi, dict_get_set in Hget.
  rewrite Hn. destruct (String.eqb_spec g k) as [-> | NE].
  - injection Hget as <-. split; [lia | exact Hg].
  - destruct (Hk k l Hget) as [Hl Hgl]. split; [lia |].
    rewrite Hh by lia. exact Hgl.
Qed.

Lemma load_keyed_by_guid (w w' : World) (r : result unit) :
  keyed_by_guid w -> load w = (r, w') -> keyed_by_guid w'.
Proof.
  intros Hk E.
  refine (proj1 (load_preserves keyed_by_guid w _ _ _ r w' Hk E)).
  - intros w1 w2 K1 [_ [_ [Hh [Hn Hi]]]] k l. rewrite Hi, Hh, Hn. apply K1.
  - intros i w1 r1 w2 _ _ K1 _ E1.
    destruct (register_adapter_run i w1 w2 r1 E1)
      as [_ [_ [_ [Hi [Hn [Hg Hh]]]]]].
    exact (keyed_by_guid_set w1 w2 _ K1 Hi Hn Hg Hh).
  - intros e w1 r1 w2 _ _ K1 _ E1.
    destruct (register_cached_run e w1 w2 r1 E1) as [_ [_ [_ HQ]]].
    destruct (dict_mem String.eqb _ (IFACES w1)).
    + destruct HQ as [Hi [Hn Hh]]. intros k l. rewrite Hi, Hn, Hh. apply K1.
    + destruct HQ as [Hi [Hn [Hg Hh]]].
      exact (keyed_by_guid_set w1 w2 _ K1 Hi Hn Hg Hh).
Qed.

Lemma load_keys (w w' : World) (r : result unit) :
  load w = (r, w') ->
  forall k,
    dict_mem String.eqb k (IFACES w') = true ->
    dict_mem String.eqb k (IFACES w) = true \/ loadable w k.
Proof.
  intros E.
  set (I := fun w1 =>
              forall k,
                dict_mem String.eqb k (IFACES w1) = true ->
                dict_mem String.eqb k (IFACES w) = true \/ loadable w k).
  refine (proj1 (load_preserves I w _ _ _ r w' _ E)).
  - intros w1 w2 K1 [_ [_ [_ [_ Hi]]]] k. rewrite Hi. apply K1.
  - intros i w1 r1 w2 _ _ K1 Hen E1.
    destruct (register_adapter_run i w1 w2 r1 E1) as [_ [_ [_ [Hi _]]]].
    intros k Hk. rewrite Hi, dict_mem_set in Hk.
    apply orb_true_iff in Hk. destruct Hk as [Hk | Hk]; [| exact (K1 k Hk)].
    apply String.eqb_eq in Hk. subst k. right. left. exact Hen.
  - intros e w1 r1 w2 _ _ K1 He E1.
    destruct (register_cached_run e w1 w2 r1 E1) as [_ [_ [_ HQ]]].
    destruct (dict_mem String.eqb _ (IFACES w1)).
    + destruct HQ as [Hi _]. intros k. rewrite Hi. apply K1.
    + destruct HQ as [Hi _]. intros k Hk. rewrite Hi, dict_mem_set in Hk.
      apply orb_true_iff in Hk. destruct Hk as [Hk | Hk]; [| exact (K1 k Hk)].
      apply String.eqb_eq in Hk. subst k. right. right.
      apply (in_map (fun e => cache_guid (fst (snd e)))). exact He.
  - intros k Hk. left. exact Hk.
Qed.

(** X24.  [load] keeps the registry keyed by identifier: when every key
    is the identifier of the interface it maps to, this is so afterwards.
    After [reload] it is so in any case. *)
Theorem registry_keyed_by_guid (w w' : World) (r : result unit) :
  (keyed_by_guid w -> load w = (r, w') -> keyed_by_guid w')
  /\ (reload w = (r, w') -> keyed_by_guid w').
Proof.
  split.
  - apply load_keyed_by_guid.
  - unfold reload, bind, modify. simpl. apply load_keyed_by_guid.
    intros k l Hget. discriminate Hget.
Qed.

(** X25.  After [reload], every key of the registry is the identifier of
    an enumerated adapter or the normalised identifier of an entry of
    [conf.cache_iflist]: what the registry held before is gone.  On a host
    without powershell and cscript, [reload] returns with an empty
    registry. *)
Theorem reload_registers_loadable (w w' : World) (r : result unit) :
  reload w = (r, w') ->
  (forall k, dict_mem String.eqb k (IFACES w') = true -> loadable w k)
  /\ (prog_os_access (conf w) = false ->
      r = Ret tt /\ IFACES w' = [] /\ restarted_adapter w' = Some false).
Proof.
  intros E. unfold reload, bind, modify in E. simpl in E. split.
  - intros k Hk. destruct (load_keys _ _ _ E k Hk) as [Hc | Hl].
    + discriminate Hc.
    + exact Hl.
  - intros Hacc.
    set (w0 := set_IFACES [] (set_restarted_adapter (Some false) w)) in E.
    assert (Hacc0 : prog_os_access (conf w0) = false) by exact Hacc.
    unfold load, load_body in E. rewrite bind_run in E.
    unfold gets at 1 in E. cbv iota beta in E.
    rewrite Hacc0 in E. injection E as <- <-. repeat split.
Qed.

Lemma register_adapter_object (i : IfData) (w w' : World) (r : result unit) :
  register_adapter i w = (r, w') ->
  heap w' (next_loc w)
  = updated (conf w) (get_if_list (os w)) i NetworkInterface_init.
Proof.
  intros E.
  assert (R : returns (register_adapter i) w
                (fun _ w' =>
                   heap w' (next_loc w)
                   = updated (conf w) (get_if_list (os w)) i
                       NetworkInterface_init)).
  { unfold register_adapter. wp. eapply returns_weaken;
      [apply new_interface_returns |].
    cbv beta. intros l w1 [-> [Hn [Hout [Ho Hh]]]]. unfold getobj. wp.
    rewrite Ho.
    destruct (updated_fields (conf w) (get_if_list (os w)) i
                NetworkInterface_init) as [_ [_ [_ Hg]]].
    rewrite Hg. wp. simpl. exact Ho. }
  destruct (returns_any _ _ _ _ _ R E) as [_ [_ HQ]]. exact HQ.
Qed.

Lemma enumerated_record (w : World) (l : list IfData) (i : IfData) :
  fst (get_windows_if_list false w) = Ret l -> In i l ->
  exists adapters x,
    GetAdaptersAddresses (os w) = Ret adapters
    /\ In x adapters
    /\ d_netid i = None
    /\ d_guid i = adapter_name x
    /\ d_name i = friendly_name x
    /\ d_description i = raw_description x
    /\ d_win_index i = interface_index x.
Proof.
  unfold get_windows_if_list, bind, gets, ret. simpl.
  destruct (GetAdaptersAddresses (os w)) as [adapters | e]; [| discriminate].
  simpl. intros [= <-] Hi. apply in_map_iff in Hi.
  destruct Hi as [x [<- Hx]]. exists adapters, x. repeat split. exact Hx.
Qed.

Lemma load_prefers_adapters (w w' : World) (r : result unit) :
  (forall k l,
      dict_get String.eqb k (IFACES w) = Some l ->
      (l < next_loc w)%nat
      /\ (In k (enumerated w) -> from_adapter w k (heap w l))) ->
  load w = (r, w') ->
  forall k l,
    dict_get String.eqb k (IFACES w') = Some l ->
    (l < next_loc w')%nat
    /\ (In k (enumerated w) -> from_adapter w k (heap w' l)).
Proof.
  intros HI E.
  set (I := fun w1 =>
              forall k l,
                dict_get String.eqb k (IFACES w1) = Some l ->
                (l < next_loc w1)%nat
                /\ (In k (enumerated w) -> from_adapter w k (heap w1 l))).
  refine (proj1 (load_phases I w _ _ _ r w' HI E)).
  - intros w1 w2 I1 [_ [_ [Hh [Hn Hi]]]] k l. rewrite Hi, Hh, Hn. apply I1.
  - intros i l0 w1 r1 w2 C1 O1 I1 Hl Hi E1.
    destruct (register_adapter_run i w1 w2 r1 E1)
      as [_ [_ [_ [Hreg [Hn [_ Hh]]]]]].
    pose proof (register_adapter_object i w1 w2 r1 E1) as Ho.
    destruct (enumerated_record w l0 i Hl Hi)
      as [adapters [x [Ha [Hx [Hnet [Hg [Hnm [Hd Hix]]]]]]]].
    intros k l Hget. rewrite Hreg, dict_get_set in Hget. rewrite Hn.
    destruct (String.eqb_spec (d_guid i) k) as [Ek | NE].
    + injection Hget as <-. split; [lia |]. intros _.
      exists adapters, x.
      destruct (updated_fields (conf w1) (get_if_list (os w1)) i
                  NetworkInterface_init) as [Un [Ud [Uw Ug]]].
      rewrite Ho, Un, Ud, Uw, Ug. simpl name. rewrite Hnet. simpl opt_eqb.
      cbv iota. rewrite <- Ek, Hg, Hnm, Hd, Hix. repeat split; assumption.
    + destruct (I1 k l Hget) as [Hl' Hf]. split; [lia |].
      rewrite Hh by lia. exact Hf.
  - intros e w1 r1 w2 C1 O1 I1 K1 He E1.
    destruct (register_cached_run e w1 w2 r1 E1) as [_ [_ [_ HQ]]].
    cbv zeta in HQ.
    destruct (dict_mem String.eqb (cache_guid (fst (snd e))) (IFACES w1))
      eqn:Hmem.
    + destruct HQ as [Hi [Hn Hh]]. intros k l. rewrite Hi, Hn, Hh. apply I1.
    + destruct HQ as [Hi [Hn [_ Hh]]]. intros k l Hget.
      rewrite Hi, dict_get_set in Hget. rewrite Hn.
      destruct (String.eqb_spec (cache_guid (fst (snd e))) k) as [Ek | NE].
      * injection Hget as <-. split; [lia |]. intros Hk. exfalso.
        rewrite <- Ek in Hk. rewrite (K1 _ Hk) in Hmem. discriminate Hmem.
      * destruct (I1 k l Hget) as [Hl' Hf]. split; [lia |].
        rewrite Hh by lia. exact Hf.
Qed.

(** X26.  After [reload], the interface registered under the identifier
    of an enumerated adapter has the name, the description and the index
    that the operating system reports for an adapter with that identifier:
    an entry of [conf.cache_iflist] never takes the place of an enumerated
    adapter. *)
Theorem reload_prefers_adapters (w w' : World) (r : result unit) :
  reload w = (r, w') ->
  forall k l,
    In k (enumerated w) ->
    dict_get String.eqb k (IFACES w') = Some l ->
    from_adapter w k (heap w' l).
Proof.
  intros E k l Hk Hget. unfold reload, bind, modify in E. simpl in E.
  refine (proj2 (load_prefers_adapters
                   (set_IFACES [] (set_restarted_adapter (Some false) w))
                   w' r _ E k l Hget) Hk).
  intros k0 l0 H0. discriminate H0.
Qed.

(** ** What [load] raises *)

Lemma raises_only_bind {A B} P J (m : M A) (k : A -> M B) :
  raises_only P J m -> (forall a, raises_only P J (k a)) ->
  raises_only P J (bind m k).
Proof.
  intros Hm Hk w r w' HJ E. apply bind_inv in E.
  destruct E as [[a [w1 [E1 E]]] | [e [E1 ->]]].
  - destruct (Hm _ _ _ HJ E1) as [J1 _]. exact (Hk a _ _ _ J1 E).
  - exact (Hm _ _ _ HJ E1).
Qed.

Lemma raises_only_total {A} P (J : World -> Prop) (m : M A) :
  (forall w r w', J w -> m w = (r, w') -> J w' /\ exists a, r = Ret a) ->
  raises_only P J m.
Proof.
  intros Hm w r w' HJ E. destruct (Hm _ _ _ HJ E) as [J1 [a ->]].
  split; [exact J1 | exact I].
Qed.

Lemma raises_only_for_each {A} P J (body : A -> M unit) (l : list A) :
  (forall x, In x l -> raises_only P J (body x)) ->
  raises_only P J (for_each body l).
Proof.
  induction l as [| x l IH]; intros Hb.
  - intros w r w' HJ [= <- <-]. split; [exact HJ | exact I].
  - simpl. apply raises_only_bind; [apply Hb; left; reflexivity |].
    intros _. apply IH. intros y Hy. apply Hb. right. exact Hy.
Qed.

Lemma ask_loop_raises (c : Conf) (lines : list string) (e : exn) :
  fst (ask_loop c lines) = Raise e -> e = EndOfInput.
Proof.
  induction lines as [| line lines IH].
  - intros [= <-]. reflexivity.
  - unfold ask_loop; fold ask_loop. cbv zeta.
    destruct (existsb (String.eqb (input_lower_strip c line))
                ["yes"; "y"; EmptyString]); [discriminate |].
    destruct (existsb (String.eqb (input_lower_strip c line)) ["no"; "n"]);
      [discriminate | exact IH].
Qed.

Lemma load_body_raises (recur : M unit) (w : World) :
  let P e :=
    GetAdaptersAddresses (os w) = Raise e
    \/ (interactive (conf w) = true /\ e = EndOfInput) in
  let J w1 := conf w1 = conf w /\ os w1 = os w in
  raises_only P J recur -> raises_only P J (load_body recur).
Proof.
  intros P J Hrec.
  assert (Jst : forall {A} (m : M A),
             (forall w1 w2 r, m w1 = (r, w2) ->
                              same_store w1 w2 /\ exists a, r = Ret a) ->
             raises_only P J m).
  { intros A m Hm. apply raises_only_total. intros w1 r w2 [C1 O1] E.
    destruct (Hm _ _ _ E) as [[C [O _]] Hr].
    split; [split; congruence | exact Hr]. }
  assert (Jro : forall {A} (f : World -> A), raises_only P J (gets f)).
  { intros A f. apply Jst. intros w1 w2 r [= <- <-].
    split; [apply same_store_refl | eexists; reflexivity]. }
  assert (Jlog : forall rec, raises_only P J (log rec)).
  { intros rec. apply Jst. intros w1 w2 r [= <- <-].
    split; [repeat split | eexists; reflexivity]. }
  assert (Jcache : raises_only P J load_cache_iflist).
  { unfold load_cache_iflist. apply raises_only_bind; [apply Jro |].
    intros c. apply raises_only_for_each. intros e _.
    apply raises_only_total. intros w1 r w2 [C1 O1] E.
    destruct (register_cached_run e w1 w2 r E) as [-> [C [O _]]].
    split; [split; congruence | eexists; reflexivity]. }
  unfold load_body. apply raises_only_bind; [apply Jro |]. intros c.
  destruct (negb (prog_os_access c)).
  { apply Jst. intros w1 w2 r [= <- <-].
    split; [apply same_store_refl | eexists; reflexivity]. }
  apply raises_only_bind.
  { intros w1 r w2 [C1 O1] E.
    pose proof (readonly_get_windows_if_list false w1) as Hr.
    rewrite E in Hr. simpl in Hr. subst w2. split; [split; assumption |].
    destruct r as [l | e]; [exact I |]. left. rewrite <- O1.
    revert E. unfold get_windows_if_list, bind, gets, ret. simpl.
    destruct (GetAdaptersAddresses (os w1)); [discriminate |].
    intros [= ->]. reflexivity. }
  intros l. apply raises_only_bind.
  { apply raises_only_for_each. intros i _.
    apply raises_only_total. intros w1 r w2 [C1 O1] E.
    destruct (register_adapter_run i w1 w2 r E) as [-> [C [O _]]].
    split; [split; congruence | eexists; reflexivity]. }
  intros []. apply raises_only_bind; [apply Jro |]. intros d. cbv zeta.
  destruct (dict_is_empty d && use_winpcapy c).
  - apply raises_only_bind.
    { apply Jst. intros w1 w2 r E. split; [exact (same_store_status _ _ _ E) |].
      revert E. unfold pcap_service_status. rewrite bind_run.
      unfold gets at 1. cbv iota beta. rewrite bind_run, exec_cmd_run.
      intros [= <- _]. eexists. reflexivity. }
    intros _detect. apply raises_only_bind; [apply Jro |].
    intros ra. destruct (negb _detect && negb _).
    + apply raises_only_bind; [apply Jlog |]. intros _.
      apply raises_only_bind.
      { destruct (negb (interactive c)).
        - apply Jst. intros w1 w2 r [= <- <-].
          split; [apply same_store_refl | eexists; reflexivity].
        - intros w1 r w2 [C1 O1] E.
          destruct (same_store_ask_user _ _ _ E) as [C [O _]].
          split; [split; congruence |].
          destruct r as [b | e]; [exact I |]. right.
          revert E. unfold _ask_user, bind, gets, ret. simpl.
          rewrite C1. destruct (interactive (conf w)); simpl;
            [| discriminate].
          destruct (ask_loop (conf w) (stdin w1)) as [r0 rest] eqn:El.
          intros [= -> _]. split; [reflexivity |].
          apply (ask_loop_raises (conf w) (stdin w1)). rewrite El.
          reflexivity. }
      intros go. destruct go.
      * apply raises_only_bind.
        { apply Jst. intros w1 w2 r E.
          split; [exact (same_store_start _ _ _ _ E) |].
          revert E. unfold pcap_service_start.
          rewrite pcap_service_control_run.
          destruct (truthy _); intros [= <- _]; eexists; reflexivity. }
        intros succeed. apply raises_only_bind.
        { apply Jst. intros w1 w2 r [= <- <-].
          split; [repeat split | eexists; reflexivity]. }
        intros _. destruct succeed.
        -- apply raises_only_bind; [apply Jlog |]. intros _. exact Hrec.
        -- apply raises_only_bind; [apply Jlog |]. intros _. exact Jcache.
      * apply raises_only_bind; [apply Jlog |]. intros _. exact Jcache.
    + apply raises_only_bind; [apply Jlog |]. intros _. exact Jcache.
  - apply raises_only_bind; [| intros _; exact Jcache].
    apply Jst. intros w1 w2 r E.
    split; [exact (same_store_loopback _ _ _ _ E) |].
    revert E.
    unfold try_except, dev_from_name, bind, gets, modify, ret, raise. simpl.
    destruct (Py.next_such _ _); simpl; intros [= <- _]; eexists; reflexivity.
Qed.

(** X27.  [load] and [reload] raise nothing but the error of
    [GetAdaptersAddresses] and, in an interactive session, the [EOFError] of
    the prompt: a capture service that cannot be queried or started makes
    them log, not raise. *)
Theorem load_raises_only (w w' : World) (e : exn) :
  load w = (Raise e, w') \/ reload w = (Raise e, w') ->
  GetAdaptersAddresses (os w) = Raise e
  \/ (interactive (conf w) = true /\ e = EndOfInput).
Proof.
  assert (Hl : forall w0 w1,
             conf w0 = conf w -> os w0 = os w ->
             load w0 = (Raise e, w1) ->
             GetAdaptersAddresses (os w) = Raise e
             \/ (interactive (conf w) = true /\ e = EndOfInput)).
  { intros w0 w1 C0 O0 E. unfold load in E.
    assert (R : raises_only
                  (fun e => GetAdaptersAddresses (os w) = Raise e
                            \/ (interactive (conf w) = true
                                /\ e = EndOfInput))
                  (fun w1 => conf w1 = conf w /\ os w1 = os w)
                  (load_body (load_body (ret tt)))).
    { pose proof (load_body_raises (load_body (ret tt)) w) as L1.
      pose proof (load_body_raises (ret tt) w) as L2.
      cbv zeta in L1, L2. apply L1, L2.
      intros wa r wb Ja [= <- <-]. split; [exact Ja | exact I]. }
    exact (proj2 (R w0 (Raise e) w1 (conj C0 O0) E)). }
  intros [E | E].
  - exact (Hl w w' eq_refl eq_refl E).
  - unfold reload, bind, modify in E. simpl in E.
    exact (Hl (set_IFACES [] (set_restarted_adapter (Some false) w)) w'
             eq_refl eq_refl E).
Qed.

(** ** The getters of the wireless layer *)

Lemma checked_asks_helper (self : loc) (key : string) (w : World)
    (g : string) :
  use_npcap (conf w) = true ->
  guid (heap w self) = Some g ->
  dot11_capable w self = true ->
  asks_helper (_check_npcap_requirement self ;; _npcap_get self key) w g key.
Proof.
  intros Hnp Hg Hcap.
  destruct (check_npcap_run self w g Hnp Hg) as [w1 [E [Hf [_ [_ Hg1]]]]].
  rewrite Hcap in E. pose proof (frame_outside _ _ _ Hf) as Ho.
  destruct (npcap_get_returns self key w1 g Hg1) as [out [w2 [Eg [Hout Hw2]]]].
  cbv zeta in Hout, Hw2. rewrite (outside_conf _ _ Ho) in Hout, Hw2.
  assert (Hex : forall c, exec_output w1 c = exec_output w c).
  { intros c. unfold exec_output.
    rewrite (outside_os _ _ Ho), (outside_executed _ _ Ho). reflexivity. }
  rewrite Hex in Hout. subst out w2.
  unfold asks_helper. exists (set_executed
    (executed w1
     ++ [Py.join " " [_WlanHelper (conf w); Py.slice_1_m1 g; key]]) w1).
  rewrite bind_run, E. split; [exact Eg |]. simpl.
  rewrite (outside_executed _ _ Ho), (outside_logged _ _ Ho).
  split; reflexivity.
Qed.

(** X28.  With Npcap and an interface that can do raw 802.11, [mode] and
    [modulation] each run exactly one command, the helper (not elevated)
    with the identifier of the interface without its braces and the key
    [mode] or [modu], log nothing, and return what the helper printed,
    stripped.  A helper that exits with another code than 0 makes them
    return [error] instead of raising. *)
Theorem wireless_getters_ask_helper (w : World) (self : loc) (g : string) :
  use_npcap (conf w) = true ->
  guid (heap w self) = Some g ->
  dot11_capable w self = true ->
  asks_helper (mode self) w g "mode"
  /\ asks_helper (modulation self) w g "modu"
  /\ (forall key,
        fst (Popen (os w) (List.length (executed w))
               (Py.join " " [_WlanHelper (conf w); Py.slice_1_m1 g; key]))
        <> 0 ->
        Py.strip
          (exec_output w
             (Py.join " " [_WlanHelper (conf w); Py.slice_1_m1 g; key]))
        = "error").
Proof.
  intros Hnp Hg Hcap. split; [| split].
  - apply (checked_asks_helper self "mode" w g Hnp Hg Hcap).
  - apply (checked_asks_helper self "modu" w g Hnp Hg Hcap).
  - intros key. unfold exec_output.
    destruct (Popen _ _ _) as [rc out]. simpl. intros NE.
    apply Z.eqb_neq in NE. rewrite NE. reflexivity.
Qed.

(** ** When [load] is quiet *)

Lemma quiet_refl w : quiet w w.
Proof. repeat split. Qed.

Lemma quiet_trans w1 w2 w3 : quiet w1 w2 -> quiet w2 w3 -> quiet w1 w3.
Proof.
  intros [A1 [B1 [C1 [D1 E1]]]] [A2 [B2 [C2 [D2 E2]]]].
  repeat split; congruence.
Qed.

Lemma new_interface_quiet (d : IfData) (w w' : World) (r : result loc) :
  new_NetworkInterface (Some d) w = (r, w') ->
  quiet w w' /\ IFACES w' = IFACES w.
Proof.
  intros E.
  destruct (returns_any _ _ _ _ _ (new_interface_returns d w) E)
    as [l [_ [_ [_ [Hout _]]]]].
  unfold outside_heap in Hout.
  injection Hout as Hc _ Hs Hi Hr _ He Hl. repeat split; assumption.
Qed.

Lemma register_adapter_quiet (i : IfData) (w w' : World) (r : result unit) :
  register_adapter i w = (r, w') -> quiet w w'.
Proof.
  unfold register_adapter. intros E. apply bind_inv in E.
  destruct E as [[l [w1 [E1 E]]] | [e [E1 _]]];
    [| exact (proj1 (new_interface_quiet _ _ _ _ E1))].
  destruct (new_interface_quiet _ _ _ _ E1) as [Q1 _].
  apply (quiet_trans _ _ _ Q1). revert E.
  unfold getobj, bind, gets, modify, raise. simpl.
  destruct (guid (heap w1 l)); intros [= _ <-]; repeat split.
Qed.

Lemma register_cached_quiet (e : string * (string * list string))
    (w w' : World) (r : result unit) :
  register_cached e w = (r, w') -> quiet w w'.
Proof.
  destruct e as [nm [g ips]]. unfold register_cached.
  rewrite bind_run. unfold gets at 1. cbv iota beta.
  destruct (negb (dict_mem String.eqb (cache_guid g) (IFACES w)));
    [| intros [= _ <-]; apply quiet_refl].
  intros E. apply bind_inv in E.
  destruct E as [[l [w1 [E1 E]]] | [e [E1 _]]];
    [| exact (proj1 (new_interface_quiet _ _ _ _ E1))].
  destruct (new_interface_quiet _ _ _ _ E1) as [Q1 _].
  apply (quiet_trans _ _ _ Q1). injection E as _ <-. repeat split.
Qed.

Lemma load_body_quiet (recur : M unit) (w w' : World) (r : result unit) :
  use_winpcapy (conf w) = false
  \/ IFACES w <> []
  \/ (exists a adapters, GetAdaptersAddresses (os w) = Ret (a :: adapters)) ->
  load_body recur w = (r, w') ->
  quiet w w'.
Proof.
  intros Hyp E. unfold load_body in E. rewrite bind_run in E.
  unfold gets at 1 in E. cbv iota beta in E.
  destruct (negb (prog_os_access (conf w)));
    [injection E as _ <-; apply quiet_refl |].
  apply bind_inv in E.
  rewrite (get_windows_if_list_same false w w eq_refl eq_refl) in E.
  destruct E as [[l [w1 [El E]]] | [e [El _]]];
    [| injection El as _ <-; apply quiet_refl].
  injection El as El <-.
  assert (Hl : l = [] ->
               ~ exists a adapters,
                   GetAdaptersAddresses (os w) = Ret (a :: adapters)).
  { intros -> [a [adapters Ha]]. revert El.
    unfold get_windows_if_list, bind, gets, ret. simpl. rewrite Ha.
    discriminate. }
  apply bind_inv in E.
  assert (Hloop : forall r3 w3,
             for_each register_adapter l w = (r3, w3) ->
             quiet w w3
             /\ (use_winpcapy (conf w) = false \/ IFACES w3 <> [])).
  { intros r3 w3 Eloop.
    destruct (enumeration_registers l
                (fun w1 => quiet w w1 /\ (IFACES w <> [] -> IFACES w1 <> [])))
      with (w := w) (r := r3) (w' := w3) as [[Q3 N3] K3];
      [| split; [apply quiet_refl | auto] | exact Eloop |].
    - intros i Hi wa ra wb [Qa Na] Eb.
      split; [exact (quiet_trans _ _ _ Qa (register_adapter_quiet _ _ _ _ Eb)) |].
      intros _. destruct (register_adapter_run i wa wb ra Eb)
        as [_ [_ [_ [Hreg _]]]].
      rewrite Hreg. destruct (IFACES wa) as [| [k v] d]; simpl;
        [| destruct (String.eqb k (d_guid i))]; discriminate.
    - split; [exact Q3 |].
      destruct Hyp as [Hw | [Hn | Ha]]; [left; exact Hw | right; auto |].
      right. destruct l as [| i l]; [contradiction (Hl eq_refl Ha) |].
      intros Hempty. specialize (K3 i (or_introl eq_refl)).
      rewrite Hempty in K3. discriminate K3. }
  destruct E as [[[] [w3 [Eloop E]]] | [e [Eloop _]]];
    [| exact (proj1 (Hloop _ _ Eloop))].
  destruct (Hloop _ _ Eloop) as [Q3 N3]. apply (quiet_trans _ _ _ Q3).
  rewrite bind_run in E. unfold gets at 1 in E. cbv iota beta zeta in E.
  assert (Hcond : dict_is_empty (IFACES w3) && use_winpcapy (conf w) = false).
  { destruct N3 as [Hw | Hn]; [rewrite Hw; apply andb_false_r |].
    destruct (IFACES w3); [contradiction | reflexivity]. }
  rewrite Hcond in E. apply bind_inv in E.
  assert (Hlo : forall r5 w5,
             try_except
               (lo <- dev_from_name (LOOPBACK_NAME (conf w)) ;;
                modify (set_LOOPBACK_INTERFACE (Some lo)))
               ValueError (fun _ => ret tt) w3 = (r5, w5) ->
             quiet w3 w5).
  { intros r5 w5.
    unfold try_except, dev_from_name, bind, gets, modify, ret, raise. simpl.
    destruct (Py.next_such _ _); simpl; intros [= _ <-]; repeat split. }
  destruct E as [[[] [w5 [Et E]]] | [e [Et _]]]; [| exact (Hlo _ _ Et)].
  apply (quiet_trans _ _ _ (Hlo _ _ Et)).
  unfold load_cache_iflist in E. rewrite bind_run in E.
  unfold gets at 1 in E. cbv iota beta in E.
  refine (for_each_preserves register_cached _ (quiet w5) _ w5 r w'
            (quiet_refl w5) E).
  intros x wa ra wb _ Qa Eb.
  exact (quiet_trans _ _ _ Qa (register_cached_quiet _ _ _ _ Eb)).
Qed.

(** X29.  When the registry is not empty, or the operating system
    enumerates at least one adapter, or winpcapy is not in use, [load] runs
    no command, reads nothing from the terminal, logs nothing and leaves the
    restart flag as it is, whatever its outcome: the capture service is only
    looked at when there is no interface at all. *)
Theorem load_quiet_with_adapters (w w' : World) (r : result unit) :
  use_winpcapy (conf w) = false
  \/ IFACES w <> []
  \/ (exists a adapters, GetAdaptersAddresses (os w) = Ret (a :: adapters)) ->
  load w = (r, w') ->
  executed w' = executed w /\ stdin w' = stdin w /\ logged w' = logged w
  /\ restarted_adapter w' = restarted_adapter w.
Proof.
  intros Hyp E. unfold load in E.
  destruct (load_body_quiet _ w w' r Hyp E) as [_ Q]. exact Q.
Qed.

End Properties.

(** * The properties on the sample host *)

Lemma run_fst {A : Type} (m : M A) (w : World) (r : result A) :
  fst (m w) = r -> m w = (r, snd (m w)).
Proof. intros <-. destruct (m w). reflexivity. Qed.

(** ** Adapter Record Normalizer *)

Lemma get_mac_by_length_witness :
  _get_mac (adapter_with_mac 0 [x00; x00; x00; x00; x00; x00; x00; x00])
  = EmptyString
  /\ _get_mac (adapter_with_mac 6 [x00; x1a; x2b; x3c; x4d; xfe; x00; x00])
     = "00:1a:2b:3c:4d:fe".
Proof.
  split.
  - apply (proj1 (get_mac_by_length
                    (adapter_with_mac 0 [x00; x00; x00; x00; x00; x00; x00; x00]))).
    simpl. lia.
  - apply (proj2 (proj2 (get_mac_by_length
                    (adapter_with_mac 6 [x00; x1a; x2b; x3c; x4d; xfe; x00; x00])))
             x00 x1a x2b x3c x4d xfe [x00; x00]); reflexivity.
Defined.

(** ** Interface Registry *)

Lemma dev_from_index_loopback_fallback_witness :
  (exists iface,
      dev_from_index 1 sample_world = (Ret iface, sample_world)
      /\ In iface (itervalues (IFACES sample_world))
      /\ win_index (heap sample_world iface) = Some 1)
  /\ dev_from_index 11 sample_world
     = (Raise (UnknownInterfaceIndex 11), sample_world).
Proof.
  assert (Hlo : LOOPBACK_INTERFACE sample_world = Some 1%nat)
    by (vm_compute; reflexivity).
  split.
  - apply (proj1 (proj2 (dev_from_index_loopback_fallback sample_world 1%nat Hlo))).
    exists 1%nat. split; [vm_compute; auto | vm_compute; reflexivity].
  - apply (proj2 (proj2 (proj2
             (dev_from_index_loopback_fallback sample_world 1%nat Hlo)))).
    + lia.
    + intros e He. vm_compute in He.
      destruct He as [<- | [<- | [<- | []]]]; vm_compute; discriminate.
Defined.

Lemma pcapname_invalid_or_resolved_witness :
  pcapname (IsInterface 2%nat) sample_world = (Ret None, sample_world)
  /\ pcapname (IsName "Wi-Fi") sample_world
     = (Ret (pcap_name (heap sample_world 0%nat)), sample_world).
Proof.
  split.
  - apply (proj1 (pcapname_invalid_or_resolved sample_world)).
    vm_compute. reflexivity.
  - apply (proj2 (pcapname_invalid_or_resolved sample_world)).
    vm_compute. reflexivity.
Defined.

(** C5 as the spec states it: the MAC and the primary address of a loopback
    adapter are forced whatever the host.  On a host without Npcap the
    interface keeps the MAC and takes the address that the operating system
    reports. *)
Lemma update_loopback_not_forced_without_npcap :
  ~ (forall (w : World) (self : loc) (d : IfData),
        d_netid d = Some (LOOPBACK_NAME (conf w))
        \/ d_name d = LOOPBACK_NAME (conf w) ->
        mac (heap (snd (update self d w)) self) = Some "00:00:00:00:00:00"
        /\ ip (heap (snd (update self d w)) self) = Some "127.0.0.1").
Proof.
  intros Hc.
  destruct (Hc winpcap_boot 0%nat
              (loopback_data "Microsoft KM-TEST Loopback Adapter")
              (or_intror eq_refl)) as [Hmac _].
  vm_compute in Hmac. discriminate Hmac.
Qed.

Lemma update_loopback_witness :
  exists w',
    update 0%nat (loopback_data "Npcap Loopback Adapter") sample_boot
    = (Ret tt, w')
    /\ name (heap w' 0%nat) = Some "Npcap Loopback Adapter"
    /\ mac (heap w' 0%nat) = Some "00:00:00:00:00:00"
    /\ ip (heap w' 0%nat) = Some "127.0.0.1".
Proof.
  destruct (update_loopback sample_boot 0%nat
              (loopback_data "Npcap Loopback Adapter") (or_intror eq_refl))
    as [w' [E [Hn [Hnpcap _]]]].
  exists w'. split; [exact E |]. split; [exact Hn |].
  apply Hnpcap. reflexivity.
Defined.

(** ** Wireless capability *)

(** C3 as the spec states it: [ismonitor] returns a flag in every state.  On
    a host without Npcap, for an interface without a cached flag, it raises
    the [OSError] of [_check_npcap_requirement]. *)
Lemma ismonitor_raises_without_npcap :
  ~ (forall (w : World) (self : loc),
        exists b w', ismonitor self w = (Ret b, w')).
Proof.
  intros Hc. destruct (Hc winpcap_boot 0%nat) as [b [w' E]].
  vm_compute in E. discriminate E.
Qed.

Lemma ismonitor_cases_witness :
  ismonitor 0%nat winpcap_boot = (Raise RequiresNpcap, winpcap_boot)
  /\ exists res w',
       ismonitor 0%nat sample_world = (Ret res, w')
       /\ cache_mode (heap w' 0%nat) = Some res
       /\ executed w'
          = ["C:\Windows\System32\Npcap\WlanHelper.exe 6A1B2C3D-0000-4000-8000-0000000000A1 mode"]
       /\ (PY2 (conf sample_world) = true -> res = true).
Proof.
  split.
  - apply (proj1 (proj2 (ismonitor_cases winpcap_boot 0%nat))); reflexivity.
  - apply (proj2 (proj2 (proj2 (ismonitor_cases sample_world 0%nat)))
             "{6A1B2C3D-0000-4000-8000-0000000000A1}");
      vm_compute; reflexivity.
Defined.

(** C4 as the spec states it: [ismonitor] returns [True] after any
    [setmonitor(True)] that returns.  When the helper process fails,
    [setmonitor(True)] returns [False] and caches it, and [ismonitor] returns
    [False]. *)
Lemma ismonitor_false_after_failed_setmonitor :
  ~ (forall (w w1 : World) (self : loc) (res : bool),
        setmonitor self true w = (Ret res, w1) ->
        fst (ismonitor self w1) = Ret true).
Proof.
  intros Hc.
  assert (E : setmonitor 0%nat true failing_helper_world
              = (Ret false, snd (setmonitor 0%nat true failing_helper_world)))
    by (apply (run_fst (setmonitor 0%nat true) failing_helper_world);
        vm_compute; reflexivity).
  specialize (Hc _ _ _ _ E). clear E. vm_compute in Hc. discriminate Hc.
Qed.

Lemma setmonitor_then_ismonitor_witness :
  let w1 := snd (setmonitor 0%nat true sample_world) in
  fst (setmode 0%nat (PyStr "monitor") sample_world) = Ret true
  /\ cache_mode (heap w1 0%nat) = Some true
  /\ ismonitor 0%nat w1 = (Ret true, w1)
  /\ executed (snd (ismonitor 0%nat w1)) = executed w1.
Proof.
  apply (setmonitor_then_ismonitor sample_world
           (snd (setmonitor 0%nat true sample_world)) 0%nat true true).
  apply (run_fst (setmonitor 0%nat true) sample_world).
  vm_compute. reflexivity.
Defined.

(** ** Registry load *)

(** C9 as the spec states it: [load] makes up an interface for every cache
    entry whose identifier the enumeration does not have, and [dev_from_name]
    finds it.  On a host without powershell and cscript, [load] returns
    before it reads the cache. *)
Lemma load_skips_cache_without_os_access :
  ~ (forall (I : Imports) (w w' : World) (nm g : string) (ips : list string),
        load w = (Ret tt, w') ->
        In (nm, (g, ips)) (cache_iflist (conf w)) ->
        ~ In (cache_guid g) (enumerated w) ->
        exists iface,
          dict_get String.eqb (cache_guid g) (IFACES w') = Some iface
          /\ win_index (heap w' iface) = Some (-1)
          /\ description (heap w' iface) = Some ("[Unknown] " ++ nm)%string
          /\ dev_from_name nm w' = (Ret iface, w')).
Proof.
  intros Hc.
  assert (E : @load sample_imports no_access_boot
              = (Ret tt, snd (@load sample_imports no_access_boot)))
    by (apply (run_fst (@load sample_imports) no_access_boot);
        vm_compute; reflexivity).
  pose proof (Hc sample_imports _ _ "nt0"
                "\Device\NPF_{c0ffee00-0000-4000-8000-00000000beef}"
                ["10.9.9.9"] E) as Hc1.
  assert (Hin : In ("nt0",
                    ("\Device\NPF_{c0ffee00-0000-4000-8000-00000000beef}",
                     ["10.9.9.9"]))
                  (cache_iflist (conf no_access_boot)))
    by (left; reflexivity).
  assert (Hn : ~ In (cache_guid
                       "\Device\NPF_{c0ffee00-0000-4000-8000-00000000beef}")
                    (enumerated no_access_boot)).
  { vm_compute. intros [E1 | [E1 | []]]; discriminate. }
  destruct (Hc1 Hin Hn) as [iface [Hget _]].
  clear E Hc Hc1. vm_compute in Hget. discriminate Hget.
Qed.

(** A made-up interface that [dev_from_name] does not return: the wireless
    adapter comes first in the registry and has the logical name as its
    name. *)
Lemma dev_from_name_returns_first_match :
  let w' := snd (@load sample_imports same_name_boot) in
  dict_get String.eqb "{C0FFEE00-0000-4000-8000-00000000BEEF}" (IFACES w')
  = Some 2%nat
  /\ name (heap w' 2%nat) = Some "Wi-Fi"
  /\ fst (dev_from_name "Wi-Fi" w') = Ret 0%nat.
Proof. vm_compute. repeat split. Qed.

Lemma load_synthesizes_cached_witness :
  exists iface,
    dict_get String.eqb "{C0FFEE00-0000-4000-8000-00000000BEEF}"
      (IFACES sample_world) = Some iface
    /\ win_index (heap sample_world iface) = Some (-1)
    /\ description (heap sample_world iface) = Some "[Unknown] nt0"
    /\ name (heap sample_world iface) = Some "nt0"
    /\ exists found,
         dev_from_name "nt0" sample_world = (Ret found, sample_world)
         /\ (name (heap sample_world found) = Some "nt0"
             \/ description (heap sample_world found) = Some "nt0").
Proof.
  assert (Hacc : prog_os_access (conf sample_boot) = true) by reflexivity.
  assert (E : @load sample_imports sample_boot = (Ret tt, sample_world))
    by (apply (run_fst (@load sample_imports) sample_boot);
        vm_compute; reflexivity).
  assert (Hcache : cache_iflist (conf sample_boot)
                   = ([] ++ ("nt0",
                             ("\Device\NPF_{c0ffee00-0000-4000-8000-00000000beef}",
                              ["10.9.9.9"])) :: [])%list)
    by reflexivity.
  assert (Hreg : dict_mem String.eqb
                   (cache_guid
                      "\Device\NPF_{c0ffee00-0000-4000-8000-00000000beef}")
                   (IFACES sample_boot) = false)
    by reflexivity.
  assert (Hn : ~ In (cache_guid
                       "\Device\NPF_{c0ffee00-0000-4000-8000-00000000beef}")
                    (enumerated sample_boot)).
  { vm_compute. intros [E1 | [E1 | []]]; discriminate. }
  assert (Hbefore : forall e : string * (string * list string),
             In e [] ->
             cache_guid (fst (snd e))
             <> cache_guid
                  "\Device\NPF_{c0ffee00-0000-4000-8000-00000000beef}")
    by (intros e []).
  destruct (@load_synthesizes_cached sample_imports sample_boot sample_world
              [] [] "nt0" "\Device\NPF_{c0ffee00-0000-4000-8000-00000000beef}"
              ["10.9.9.9"] Hacc E Hcache Hreg Hn Hbefore)
    as [iface [Hget [Hw [Hd [Hnm [found [Ef [Hp _]]]]]]]].
  exists iface. split; [exact Hget |]. split; [exact Hw |].
  split; [exact Hd |]. split; [exact Hnm |].
  exists found. split; [exact Ef | exact Hp].
Defined.

(** ** Routing tables *)

Lemma route_metric_is_sum_witness :
  table_of (@route_of_row sample_imports sample_world false)
    (forward_rows sample_world AF_INET)
    [Route4 0 0 "192.168.1.1" 0%nat (Some "192.168.1.50") 266]
  /\ table_of (@route_of_row sample_imports sample_world true)
       (forward_rows sample_world AF_INET6)
       [Route6 "fe:80:00:00:00:00:00:00:00:00:00:00:00:00:00:00" 16 "::"
          0%nat ["fe:80:00:00:00:00:00:00:00:00:00:00:00:00:00:01"] 276;
        Route6 "00:00:00:00:00:00:00:00:00:00:00:00:00:00:00:01" 128 "::"
          1%nat ["::1"] 406].
Proof.
  split.
  - apply (proj1 (@route_metric_is_sum sample_imports sample_world)
             [Route4 0 0 "192.168.1.1" 0%nat (Some "192.168.1.50") 266]).
    vm_compute. reflexivity.
  - apply (proj2 (@route_metric_is_sum sample_imports sample_world)
             [Route6 "fe:80:00:00:00:00:00:00:00:00:00:00:00:00:00:00" 16 "::"
                0%nat ["fe:80:00:00:00:00:00:00:00:00:00:00:00:00:00:01"] 276;
              Route6 "00:00:00:00:00:00:00:00:00:00:00:00:00:00:00:01" 128 "::"
                1%nat ["::1"] 406]).
    vm_compute. reflexivity.
Defined.

Lemma route6_candidate_sources_witness :
  @_append_route6 sample_imports [] "::" 0 "::" 1%nat [] 406 sample_world
  = (Ret [], sample_world)
  /\ exists lifaddr,
       fst (@in6_getifaddr sample_imports sample_world) = Ret lifaddr
       /\ @route6_sources sample_imports sample_world lifaddr
            (Route6 "fe:80:00:00:00:00:00:00:00:00:00:00:00:00:00:00" 16 "::"
               0%nat ["fe:80:00:00:00:00:00:00:00:00:00:00:00:00:00:01"] 276).
Proof.
  split.
  - apply (proj1 (@route6_candidate_sources sample_imports sample_world));
      vm_compute; reflexivity.
  - apply (proj2 (proj2 (proj2
             (@route6_candidate_sources sample_imports sample_world)))
             [Route6 "fe:80:00:00:00:00:00:00:00:00:00:00:00:00:00:00" 16 "::"
                0%nat ["fe:80:00:00:00:00:00:00:00:00:00:00:00:00:00:01"] 276;
              Route6 "00:00:00:00:00:00:00:00:00:00:00:00:00:00:00:01" 128 "::"
                1%nat ["::1"] 406]);
      [vm_compute; reflexivity | left; reflexivity].
Defined.

(** C6 as the spec states it: an empty IPv4 table always comes with the
    warning that no default IPv4 route was found.  When the forwarding table
    cannot be read, the table is empty and the only warning is the one about
    the error. *)
Lemma read_routes_empty_without_route_warning :
  ~ (forall (I : Imports) (w : World),
        fst (read_routes w) = Ret [] ->
        In Warn_no_default_ipv4_routes (logged (snd (read_routes w)))).
Proof.
  intros Hc. specialize (Hc sample_imports no_tables_world).
  vm_compute in Hc. destruct (Hc eq_refl) as [E | []]. discriminate E.
Qed.

Lemma read_routes_contain_failures_witness :
  @read_routes sample_imports no_tables_world
  = (Ret [],
     set_logged
       (logged no_tables_world
        ++ [Warn_error_building false
              (External OSError "GetIpForwardTable2 failed")])
       no_tables_world).
Proof.
  apply (proj1 (proj2 (proj2
           (@read_routes_contain_failures sample_imports no_tables_world)))).
  vm_compute. reflexivity.
Defined.

(** ** The rest of the module *)

Lemma pcap_service_start_stop_witness :
  pcap_service_stop false sample_boot
  = (Ret true, set_executed ["sc stop npcap"] sample_boot)
  /\ controls_service (pcap_service_start true) sample_boot "sc start" true.
Proof.
  assert (Hp : truthy (prog_powershell (conf sample_boot)) = true)
    by reflexivity.
  split.
  - exact (proj2 (proj2 (pcap_service_start_stop sample_boot false) Hp)).
  - exact (proj1 (proj2 (pcap_service_start_stop sample_boot true) Hp)).
Defined.

Lemma check_npcap_requirement_decided_once_witness :
  exists w1,
    _check_npcap_requirement 0%nat sample_world = (Ret tt, w1)
    /\ raw80211 (heap w1 0%nat) = Some true
    /\ _check_npcap_requirement 0%nat w1 = (Ret tt, w1).
Proof.
  assert (Hnp : use_npcap (conf sample_world) = true)
    by (vm_compute; reflexivity).
  assert (Hg : guid (heap sample_world 0%nat)
               = Some "{6A1B2C3D-0000-4000-8000-0000000000A1}")
    by (vm_compute; reflexivity).
  assert (Hcap : dot11_capable sample_world 0%nat = true)
    by (vm_compute; reflexivity).
  destruct (check_npcap_requirement_decided_once sample_world 0%nat _ true
              Hnp Hg Hcap)
    as [w1 [E [_ [Hraw [E2 _]]]]].
  exists w1. split; [exact E |]. split; [exact Hraw | exact E2].
Defined.

Lemma wireless_needs_raw80211_witness :
  wireless_refused 0%nat winpcap_world RequiresNpcap
  /\ wireless_refused 1%nat sample_world NoRaw80211.
Proof.
  split.
  - apply (proj1 (wireless_needs_raw80211 winpcap_world 0%nat)).
    vm_compute. reflexivity.
  - apply (proj2 (wireless_needs_raw80211 sample_world 1%nat)
             "{7E5F0000-0000-4000-8000-0000000000B2}");
      vm_compute; reflexivity.
Defined.


Lemma setmonitor_logs_failure_witness :
  logged (snd (setmonitor 0%nat true failing_helper_world))
  = (logged failing_helper_world ++ [Error_wlanhelper])%list.
Proof.
  apply (setmonitor_logs_failure failing_helper_world
           (snd (setmonitor 0%nat true failing_helper_world)) 0%nat true
           (Ret false)).
  apply (run_fst (setmonitor 0%nat true) failing_helper_world).
  vm_compute. reflexivity.
Defined.

Lemma ismonitor_settles_witness :
  ismonitor 0%nat monitoring_world = (Ret true, monitoring_world).
Proof.
  apply (ismonitor_settles sample_world monitoring_world 0%nat true).
  apply (run_fst (ismonitor 0%nat) sample_world).
  vm_compute. reflexivity.
Defined.

Lemma open_pcap_without_npcap_witness :
  open_pcap (IsName "Wi-Fi") (Some true) winpcap_world
  = (match fst (pcapname (IsName "Wi-Fi") winpcap_world) with
     | Ret iface_pcap_name => Ret (iface_pcap_name, Some true)
     | Raise e => Raise e
     end, winpcap_world).
Proof.
  apply (open_pcap_without_npcap winpcap_world (IsName "Wi-Fi") (Some true)).
  vm_compute. reflexivity.
Defined.

Lemma open_pcap_follows_mode_witness :
  open_pcap (IsInterface 0%nat) None monitoring_world
  = (Ret (pcap_name (heap monitoring_world 0%nat), Some true),
     monitoring_world).
Proof.
  assert (Hnp : use_npcap (conf monitoring_world) = true)
    by (vm_compute; reflexivity).
  assert (Hc : cache_mode (heap monitoring_world 0%nat) = Some true)
    by (vm_compute; reflexivity).
  assert (Hinv : invalid (heap monitoring_world 0%nat) = false)
    by (vm_compute; reflexivity).
  pose proof (proj1 (open_pcap_follows_mode monitoring_world 0%nat true
                       Hnp Hc)) as E.
  rewrite Hinv in E. exact E.
Defined.

Lemma open_pcap_by_name_witness :
  open_pcap (IsName "Wi-Fi") None sample_world
  = open_pcap (IsInterface 0%nat) None sample_world.
Proof.
  apply (open_pcap_by_name sample_world "Wi-Fi"
           "\Device\NPF_{6A1B2C3D-0000-4000-8000-0000000000A1}" 0%nat None).
  - vm_compute. reflexivity.
  - vm_compute. reflexivity.
  - vm_compute. reflexivity.
Defined.

Lemma open_pcap_without_raw80211_witness :
  refused (open_pcap (IsInterface 1%nat) (Some true)) sample_world NoRaw80211.
Proof.
  apply (proj2 (open_pcap_without_raw80211 sample_world 1%nat
                  "{7E5F0000-0000-4000-8000-0000000000B2}"
                  ltac:(vm_compute; reflexivity)
                  ltac:(vm_compute; reflexivity)
                  ltac:(vm_compute; reflexivity)
                  ltac:(vm_compute; reflexivity))).
Defined.

Lemma pcapname_round_trip_witness :
  (pn <- pcapname (IsInterface 0%nat) ;; dev_from_pcapname pn) sample_world
  = (Ret 0%nat, sample_world)
  /\ get_if_raw_hwaddr 1 sample_mac2str (IsInterface 0%nat) sample_world
     = (Ret (1, [x00; x1a; x2b; x3c; x4d; x5e]), sample_world).
Proof.
  apply (proj1 (pcapname_round_trip 1 sample_mac2str sample_world 0%nat)).
  - vm_compute. left. reflexivity.
  - vm_compute. reflexivity.
  - intros other Ho Hp. vm_compute in Ho.
    destruct Ho as [<- | [<- | [<- | []]]];
      [reflexivity | vm_compute in Hp; discriminate Hp
      | vm_compute in Hp; discriminate Hp].
Defined.

Lemma dev_from_name_first_match_witness :
  dev_from_name "Npcap Loopback Adapter" sample_world
  = (Ret 1%nat, sample_world)
  /\ pcapname (IsName "Npcap Loopback Adapter") sample_world
     = (Ret (pcap_name (heap sample_world 1%nat)), sample_world).
Proof.
  apply (proj1 (dev_from_name_first_match sample_world
                  "Npcap Loopback Adapter") [0%nat] 1%nat [2%nat]).
  - vm_compute. reflexivity.
  - left. vm_compute. reflexivity.
  - intros x [<- | []] [Hm | Hm]; vm_compute in Hm; discriminate Hm.
Defined.

Lemma update_from_data_witness :
  exists w',
    update 0%nat ethernet_data sample_boot = (Ret tt, w')
    /\ name (heap w' 0%nat) = Some "Ethernet"
    /\ ip (heap w' 0%nat) = Some "10.0.0.7".
Proof.
  assert (Hnet : d_netid ethernet_data
                 <> Some (LOOPBACK_NAME (conf sample_boot)))
    by (intros E; discriminate E).
  assert (Hname : d_name ethernet_data <> LOOPBACK_NAME (conf sample_boot))
    by (intros E; vm_compute in E; discriminate E).
  destruct (update_from_data sample_boot 0%nat ethernet_data Hnet Hname)
    as [w' [E [Hn [_ [_ [_ [_ [_ [_ [_ Hip]]]]]]]]]].
  exists w'. split; [exact E |]. split; [exact Hn | exact Hip].
Defined.

Lemma routes_of_interfaces_witness :
  route_of_interface sample_world
    (Route4 0 0 "192.168.1.1" 0%nat (Some "192.168.1.50") 266).
Proof.
  apply (proj1 (@routes_of_interfaces sample_imports sample_world)
           [Route4 0 0 "192.168.1.1" 0%nat (Some "192.168.1.50") 266]);
    [vm_compute; reflexivity | left; reflexivity].
Defined.

Lemma extract_ip_netmask_trailing_zeros_witness :
  @_extract_ip_netmask sample_imports false [x0a; x00; x00; x00]
  = ("10.0.0.0", 8).
Proof.
  assert (Hlast : [x0a] = [] \/ last [x0a] x00 <> x00)
    by (right; intros E; discriminate E).
  exact (@extract_ip_netmask_trailing_zeros sample_imports false [x0a] 3
           Hlast).
Defined.

Lemma get_ips_by_family_witness :
  exists res,
    get_ips true sample_world = (Ret res, sample_world)
    /\ dict_get Nat.eqb 0%nat res
       = option_map (of_family true) (ips (heap sample_world 0%nat))
    /\ dict_get Nat.eqb 7%nat res = None.
Proof.
  assert (Hips : forall iface,
             In iface (itervalues (IFACES sample_world)) ->
             ips (heap sample_world iface) <> None).
  { intros iface Hi. vm_compute in Hi.
    destruct Hi as [<- | [<- | [<- | []]]]; vm_compute; intros E;
      discriminate E. }
  destruct (get_ips_by_family sample_world true Hips) as [res [E [Hin Hout]]].
  exists res. split; [exact E |]. split.
  - apply Hin. vm_compute. left. reflexivity.
  - apply Hout. vm_compute. intros [E7 | [E7 | [E7 | []]]]; discriminate E7.
Defined.

Lemma in6_getifaddr_entries_witness :
  exists lifaddr,
    @in6_getifaddr sample_imports sample_world = (Ret lifaddr, sample_world)
    /\ In ("::1", 0, 1%nat) lifaddr.
Proof.
  assert (Hips : forall iface,
             In iface (itervalues (IFACES sample_world)) ->
             ips (heap sample_world iface) <> None).
  { intros iface Hi. vm_compute in Hi.
    destruct Hi as [<- | [<- | [<- | []]]]; vm_compute; intros E;
      discriminate E. }
  destruct (@in6_getifaddr_entries sample_imports sample_world Hips)
    as [lifaddr [E Hent]].
  exists lifaddr. split; [exact E |]. apply Hent. right.
  split; [vm_compute; reflexivity |]. split; [vm_compute; reflexivity |].
  split; reflexivity.
Defined.

Lemma get_ip_from_name_first_witness :
  get_ip_from_name "Wi-Fi" false sample_world
  = (Ret "192.168.1.50", sample_world)
  /\ get_ip_from_name "Npcap Loopback Adapter" false sample_world
     = (Raise IndexError_list_index, sample_world).
Proof.
  assert (Hips : forall iface,
             In iface (itervalues (IFACES sample_world)) ->
             ips (heap sample_world iface) <> None).
  { intros iface Hi. vm_compute in Hi.
    destruct Hi as [<- | [<- | [<- | []]]]; vm_compute; intros E;
      discriminate E. }
  split.
  - rewrite (get_ip_from_name_first sample_world "Wi-Fi" false Hips).
    vm_compute. reflexivity.
  - rewrite (get_ip_from_name_first sample_world "Npcap Loopback Adapter"
               false Hips).
    vm_compute. reflexivity.
Defined.

Lemma get_working_if_smallest_netmask_witness :
  get_working_if [] sample_world
  = (Ret (LOOPBACK_INTERFACE sample_world), sample_world)
  /\ exists before r after,
       two_routes = (before ++ r :: after)%list
       /\ get_working_if two_routes sample_world
          = (Ret (Some (route_iface r)), sample_world)
       /\ (forall x, In x before -> route_netmask r < route_netmask x)
       /\ (forall x, In x after -> route_netmask r <= route_netmask x).
Proof.
  split.
  - apply (proj1 (get_working_if_smallest_netmask sample_world [])).
    reflexivity.
  - apply (proj2 (get_working_if_smallest_netmask sample_world two_routes)).
    intros E. discriminate E.
Defined.


Lemma load_keeps_registry_witness :
  let w' := snd (@load sample_imports sample_world) in
  (next_loc sample_world <= next_loc w')%nat
  /\ (forall l, (l < next_loc sample_world)%nat ->
                heap w' l = heap sample_world l)
  /\ (forall k,
        dict_mem String.eqb k (IFACES sample_world) = true ->
        dict_mem String.eqb k (IFACES w') = true).
Proof.
  apply (@load_keeps_registry sample_imports sample_world
           (snd (@load sample_imports sample_world)) (Ret tt)).
  apply (run_fst (@load sample_imports) sample_world).
  vm_compute. reflexivity.
Defined.

Lemma registry_keyed_by_guid_witness :
  keyed_by_guid (snd (@reload sample_imports sample_world)).
Proof.
  apply (proj2 (@registry_keyed_by_guid sample_imports sample_world
                  (snd (@reload sample_imports sample_world)) (Ret tt))).
  apply (run_fst (@reload sample_imports) sample_world).
  vm_compute. reflexivity.
Defined.

Lemma reload_registers_loadable_witness :
  loadable sample_world "{C0FFEE00-0000-4000-8000-00000000BEEF}".
Proof.
  apply (proj1 (@reload_registers_loadable sample_imports sample_world
                  (snd (@reload sample_imports sample_world)) (Ret tt)
                  (run_fst (@reload sample_imports) sample_world (Ret tt)
                     ltac:(vm_compute; reflexivity)))).
  vm_compute. reflexivity.
Defined.

Lemma reload_prefers_adapters_witness :
  from_adapter sample_world "{6A1B2C3D-0000-4000-8000-0000000000A1}"
    (heap (snd (@reload sample_imports sample_world)) 3%nat).
Proof.
  apply (@reload_prefers_adapters sample_imports sample_world
           (snd (@reload sample_imports sample_world)) (Ret tt)).
  - apply (run_fst (@reload sample_imports) sample_world).
    vm_compute. reflexivity.
  - vm_compute. left. reflexivity.
  - vm_compute. reflexivity.
Defined.

Lemma load_raises_only_witness :
  GetAdaptersAddresses (os no_enumeration_boot)
  = Raise (External OSError "GetAdaptersAddresses failed")
  \/ (interactive (conf no_enumeration_boot) = true
      /\ External OSError "GetAdaptersAddresses failed" = EndOfInput).
Proof.
  apply (@load_raises_only sample_imports no_enumeration_boot
           (snd (@load sample_imports no_enumeration_boot))
           (External OSError "GetAdaptersAddresses failed")).
  left. apply (run_fst (@load sample_imports) no_enumeration_boot).
  vm_compute. reflexivity.
Defined.

Lemma wireless_getters_ask_helper_witness :
  asks_helper (modulation 0%nat) sample_world
    "{6A1B2C3D-0000-4000-8000-0000000000A1}" "modu".
Proof.
  apply (proj1 (proj2 (wireless_getters_ask_helper sample_world 0%nat
                         "{6A1B2C3D-0000-4000-8000-0000000000A1}"
                         ltac:(vm_compute; reflexivity)
                         ltac:(vm_compute; reflexivity)
                         ltac:(vm_compute; reflexivity)))).
Defined.

Lemma load_quiet_with_adapters_witness :
  let w' := snd (@load sample_imports sample_world) in
  executed w' = executed sample_world
  /\ stdin w' = stdin sample_world
  /\ logged w' = logged sample_world
  /\ restarted_adapter w' = restarted_adapter sample_world.
Proof.
  apply (@load_quiet_with_adapters sample_imports sample_world
           (snd (@load sample_imports sample_world)) (Ret tt)).
  - right. left. intros E. vm_compute in E. discriminate E.
  - apply (run_fst (@load sample_imports) sample_world).
    vm_compute. reflexivity.
Defined.
